(** * ToonFrame Architect: storyboard pipeline, retry wrapper, store and export gate

    A shallow embedding of the TypeScript sources

      - [App.tsx]: the store ([updateSceneInState], the [storyboardRef]
        shadow reference), [processImagesQueue], [retryMissingImages] and
        [handleGenerate];
      - the [geminiService] object that [App.tsx] calls: analysis client,
        image client, retry wrapper [generateSceneImageWithRetry] and the two
        argument [createCharacterReferenceSheet].  Its text follows the
        export code in [services/downloadService.ts]; the file
        [services/geminiService.ts] holds an earlier version of the same
        object, without the retry wrapper and with a reference sheet builder
        that asks for each view once (module [Legacy] below);
      - [services/downloadService.ts]: the archive export and its predicates;
      - [components/DownloadSection.tsx]: [handleDownloadZip].

    Asynchronous code is sequentialised: the application is single threaded
    and awaits every backend call, so an [await] is an ordinary sequencing
    point.  The generative backend is an oracle indexed by the ordinal of the
    call; React state is a record; [setStoryboard] updaters are applied at the
    call.  Every backend call, timer and store update is appended to a
    chronological trace, which is what the temporal statements talk about. *)

From Stdlib Require Import ZArith List String Ascii Bool Arith Lia.
From Stdlib Require Import DecimalString.
Import ListNotations.

Local Open Scope string_scope.
Local Open Scope list_scope.
Local Open Scope Z_scope.

Set Implicit Arguments.
Set Warnings "-register-all".

(* ------------------------------------------------------------------ *)
(** ** JavaScript values used by the sources *)

(** Truthiness of a [string | undefined | null]: the empty string is falsy. *)
Definition truthy (o : option string) : bool :=
  match o with
  | Some s => negb (s =? "")%string
  | None => false
  end.

(** Truthiness of an optional boolean flag ([undefined] is falsy). *)
Definition flag (o : option bool) : bool :=
  match o with
  | Some b => b
  | None => false
  end.

(** [hay.includes(needle)] *)
Definition includes (hay needle : string) : bool :=
  match String.index 0 needle hay with
  | Some _ => true
  | None => false
  end.

Definition nl : string := String (ascii_of_nat 10) EmptyString.

(** [s.split(sep)] for a one character separator. *)
Fixpoint split (sep : ascii) (s : string) : list string :=
  match s with
  | EmptyString => [EmptyString]
  | String c r =>
      let rest := split sep r in
      if Ascii.eqb c sep then EmptyString :: rest
      else match rest with
           | h :: t => String c h :: t
           | [] => [String c EmptyString]
           end
  end.

(** [n.toString()] for an integer. *)
Definition toString (n : Z) : string := NilZero.string_of_int (Z.to_int n).

(** [String(c).repeat(k)] *)
Fixpoint repeatChar (c : ascii) (k : nat) : string :=
  match k with
  | O => EmptyString
  | S k' => String c (repeatChar c k')
  end.

(** [s.padStart(n, c)] for a one character filler. *)
Definition padStart (n : nat) (c : ascii) (s : string) : string :=
  (repeatChar c (n - String.length s) ++ s)%string.

(** A thrown JavaScript error.  [message] is its [.message]; [json] stands
    for what [JSON.stringify] prints for it. *)
Record JsError := mkError { message : string; json : string }.

(** [new Error(msg)]: an [Error] has no enumerable property of its own. *)
Definition newError (msg : string) : JsError := mkError msg "{}".

(** Outcome of running a piece of code: a value, a thrown error, or the
    loop budget of the model ran out before the code returned. *)
Inductive Res (A : Type) : Type :=
| Ok (a : A)
| Throw (e : JsError)
| OutOfFuel.

Arguments Ok {A} a.
Arguments Throw {A} e.
Arguments OutOfFuel {A}.

(* ------------------------------------------------------------------ *)
(** ** Data model ([types.ts]) *)

(** [types.ts] is not among the sources; its types follow section 3 of the
    specification and the fields the sources read and write.  Optional
    fields are [option]s ([None] is [undefined]). *)

(** Modelled from the spec: the type [ImageSize] of [types.ts], the
    resolution selector [{1K, 2K, 4K}]. *)
Inductive ImageSize := Size1K | Size2K | Size4K.

Definition imageSizeName (s : ImageSize) : string :=
  match s with
  | Size1K => "1K"
  | Size2K => "2K"
  | Size4K => "4K"
  end.

(** Modelled from the spec: the type [ConsistencyBible] of [types.ts]. *)
Record ConsistencyBible := {
  characterVisuals : string;
  environmentVisuals : string
}.

(** Modelled from the spec: the type [Scene] of [types.ts].  The image
    fields and the status fields are absent from a scene fresh from the
    analysis; [characterDirection] is a string in the response schema. *)
Record Scene := {
  id : Z;
  title : string;
  sceneContext : string;
  imageADescription : string;
  imageBDescription : string;
  motionPrompt : string;
  characterDirection : string;
  characterExpression : string;
  characterPose : string;
  imageAUrl : option string;
  imageBUrl : option string;
  isGeneratingImage : option bool;
  retryAttempt : option Z;
  imageAFailed : option bool;
  imageBFailed : option bool
}.

(** Modelled from the spec: the type of the reference sheet in [types.ts];
    the builder returns three strings, empty for a view it could not draw. *)
Record CharacterReferenceSheet := {
  front : string;
  side : string;
  back : string
}.

(** Modelled from the spec: the type [StoryboardData] of [types.ts]. *)
Record StoryboardData := {
  consistencyBible : ConsistencyBible;
  scenes : list Scene;
  characterReferenceSheet : option CharacterReferenceSheet
}.

(** The [Partial<Scene>] objects the application passes to
    [updateSceneInState]: only the six mutable fields ever occur in them.
    [None] means the key is absent from the object literal. *)
Record ScenePatch := {
  uIsGeneratingImage : option bool;
  uRetryAttempt : option Z;
  uImageAUrl : option string;
  uImageAFailed : option bool;
  uImageBUrl : option string;
  uImageBFailed : option bool
}.

Definition noPatch : ScenePatch :=
  {| uIsGeneratingImage := None; uRetryAttempt := None;
     uImageAUrl := None; uImageAFailed := None;
     uImageBUrl := None; uImageBFailed := None |}.

(** The object literals of [App.tsx]. *)
(** [{ isGeneratingImage: b }] *)
Definition patchGenerating (b : bool) : ScenePatch :=
  {| uIsGeneratingImage := Some b; uRetryAttempt := None;
     uImageAUrl := None; uImageAFailed := None;
     uImageBUrl := None; uImageBFailed := None |}.

(** [{ retryAttempt: n }] *)
Definition patchRetryAttempt (n : Z) : ScenePatch :=
  {| uIsGeneratingImage := None; uRetryAttempt := Some n;
     uImageAUrl := None; uImageAFailed := None;
     uImageBUrl := None; uImageBFailed := None |}.

(** [{ imageAUrl: url, imageAFailed: false }] *)
Definition patchImageA (url : string) : ScenePatch :=
  {| uIsGeneratingImage := None; uRetryAttempt := None;
     uImageAUrl := Some url; uImageAFailed := Some false;
     uImageBUrl := None; uImageBFailed := None |}.

(** [{ imageAFailed: true }] *)
Definition patchImageAFailed : ScenePatch :=
  {| uIsGeneratingImage := None; uRetryAttempt := None;
     uImageAUrl := None; uImageAFailed := Some true;
     uImageBUrl := None; uImageBFailed := None |}.

(** [{ imageBUrl: url, imageBFailed: false }] *)
Definition patchImageB (url : string) : ScenePatch :=
  {| uIsGeneratingImage := None; uRetryAttempt := None;
     uImageAUrl := None; uImageAFailed := None;
     uImageBUrl := Some url; uImageBFailed := Some false |}.

(** [{ imageBFailed: true }] *)
Definition patchImageBFailed : ScenePatch :=
  {| uIsGeneratingImage := None; uRetryAttempt := None;
     uImageAUrl := None; uImageAFailed := None;
     uImageBUrl := None; uImageBFailed := Some true |}.

(** One key of an object spread: a key present in the right operand wins. *)
Definition spreadKey {A : Type} (old new : option A) : option A :=
  match new with
  | Some v => Some v
  | None => old
  end.

(** [{ ...s, ...updates }] *)
Definition spreadScene (s : Scene) (updates : ScenePatch) : Scene :=
  {| id := id s;
     title := title s;
     sceneContext := sceneContext s;
     imageADescription := imageADescription s;
     imageBDescription := imageBDescription s;
     motionPrompt := motionPrompt s;
     characterDirection := characterDirection s;
     characterExpression := characterExpression s;
     characterPose := characterPose s;
     imageAUrl := spreadKey (imageAUrl s) (uImageAUrl updates);
     imageBUrl := spreadKey (imageBUrl s) (uImageBUrl updates);
     isGeneratingImage := spreadKey (isGeneratingImage s) (uIsGeneratingImage updates);
     retryAttempt := spreadKey (retryAttempt s) (uRetryAttempt updates);
     imageAFailed := spreadKey (imageAFailed s) (uImageAFailed updates);
     imageBFailed := spreadKey (imageBFailed s) (uImageBFailed updates) |}.

(** [{ ...prev, scenes: newScenes }] *)
Definition withScenes (prev : StoryboardData) (newScenes : list Scene) : StoryboardData :=
  {| consistencyBible := consistencyBible prev;
     scenes := newScenes;
     characterReferenceSheet := characterReferenceSheet prev |}.

(** [{ ...prev, characterReferenceSheet: referenceSheet }] *)
Definition withReferenceSheet (prev : StoryboardData) (referenceSheet : CharacterReferenceSheet)
  : StoryboardData :=
  {| consistencyBible := consistencyBible prev;
     scenes := scenes prev;
     characterReferenceSheet := Some referenceSheet |}.

(** The body of the updater of [updateSceneInState] on a non-null store:
    [prev.scenes.map(s => s.id === sceneId ? { ...s, ...updates } : s)]. *)
Definition patchScenes (sceneId : Z) (updates : ScenePatch) (l : list Scene) : list Scene :=
  map (fun s => if id s =? sceneId then spreadScene s updates else s) l.

(* ------------------------------------------------------------------ *)
(** ** [services/downloadService.ts] and [components/DownloadSection.tsx] *)

Module Download.

(** [scene.imageAUrl && scene.imageBUrl], as a condition. *)
Definition sceneComplete (scene : Scene) : bool :=
  truthy (imageAUrl scene) && truthy (imageBUrl scene).

(** [storyboard.scenes.every(scene => scene.imageAUrl && scene.imageBUrl)] *)
Definition areAllImagesGenerated (storyboard : StoryboardData) : bool :=
  forallb sceneComplete (scenes storyboard).

(** The number of images of a scene that are set. *)
Definition imagesOf (scene : Scene) : Z :=
  (if truthy (imageAUrl scene) then 1 else 0) + (if truthy (imageBUrl scene) then 1 else 0).

Record Count := { total : Z; generated : Z }.

Definition getGeneratedImagesCount (storyboard : StoryboardData) : Count :=
  {| total := Z.of_nat (List.length (scenes storyboard)) * 2;
     generated :=
       fold_left
         (fun count scene =>
            count + (if truthy (imageAUrl scene) then 1 else 0)
                  + (if truthy (imageBUrl scene) then 1 else 0))
         (scenes storyboard) 0 |}.

(** What a JSZip folder holds: text files and fetched image blobs. *)
Inductive Content :=
| Text (body : string)
| Blob (url : string).

Record Entry := { path : string; content : Content }.

Definition Archive := list Entry.

(** The collaborators of the archive generator that can fail. *)
Record ZipEnv := {
  folderOk : bool;              (* [zip.folder(...)] returned a folder *)
  referenceFolderOk : bool;     (* [imageFolder.folder(...)] returned a folder *)
  fetchOk : string -> bool;     (* [fetch(url)] resolves to a blob *)
  generateOk : bool             (* [zip.generateAsync] resolves *)
}.

Section Archive.

(** The four text files are rendered from templates that embed the
    current date; their bodies are left abstract. *)
Variable readmeContent : StoryboardData -> string.
Variable jsonData : StoryboardData -> string.
Variable motionPromptsContent : StoryboardData -> string.
Variable consistencyGuideContent : StoryboardData -> string.

Variable env : ZipEnv.

(** [try { blob = await urlToBlob(url); folder.file(name, blob) } catch { log }] *)
Definition addBlob (name url : string) : Archive :=
  if fetchOk env url then [ {| path := name; content := Blob url |} ] else [].

(** [if (url) { ...addBlob... }] *)
Definition addIfPresent (name : string) (url : option string) : Archive :=
  match url with
  | Some u => if truthy url then addBlob name u else []
  | None => []
  end.

Definition referenceEntries (storyboard : StoryboardData) : Archive :=
  match characterReferenceSheet storyboard with
  | Some refSheet =>
      if referenceFolderOk env then
        addIfPresent "character-references/character-front-view.png" (Some (front refSheet))
        ++ addIfPresent "character-references/character-side-view.png" (Some (side refSheet))
        ++ addIfPresent "character-references/character-back-view.png" (Some (back refSheet))
      else []
  | None => []
  end.

Definition sceneFileName (scene : Scene) (letter : string) : string :=
  ("Scene_" ++ padStart 2 "0"%char (toString (id scene)) ++ "_" ++ letter ++ ".png")%string.

(** The body of [for (const scene of storyboard.scenes)]. *)
Definition sceneEntries (scene : Scene) : Archive :=
  addIfPresent (sceneFileName scene "A") (imageAUrl scene)
  ++ addIfPresent (sceneFileName scene "B") (imageBUrl scene).

(** [downloadImagesAsZip]: the value is the archive handed to the browser
    for download. *)
Definition downloadImagesAsZip (storyboard : StoryboardData) (characterImage : option string)
  : Res Archive :=
  if negb (folderOk env) then Throw (newError "Failed to create ZIP folder")
  else
    let entries :=
      addIfPresent "character-main.png" characterImage
      ++ referenceEntries storyboard
      ++ [ {| path := "README.txt"; content := Text (readmeContent storyboard) |};
           {| path := "storyboard-data.json"; content := Text (jsonData storyboard) |};
           {| path := "motion-prompts.txt"; content := Text (motionPromptsContent storyboard) |};
           {| path := "consistency-guide.txt";
              content := Text (consistencyGuideContent storyboard) |} ]
      ++ flat_map sceneEntries (scenes storyboard) in
    if generateOk env then Ok entries
    else Throw (newError "Failed to create ZIP file").

(** The state of the [DownloadSection] component that [handleDownloadZip]
    writes (the PDF and the complete package have flags of their own). *)
Record State := {
  isDownloadingZip : bool;
  downloadError : option string
}.

(** [handleDownloadZip]: the new component state and the archive that
    was downloaded, if any. *)
Definition handleDownloadZip (storyboard : StoryboardData) (characterImage : option string)
           (st : State) : State * option Archive :=
  if negb (areAllImagesGenerated storyboard) then
    ({| isDownloadingZip := isDownloadingZip st;
        downloadError :=
          Some "Please wait for all images to be generated before downloading." |},
     None)
  else
    match downloadImagesAsZip storyboard characterImage with
    | Ok archive =>
        ({| isDownloadingZip := false; downloadError := None |}, Some archive)
    | _ =>
        ({| isDownloadingZip := false;
            downloadError := Some "Failed to create ZIP file. Please try again." |},
         None)
    end.

End Archive.

End Download.

(* ------------------------------------------------------------------ *)
(** ** The generative backend and the observable trace *)

(** One element of the [contents] array of a request. *)
Inductive ContentPart :=
| TextPart (body : string)
| InlineDataPart (mime : string) (payload : option string).

(** The argument of [ai.models.generateContent]. *)
Record GenRequest := {
  model : string;
  contents : list ContentPart;
  systemInstruction : option string;
  responseMimeType : option string;
  reqImageSize : option string;
  reqAspectRatio : option string
}.

Record InlineData := { mimeType : string; data : string }.

(** A part of a candidate; a text part has no [inlineData]. *)
Record Part := { inlineData : option InlineData }.

Record Candidate := { parts : list Part }.

Record GenResponse := {
  text : option string;
  candidates : option (list Candidate)
}.

(** The backend: what the [n]-th call of the session answers to a request,
    an error thrown by the SDK or a response. *)
Definition Backend := nat -> GenRequest -> JsError + GenResponse.

Inductive Event :=
| EvGenerate (n : nat) (req : GenRequest)          (* a call of [generateContent] *)
| EvWait (ms : Z)                                  (* [setTimeout(resolve, ms)] awaited *)
| EvPatch (sceneId : Z) (updates : ScenePatch)
          (before after : option StoryboardData)   (* [updateSceneInState] *)
| EvSetStoryboard (before after : option StoryboardData). (* any other [setStoryboard] *)

(** The React state of [App], its ref, and the ghost call counter and trace. *)
Record World := {
  storyboard : option StoryboardData;
  storyboardRef : option StoryboardData;
  isAnalyzing : bool;
  error : option string;
  characterImage : option string;
  isGeneratingCharacterSheet : bool;
  hasApiKey : bool;
  ncalls : nat;
  trace : list Event
}.

Definition initialWorld : World :=
  {| storyboard := None; storyboardRef := None; isAnalyzing := false;
     error := None; characterImage := None; isGeneratingCharacterSheet := false;
     hasApiKey := true; ncalls := O; trace := [] |}.

(** The code monad: state passing over [World] with exceptions. *)
Definition M (A : Type) : Type := World -> Res A * World.

Definition ret {A : Type} (a : A) : M A := fun w => (Ok a, w).

Definition bind {A B : Type} (m : M A) (f : A -> M B) : M B :=
  fun w =>
    match m w with
    | (Ok a, w') => f a w'
    | (Throw e, w') => (Throw e, w')
    | (OutOfFuel, w') => (OutOfFuel, w')
    end.

Notation "x <- m ;; k" := (bind m (fun x => k))
  (at level 61, m at next level, right associativity).
Notation "m ;; k" := (bind m (fun _ => k))
  (at level 61, right associativity).

(** [throw e] *)
Definition throw {A : Type} (e : JsError) : M A := fun w => (Throw e, w).

Definition outOfFuel {A : Type} : M A := fun w => (OutOfFuel, w).

(** [try { m } catch (e) { h e }] *)
Definition tryCatch {A : Type} (m : M A) (h : JsError -> M A) : M A :=
  fun w =>
    match m w with
    | (Throw e, w') => h e w'
    | r => r
    end.

(** [try { m } finally { f }] *)
Definition tryFinally {A : Type} (m : M A) (f : M unit) : M A :=
  fun w =>
    match m w with
    | (OutOfFuel, w') => (OutOfFuel, w')
    | (r, w') =>
        match f w' with
        | (Ok _, w'') => (r, w'')
        | (Throw e, w'') => (Throw e, w'')
        | (OutOfFuel, w'') => (OutOfFuel, w'')
        end
    end.

(** The outcome of a [try] block handed to the code after it. *)
Definition caught {A : Type} (m : M A) : M (JsError + A) :=
  fun w =>
    match m w with
    | (Ok a, w') => (Ok (inr a), w')
    | (Throw e, w') => (Ok (inl e), w')
    | (OutOfFuel, w') => (OutOfFuel, w')
    end.


Definition emit (ev : Event) (w : World) : World :=
  {| storyboard := storyboard w; storyboardRef := storyboardRef w;
     isAnalyzing := isAnalyzing w; error := error w;
     characterImage := characterImage w;
     isGeneratingCharacterSheet := isGeneratingCharacterSheet w;
     hasApiKey := hasApiKey w; ncalls := ncalls w;
     trace := trace w ++ [ev] |}.

Definition tick (w : World) : World :=
  {| storyboard := storyboard w; storyboardRef := storyboardRef w;
     isAnalyzing := isAnalyzing w; error := error w;
     characterImage := characterImage w;
     isGeneratingCharacterSheet := isGeneratingCharacterSheet w;
     hasApiKey := hasApiKey w; ncalls := S (ncalls w);
     trace := trace w |}.

Definition storeStoryboard (v : option StoryboardData) (w : World) : World :=
  {| storyboard := v; storyboardRef := storyboardRef w;
     isAnalyzing := isAnalyzing w; error := error w;
     characterImage := characterImage w;
     isGeneratingCharacterSheet := isGeneratingCharacterSheet w;
     hasApiKey := hasApiKey w; ncalls := ncalls w; trace := trace w |}.

Definition storeRef (v : option StoryboardData) (w : World) : World :=
  {| storyboard := storyboard w; storyboardRef := v;
     isAnalyzing := isAnalyzing w; error := error w;
     characterImage := characterImage w;
     isGeneratingCharacterSheet := isGeneratingCharacterSheet w;
     hasApiKey := hasApiKey w; ncalls := ncalls w; trace := trace w |}.

(** [await new Promise(resolve => setTimeout(resolve, ms))] *)
Definition sleep (ms : Z) : M unit := fun w => (Ok tt, emit (EvWait ms) w).

(** [setStoryboard(prev => f prev)] *)
Definition setStoryboard (f : option StoryboardData -> option StoryboardData) : M unit :=
  fun w =>
    (Ok tt, emit (EvSetStoryboard (storyboard w) (f (storyboard w)))
                 (storeStoryboard (f (storyboard w)) w)).

(** [storyboardRef.current = v] *)
Definition setStoryboardRef (v : option StoryboardData) : M unit :=
  fun w => (Ok tt, storeRef v w).

Definition setIsAnalyzing (b : bool) : M unit :=
  fun w =>
    (Ok tt,
     {| storyboard := storyboard w; storyboardRef := storyboardRef w;
        isAnalyzing := b; error := error w;
        characterImage := characterImage w;
        isGeneratingCharacterSheet := isGeneratingCharacterSheet w;
        hasApiKey := hasApiKey w; ncalls := ncalls w; trace := trace w |}).

Definition setError (msg : option string) : M unit :=
  fun w =>
    (Ok tt,
     {| storyboard := storyboard w; storyboardRef := storyboardRef w;
        isAnalyzing := isAnalyzing w; error := msg;
        characterImage := characterImage w;
        isGeneratingCharacterSheet := isGeneratingCharacterSheet w;
        hasApiKey := hasApiKey w; ncalls := ncalls w; trace := trace w |}).

Definition setCharacterImage (img : option string) : M unit :=
  fun w =>
    (Ok tt,
     {| storyboard := storyboard w; storyboardRef := storyboardRef w;
        isAnalyzing := isAnalyzing w; error := error w;
        characterImage := img;
        isGeneratingCharacterSheet := isGeneratingCharacterSheet w;
        hasApiKey := hasApiKey w; ncalls := ncalls w; trace := trace w |}).

Definition setIsGeneratingCharacterSheet (b : bool) : M unit :=
  fun w =>
    (Ok tt,
     {| storyboard := storyboard w; storyboardRef := storyboardRef w;
        isAnalyzing := isAnalyzing w; error := error w;
        characterImage := characterImage w;
        isGeneratingCharacterSheet := b;
        hasApiKey := hasApiKey w; ncalls := ncalls w; trace := trace w |}).

Definition setHasApiKey (b : bool) : M unit :=
  fun w =>
    (Ok tt,
     {| storyboard := storyboard w; storyboardRef := storyboardRef w;
        isAnalyzing := isAnalyzing w; error := error w;
        characterImage := characterImage w;
        isGeneratingCharacterSheet := isGeneratingCharacterSheet w;
        hasApiKey := b; ncalls := ncalls w; trace := trace w |}).

(* ------------------------------------------------------------------ *)
(** ** [constants.ts] *)

Definition TEXT_MODEL : string := "gemini-3-pro-preview".
Definition IMAGE_MODEL : string := "gemini-3-pro-image-preview".

Definition VISUAL_STYLE_PROMPT : string :=
  nl ++ "VISUAL STYLE (STRICT ENFORCEMENT):" ++ nl ++
  "- Style: Modern 2D Western Cartoon Style." ++ nl ++
  "- Line Work: Clean, uniform, medium-thick black outlines. Flat color, no complex shading or gradients (cell-shading only)." ++ nl ++
  "- Proportions: Exaggerated, large head-to-body ratio (youthful look), slender and dynamic limbs." ++ nl ++
  "- Facial Features: Oversized, highly expressive eyes; tiny dot/triangular nose; simple, graphic mouths." ++ nl ++
  "- Color: Bright, highly saturated, and complementary color palette." ++ nl.

(* ------------------------------------------------------------------ *)
(** ** [geminiService]: analysis client, image client, retry wrapper,
       reference sheet builder *)

Definition spaces (k : nat) : string := repeatChar " "%char k.

Definition upperChar (c : ascii) : ascii :=
  let n := nat_of_ascii c in
  if (andb (97 <=? n) (n <=? 122))%nat then ascii_of_nat (n - 32) else c.

(** [s.toUpperCase()] on ASCII text. *)
Fixpoint toUpperCase (s : string) : string :=
  match s with
  | EmptyString => EmptyString
  | String c r => String (upperChar c) (toUpperCase r)
  end.

Definition isSpace (c : ascii) : bool :=
  let n := nat_of_ascii c in
  ((n =? 32) || (n =? 9) || (n =? 10) || (n =? 11) || (n =? 12) || (n =? 13))%nat.

Fixpoint trimStart (s : string) : string :=
  match s with
  | EmptyString => EmptyString
  | String c r => if isSpace c then trimStart r else s
  end.

Fixpoint reverseOnto (s acc : string) : string :=
  match s with
  | EmptyString => acc
  | String c r => reverseOnto r (String c acc)
  end.

(** [s.trim()] *)
Definition trim (s : string) : string :=
  reverseOnto (trimStart (reverseOnto (trimStart s) EmptyString)) EmptyString.

(** [characterImage.split(',')[1]] *)
Definition base64Payload (dataUrl : string) : option string :=
  nth_error (split ","%char dataUrl) 1.

(** [`data:${part.inlineData.mimeType};base64,${part.inlineData.data}`] when
    [part.inlineData && part.inlineData.data]. *)
Definition inlineUrl (part : Part) : option string :=
  match inlineData part with
  | Some d =>
      if (data d =? "")%string then None
      else Some ("data:" ++ mimeType d ++ ";base64," ++ data d)%string
  | None => None
  end.

(** The inner loop [for (const part of candidate.content.parts)] up to its
    first inline image. *)
Fixpoint firstInline (ps : list Part) : option string :=
  match ps with
  | [] => None
  | part :: rest =>
      match inlineUrl part with
      | Some url => Some url
      | None => firstInline rest
      end
  end.

(** The two nested loops of [generateSceneImage] and [createCharacter],
    which [return] at the first inline image. *)
Fixpoint firstImage (cs : list Candidate) : option string :=
  match cs with
  | [] => None
  | candidate :: rest =>
      match firstInline (parts candidate) with
      | Some url => Some url
      | None => firstImage rest
      end
  end.

(** [response.candidates || []] *)
Definition candidatesOrEmpty (response : GenResponse) : list Candidate :=
  match candidates response with
  | Some cs => cs
  | None => []
  end.

Inductive ViewName := ViewFront | ViewSide | ViewBack.

Definition viewLabel (v : ViewName) : string :=
  match v with
  | ViewFront => "front"
  | ViewSide => "side"
  | ViewBack => "back"
  end.

(** [Object.entries(views)] *)
Definition views : list (ViewName * string) :=
  [ (ViewFront, "front view, facing forward directly at camera");
    (ViewSide, "side profile view, facing left, showing full body from the side");
    (ViewBack, "back view, facing away from camera, showing the character from behind") ].

(** [results[viewName]] *)
Definition getView (v : ViewName) (results : CharacterReferenceSheet) : string :=
  match v with
  | ViewFront => front results
  | ViewSide => side results
  | ViewBack => back results
  end.

(** [results[viewName] = url] *)
Definition setView (v : ViewName) (url : string) (results : CharacterReferenceSheet)
  : CharacterReferenceSheet :=
  match v with
  | ViewFront => {| front := url; side := side results; back := back results |}
  | ViewSide => {| front := front results; side := url; back := back results |}
  | ViewBack => {| front := front results; side := side results; back := url |}
  end.

(** The nested loops of [createCharacterReferenceSheet]: the [break] leaves
    the inner loop only, so every candidate with an inline image assigns. *)
Definition assignView (v : ViewName) (cs : list Candidate) (results : CharacterReferenceSheet)
  : CharacterReferenceSheet :=
  fold_left
    (fun res candidate =>
       match firstInline (parts candidate) with
       | Some url => setView v url res
       | None => res
       end)
    cs results.

(** How a loop body ends: it falls through to the next iteration, or it
    executes [return]. *)
Inductive Flow := Next | Return.

Section Service.

Variable backend : Backend.

(** [await ai.models.generateContent(req)] *)
Definition generateContent (req : GenRequest) : M GenResponse :=
  fun w =>
    let w' := tick (emit (EvGenerate (ncalls w) req) w) in
    match backend (ncalls w) req with
    | inl e => (Throw e, w')
    | inr response => (Ok response, w')
    end.

Definition sceneImageRequest (description consistencyContext : string) (size : ImageSize)
           (characterImage : option string) : GenRequest :=
  let fullPrompt :=
    (nl ++ spaces 6 ++ VISUAL_STYLE_PROMPT ++ nl ++ nl ++
     spaces 6 ++ "CONSISTENCY CONTEXT:" ++ nl ++
     spaces 6 ++ consistencyContext ++ nl ++ nl ++
     spaces 6 ++
     (if truthy characterImage
      then "Use the following character image as a reference for the character in the scene:"
           ++ nl ++ "[IMAGE]" ++ nl
      else "") ++ nl ++ nl ++
     spaces 6 ++ "SCENE DESCRIPTION:" ++ nl ++
     spaces 6 ++ description ++ nl ++ spaces 4)%string in
  {| model := IMAGE_MODEL;
     contents :=
       match characterImage with
       | Some img =>
           if truthy characterImage
           then [TextPart fullPrompt; InlineDataPart "image/png" (base64Payload img)]
           else [TextPart fullPrompt]
       | None => [TextPart fullPrompt]
       end;
     systemInstruction := None;
     responseMimeType := None;
     reqImageSize := Some (imageSizeName size);
     reqAspectRatio := Some "16:9" |}.

Definition generateSceneImage (description consistencyContext : string) (size : ImageSize)
           (characterImage : option string) : M string :=
  response <- generateContent
                (sceneImageRequest description consistencyContext size characterImage) ;;
  match firstImage (candidatesOrEmpty response) with
  | Some url => ret url
  | None => throw (newError "No image generated.")
  end.

(** [Math.min(1000 * Math.pow(2, attempt - 1), 5000)] *)
Definition waitTime (attempt : Z) : Z := Z.min (1000 * 2 ^ (attempt - 1)) 5000.

(** The [for (let attempt = 1; attempt <= maxRetries; attempt++)] loop of
    [generateSceneImageWithRetry] and the [throw] after it.  [remaining]
    is [maxRetries - attempt + 1], the number of iterations left.  In
    [throw lastError || new Error(...)] a caught error object is truthy, so
    the fresh error is thrown only when no attempt was made. *)
Fixpoint retryLoop (remaining : nat) (attempt : Z) (maxRetries : nat)
         (lastError : option JsError)
         (description consistencyContext : string) (size : ImageSize)
         (characterImage : option string) {struct remaining} : M string :=
  match remaining with
  | O =>
      throw (match lastError with
             | Some e => e
             | None => newError "Scene image generation failed after all retries"
             end)
  | S remaining' =>
      r <- caught (generateSceneImage description consistencyContext size characterImage) ;;
      match r with
      | inr result => ret result
      | inl error =>
          (if attempt <? Z.of_nat maxRetries then sleep (waitTime attempt) else ret tt) ;;
          retryLoop remaining' (attempt + 1) maxRetries (Some error)
                    description consistencyContext size characterImage
      end
  end.

Definition generateSceneImageWithRetry (description consistencyContext : string)
           (size : ImageSize) (characterImage : option string) (maxRetries : nat)
  : M string :=
  retryLoop maxRetries 1 maxRetries None description consistencyContext size characterImage.

Definition createCharacter (description : string) : M string :=
  let fullPrompt :=
    (nl ++ spaces 6 ++
     "Create a character in a cartoon style with the following description on a plain white background."
     ++ nl ++ spaces 6 ++ "This character should be consistently drawn." ++ nl ++
     spaces 6 ++ "Description: " ++ description ++ nl ++ spaces 4)%string in
  response <- generateContent
                {| model := IMAGE_MODEL;
                   contents := [TextPart fullPrompt];
                   systemInstruction := None;
                   responseMimeType := None;
                   reqImageSize := Some "1K";
                   reqAspectRatio := Some "1:1" |} ;;
  match firstImage (candidatesOrEmpty response) with
  | Some url => ret url
  | None => throw (newError "No character image generated.")
  end.

Definition referenceViewRequest (description originalCharacterImage viewDescription : string)
  : GenRequest :=
  let fullPrompt :=
    (nl ++ spaces 8 ++ VISUAL_STYLE_PROMPT ++ nl ++ nl ++
     spaces 8 ++ "Using the provided character image as a reference, create a character reference sheet showing the SAME character in "
     ++ viewDescription ++ "." ++ nl ++
     spaces 8 ++ nl ++
     spaces 8 ++ "CRITICAL: Maintain EXACT same character appearance:" ++ nl ++
     spaces 8 ++ "- Same clothing, colors, and style" ++ nl ++
     spaces 8 ++ "- Same proportions and features" ++ nl ++
     spaces 8 ++ "- Same cartoon art style" ++ nl ++
     spaces 8 ++ "- Plain white background" ++ nl ++
     spaces 8 ++ "- Full character from head to toe" ++ nl ++
     spaces 8 ++ nl ++
     spaces 8 ++ "Character Description: " ++ description ++ nl ++
     spaces 8 ++ "View: " ++ toUpperCase viewDescription ++ nl ++
     spaces 8 ++ nl ++
     spaces 8 ++ "The character in this new view must be identically recognizable as the same character in the reference image."
     ++ nl ++ spaces 6)%string in
  {| model := IMAGE_MODEL;
     contents := [TextPart fullPrompt;
                  InlineDataPart "image/png" (base64Payload originalCharacterImage)];
     systemInstruction := None;
     responseMimeType := None;
     reqImageSize := Some "1K";
     reqAspectRatio := Some "1:1" |}.

(** The [while (retryCount < maxRetries)] loop of one view, with
    [maxRetries = 3].  The source loop has no bound of its own besides
    [retryCount], so the model takes a budget of iterations [fuel]. *)
Fixpoint viewLoop (fuel : nat) (retryCount : Z) (req : GenRequest) (viewName : ViewName)
         (results : CharacterReferenceSheet) {struct fuel} : M CharacterReferenceSheet :=
  if retryCount <? 3 then
    match fuel with
    | O => outOfFuel
    | S fuel' =>
        r <- caught (response <- generateContent req ;;
                     ret (assignView viewName (candidatesOrEmpty response) results)) ;;
        match r with
        | inr results' =>
            if truthy (Some (getView viewName results'))
            then ret results'  (* Success, exit retry loop *)
            else viewLoop fuel' retryCount req viewName results'
        | inl error =>
            let retryCount' := retryCount + 1 in
            (if retryCount' <? 3 then sleep (1000 * retryCount') else ret tt) ;;
            viewLoop fuel' retryCount' req viewName results
        end
    end
  else ret results.

(** [for (const [viewName, viewDescription] of Object.entries(views))] *)
Fixpoint forViews (fuel : nat) (description originalCharacterImage : string)
         (vs : list (ViewName * string)) (results : CharacterReferenceSheet)
  : M CharacterReferenceSheet :=
  match vs with
  | [] => ret results
  | (viewName, viewDescription) :: rest =>
      results' <- viewLoop fuel 0
                    (referenceViewRequest description originalCharacterImage viewDescription)
                    viewName results ;;
      forViews fuel description originalCharacterImage rest results'
  end.

(** [createCharacterReferenceSheet(description, originalCharacterImage)],
    the two argument version that [App.tsx] calls. *)
Definition createCharacterReferenceSheet (fuel : nat)
           (description originalCharacterImage : string) : M CharacterReferenceSheet :=
  forViews fuel description originalCharacterImage views
           {| front := ""; side := ""; back := "" |}.

Section Analysis.

(** The value type of [JSON.parse]: the sources cast it to
    [StoryboardData] without inspecting it. *)
Variable J : Type.
Variable JSON_parse : string -> option J.
Variable SYSTEM_INSTRUCTION : string.

Definition analysisRequest (script : string) : GenRequest :=
  {| model := TEXT_MODEL;
     contents :=
       [TextPart ("Analyze this script and generate a storyboard:"
                  ++ nl ++ nl ++ script)%string];
     systemInstruction := Some SYSTEM_INSTRUCTION;
     responseMimeType := Some "application/json";
     reqImageSize := None;
     reqAspectRatio := None |}.

Definition generateStoryboardAnalysis (script : string) : M J :=
  response <- generateContent (analysisRequest script) ;;
  match text response with
  | Some payload =>
      if truthy (text response) then
        match JSON_parse payload with
        | Some parsed => ret parsed
        | None => throw (newError "Failed to parse storyboard data.")
        end
      else throw (newError "No response from Gemini.")
  | None => throw (newError "No response from Gemini.")
  end.

End Analysis.

End Service.

(** The reference sheet builder of [services/geminiService.ts], which takes
    the description only and has no retry loop: one call per view, a view
    whose call throws is left empty. *)
Module Legacy.

Definition referenceViewRequest (description viewDescription : string) : GenRequest :=
  let fullPrompt :=
    (nl ++ spaces 8 ++ VISUAL_STYLE_PROMPT ++ nl ++ nl ++
     spaces 8 ++ "Create a character reference sheet showing the character in "
     ++ viewDescription ++ "." ++ nl ++
     spaces 8 ++ "Character should be drawn in a clean, consistent cartoon style on a plain white background."
     ++ nl ++
     spaces 8 ++ "Show the full character from head to toe." ++ nl ++
     spaces 8 ++ nl ++
     spaces 8 ++ "Character Description: " ++ description ++ nl ++
     spaces 8 ++ nl ++
     spaces 8 ++ "View: " ++ toUpperCase viewDescription ++ nl ++
     spaces 8 ++ nl ++
     spaces 8 ++ "Ensure consistent proportions, clothing, colors, and features as described."
     ++ nl ++ spaces 6)%string in
  {| model := IMAGE_MODEL;
     contents := [TextPart fullPrompt];
     systemInstruction := None;
     responseMimeType := None;
     reqImageSize := Some "1K";
     reqAspectRatio := Some "1:1" |}.

Fixpoint forViews (backend : Backend) (description : string)
         (vs : list (ViewName * string)) (results : CharacterReferenceSheet)
  : M CharacterReferenceSheet :=
  match vs with
  | [] => ret results
  | (viewName, viewDescription) :: rest =>
      results' <- tryCatch
                    (response <- generateContent backend
                                   (referenceViewRequest description viewDescription) ;;
                     ret (assignView viewName (candidatesOrEmpty response) results))
                    (fun error => ret (setView viewName "" results)) ;;
      forViews backend description rest results'
  end.

Definition createCharacterReferenceSheet (backend : Backend) (description : string)
  : M CharacterReferenceSheet :=
  forViews backend description views {| front := ""; side := ""; back := "" |}.

End Legacy.

(* ------------------------------------------------------------------ *)
(** ** [App.tsx]: the store and the scene image pipeline *)

(** [updateSceneInState]: the updater returns [null] on an empty store and
    otherwise installs the patched copy both as the state and as
    [storyboardRef.current]. *)
Definition updateSceneInState (sceneId : Z) (updates : ScenePatch) : M unit :=
  fun w =>
    match storyboard w with
    | None =>
        (Ok tt, emit (EvPatch sceneId updates None None) (storeStoryboard None w))
    | Some prev =>
        let newScenes := patchScenes sceneId updates (scenes prev) in
        let newState := withScenes prev newScenes in
        (Ok tt, emit (EvPatch sceneId updates (Some prev) (Some newState))
                     (storeStoryboard (Some newState) (storeRef (Some newState) w)))
    end.

(** [err?.message || JSON.stringify(err)] *)
Definition errorText (err : JsError) : string :=
  if (message err =? "")%string then json err else message err.

(** The test both [catch] blocks of [App.tsx] apply to the error text. *)
Definition isAuthorizationError (errMsg : string) : bool :=
  includes errMsg "403" || includes errMsg "PERMISSION_DENIED"
  || includes errMsg "Requested entity was not found".

(** [consistencyContext] of [processImagesQueue]. *)
Definition consistencyContextOf (data : StoryboardData) : string :=
  ("Character: " ++ characterVisuals (consistencyBible data) ++ nl ++
   "Environment: " ++ environmentVisuals (consistencyBible data))%string.

(** [for (const scene of l) { body }] where the body may [return]. *)
Fixpoint forScenes (body : Scene -> M Flow) (l : list Scene) : M Flow :=
  match l with
  | [] => ret Next
  | scene :: rest =>
      flow <- body scene ;;
      match flow with
      | Return => ret Return
      | Next => forScenes body rest
      end
  end.

Section App.

Variable backend : Backend.

(** The body of the first pass loop of [processImagesQueue]. *)
Definition firstPassScene (consistencyContext : string) (size : ImageSize)
           (charImage : option string) (scene : Scene) : M Flow :=
  updateSceneInState (id scene) (patchGenerating true) ;;
  tryFinally
    (tryCatch
       ((* Generate Image A with retry mechanism *)
        updateSceneInState (id scene) (patchRetryAttempt 1) ;;
        imageA <- tryCatch
                    (img <- generateSceneImageWithRetry backend (imageADescription scene)
                              consistencyContext size charImage 3 ;;
                     updateSceneInState (id scene) (patchImageA img) ;;
                     ret (Some img))
                    (fun imgError =>
                       updateSceneInState (id scene) patchImageAFailed ;;
                       ret None) ;;
        (* Generate Image B with retry mechanism *)
        updateSceneInState (id scene) (patchRetryAttempt 2) ;;
        imageB <- tryCatch
                    (img <- generateSceneImageWithRetry backend (imageBDescription scene)
                              consistencyContext size charImage 3 ;;
                     updateSceneInState (id scene) (patchImageB img) ;;
                     ret (Some img))
                    (fun imgError =>
                       updateSceneInState (id scene) patchImageBFailed ;;
                       ret None) ;;
        (* if (!imageA && !imageB) only logs *)
        ret Next)
       (fun err =>
          let errMsg := errorText err in
          if isAuthorizationError errMsg then
            setError (Some "Permission denied. You must select a valid API Key from a paid project to use these features.") ;;
            setHasApiKey false ;;
            updateSceneInState (id scene) (patchGenerating false) ;;
            ret Return (* Stop the queue *)
          else ret Next))
    (updateSceneInState (id scene) (patchGenerating false)).

(** [!scene.imageAUrl || !scene.imageBUrl] *)
Definition missingImage (scene : Scene) : bool :=
  negb (truthy (imageAUrl scene)) || negb (truthy (imageBUrl scene)).

(** The body of the loop of [retryMissingImages]; [scene] is an element
    of the snapshot read from the ref. *)
Definition repairScene (consistencyContext : string) (size : ImageSize)
           (charImage : option string) (scene : Scene) : M Flow :=
  updateSceneInState (id scene) (patchGenerating true) ;;
  tryFinally
    ((* Retry missing Image A *)
     (if negb (truthy (imageAUrl scene)) then
        updateSceneInState (id scene) (patchRetryAttempt 3) ;;
        tryCatch
          (imageA <- generateSceneImageWithRetry backend (imageADescription scene)
                       consistencyContext size charImage 2 ;;
           updateSceneInState (id scene) (patchImageA imageA))
          (fun error => updateSceneInState (id scene) patchImageAFailed)
      else ret tt) ;;
     (* Retry missing Image B *)
     (if negb (truthy (imageBUrl scene)) then
        updateSceneInState (id scene) (patchRetryAttempt 4) ;;
        tryCatch
          (imageB <- generateSceneImageWithRetry backend (imageBDescription scene)
                       consistencyContext size charImage 2 ;;
           updateSceneInState (id scene) (patchImageB imageB))
          (fun error => updateSceneInState (id scene) patchImageBFailed)
      else ret tt) ;;
     ret Next)
    (updateSceneInState (id scene) (patchGenerating false)).

Definition retryMissingImages (data : StoryboardData) (size : ImageSize)
           (charImage : option string) (consistencyContext : string) : M unit :=
  fun w =>
    match storyboardRef w with
    | None => (Ok tt, w)
    | Some currentStoryboard =>
        let scenesWithMissingImages := filter missingImage (scenes currentStoryboard) in
        match scenesWithMissingImages with
        | [] => (Ok tt, w)
        | _ =>
            (forScenes (repairScene consistencyContext size charImage)
                       scenesWithMissingImages ;;
             ret tt) w
        end
    end.

Definition processImagesQueue (data : StoryboardData) (size : ImageSize)
           (charImage : option string) : M unit :=
  let consistencyContext := consistencyContextOf data in
  flow <- forScenes (firstPassScene consistencyContext size charImage) (scenes data) ;;
  match flow with
  | Return => ret tt
  | Next =>
      (* After all scenes, check for any missing images and retry them once more *)
      retryMissingImages data size charImage consistencyContext
  end.

Variable JSON_parse : string -> option StoryboardData.
Variable SYSTEM_INSTRUCTION : string.

(** [setStoryboard(prev => prev ? { ...prev, characterReferenceSheet: referenceSheet } : null)],
    the statement of [handleGenerate] that attaches the reference sheet. *)
Definition attachReferenceSheet (referenceSheet : CharacterReferenceSheet) : M unit :=
  setStoryboard (fun prev =>
                   match prev with
                   | Some p => Some (withReferenceSheet p referenceSheet)
                   | None => None
                   end).

(** The part of [handleGenerate] that runs until its promise settles.  The
    value is the argument list of the [processImagesQueue] call it leaves
    running, if it got that far. *)
Definition handleGenerateForeground (fuel : nat) (script : string) (imageSize : ImageSize)
  : M (option (StoryboardData * ImageSize * string)) :=
  setIsAnalyzing true ;;
  setError None ;;
  setStoryboard (fun _ => None) ;;
  setStoryboardRef None ;;
  setCharacterImage None ;;
  tryFinally
    (tryCatch
       (data <- generateStoryboardAnalysis backend JSON_parse SYSTEM_INSTRUCTION script ;;
        setStoryboard (fun _ => Some data) ;;
        setStoryboardRef (Some data) ;;
        (* Create character from bible *)
        charImage <- createCharacter backend (characterVisuals (consistencyBible data)) ;;
        setCharacterImage (Some charImage) ;;
        (* Generate character reference sheet in background *)
        setIsGeneratingCharacterSheet true ;;
        tryFinally
          (tryCatch
             (referenceSheet <- createCharacterReferenceSheet backend fuel
                                  (characterVisuals (consistencyBible data)) charImage ;;
              attachReferenceSheet referenceSheet)
             (fun error => ret tt))
          (setIsGeneratingCharacterSheet false) ;;
        ret (Some (data, imageSize, charImage)))
       (fun err =>
          let errMsg := errorText err in
          (if isAuthorizationError errMsg then
             setError (Some "Permission denied. Please select a valid API Key.") ;;
             setHasApiKey false
           else
             setError (Some (if (errMsg =? "")%string
                             then "An unexpected error occurred." else errMsg))) ;;
          ret None))
    (setIsAnalyzing false).


End App.

(* ------------------------------------------------------------------ *)
(** ** Vocabulary of the statements *)

(** A scene as the repair pass leaves it when it is done with it: both
    images are set, or a failure flag says which one is not. *)
Definition settled (scene : Scene) : bool :=
  (truthy (imageAUrl scene) && truthy (imageBUrl scene))
  || flag (imageAFailed scene) || flag (imageBFailed scene).

(** An image has been attempted: it is set or its failure flag is raised. *)
Definition attemptedA (scene : Scene) : bool :=
  truthy (imageAUrl scene) || flag (imageAFailed scene).

Definition attemptedB (scene : Scene) : bool :=
  truthy (imageBUrl scene) || flag (imageBFailed scene).

Definition generating (scene : Scene) : bool := flag (isGeneratingImage scene).

(** The number of scenes of a store value that show the spinner. *)
Definition generatingCount (o : option StoryboardData) : nat :=
  match o with
  | Some sb => List.length (filter generating (scenes sb))
  | None => O
  end.



(** An image that is set in [s] is the same in [s']. *)
Definition keepsImages (s s' : Scene) : Prop :=
  id s' = id s
  /\ (truthy (imageAUrl s) = true -> imageAUrl s' = imageAUrl s)
  /\ (truthy (imageBUrl s) = true -> imageBUrl s' = imageBUrl s).

(** A store update that neither clears nor replaces an image that is set. *)
Definition preservesImages (ev : Event) : Prop :=
  match ev with
  | EvPatch _ _ (Some before) (Some after)
  | EvSetStoryboard (Some before) (Some after) =>
      Forall2 keepsImages (scenes before) (scenes after)
  | EvPatch _ _ (Some _) None
  | EvSetStoryboard (Some _) None => False
  | _ => True
  end.

(** The per scene state machine of the pipeline, as a monitor of the trace. *)
Inductive Phase :=
| Idle
| Flagged (sceneId : Z)
| GeneratingA (sceneId : Z)
| DoneA (sceneId : Z)
| GeneratingB (sceneId : Z)
| DoneB (sceneId : Z).

Inductive PatchKind := SetFlag | ClearFlag | BeginA | BeginB | EndA | EndB | OtherPatch.

Definition isSome {A : Type} (o : option A) : bool :=
  match o with
  | Some _ => true
  | None => false
  end.

Definition patchKind (u : ScenePatch) : PatchKind :=
  match uIsGeneratingImage u with
  | Some true => SetFlag
  | Some false => ClearFlag
  | None =>
      match uRetryAttempt u with
      | Some n =>
          if (n =? 1) || (n =? 3) then BeginA
          else if (n =? 2) || (n =? 4) then BeginB
          else OtherPatch
      | None =>
          if isSome (uImageAUrl u) || isSome (uImageAFailed u) then EndA
          else if isSome (uImageBUrl u) || isSome (uImageBFailed u) then EndB
          else OtherPatch
      end
  end.

(** One transition of the monitor; [None] rejects the trace.  The backend
    is only called and waited for while an image of the flagged scene is
    being generated; image B begins only when image A is not in progress;
    the flag is cleared before another one is set. *)
Definition step (p : Phase) (ev : Event) : option Phase :=
  match ev with
  | EvGenerate _ _ | EvWait _ =>
      match p with
      | GeneratingA i => Some (GeneratingA i)
      | GeneratingB i => Some (GeneratingB i)
      | _ => None
      end
  | EvSetStoryboard _ _ => None
  | EvPatch i u _ _ =>
      match patchKind u, p with
      | SetFlag, Idle => Some (Flagged i)
      | BeginA, Flagged j => if i =? j then Some (GeneratingA i) else None
      | EndA, GeneratingA j => if i =? j then Some (DoneA i) else None
      | BeginB, Flagged j => if i =? j then Some (GeneratingB i) else None
      | BeginB, DoneA j => if i =? j then Some (GeneratingB i) else None
      | EndB, GeneratingB j => if i =? j then Some (DoneB i) else None
      | ClearFlag, Flagged j => if i =? j then Some Idle else None
      | ClearFlag, DoneA j => if i =? j then Some Idle else None
      | ClearFlag, DoneB j => if i =? j then Some Idle else None
      | _, _ => None
      end
  end.


(** The outcome of the [n]-th backend call when it is a call of
    [generateSceneImage] with request [req]. *)
Definition attemptResult (backend : Backend) (req : GenRequest) (n : nat) : JsError + string :=
  match backend n req with
  | inl e => inl e
  | inr response =>
      match firstImage (candidatesOrEmpty response) with
      | Some url => inr url
      | None => inl (newError "No image generated.")
      end
  end.

Definition isGenerate (ev : Event) : bool :=
  match ev with
  | EvGenerate _ _ => true
  | _ => false
  end.

(** JSON values, to speak of the shape the analysis contract asks for. *)
Inductive JsValue :=
| JNull
| JBool (b : bool)
| JNumber (n : Z)
| JString (s : string)
| JArray (items : list JsValue)
| JObject (fields : list (string * JsValue)).

Fixpoint lookupField (k : string) (fs : list (string * JsValue)) : option JsValue :=
  match fs with
  | [] => None
  | (k', v) :: rest => if (k' =? k)%string then Some v else lookupField k rest
  end.

Definition field (k : string) (v : JsValue) : option JsValue :=
  match v with
  | JObject fs => lookupField k fs
  | _ => None
  end.

Definition hasStringFields (keys : list string) (v : JsValue) : bool :=
  forallb (fun k => match field k v with
                    | Some (JString _) => true
                    | _ => false
                    end) keys.

Definition sceneShape (v : JsValue) : bool :=
  match field "id" v with
  | Some (JNumber _) =>
      hasStringFields ["title"; "context"; "imageADescription"; "imageBDescription";
                       "motionPrompt"; "characterDirection"; "characterExpression";
                       "characterPose"]%string v
  | _ => false
  end.

(** The [responseSchema] of the analysis request, as a test on a value. *)
Definition conformsToStoryboardData (v : JsValue) : bool :=
  match field "consistencyBible" v, field "scenes" v with
  | Some bible, Some (JArray items) =>
      hasStringFields ["characterVisuals"; "environmentVisuals"]%string bible
      && forallb sceneShape items
  | _, _ => false
  end.

(** Every scene gets the failure flags [fa] and [fb]. *)
Definition withFailureFlags (fa fb : option bool) (sb : StoryboardData) : StoryboardData :=
  withScenes sb
    (map (fun s =>
            {| id := id s; title := title s; sceneContext := sceneContext s;
               imageADescription := imageADescription s;
               imageBDescription := imageBDescription s;
               motionPrompt := motionPrompt s;
               characterDirection := characterDirection s;
               characterExpression := characterExpression s;
               characterPose := characterPose s;
               imageAUrl := imageAUrl s; imageBUrl := imageBUrl s;
               isGeneratingImage := isGeneratingImage s;
               retryAttempt := retryAttempt s;
               imageAFailed := fa; imageBFailed := fb |})
         (scenes sb)).

(** A scene with an image missing. *)
Definition sceneIncomplete (scene : Scene) : Prop :=
  truthy (imageAUrl scene) = false \/ truthy (imageBUrl scene) = false.

(* ------------------------------------------------------------------ *)
(** ** Sample inputs *)

Definition sampleScene (n : Z) : Scene :=
  {| id := n;
     title := "The clearing";
     sceneContext := "A fox walks into a clearing and sits down.";
     imageADescription := ("start frame of scene " ++ toString n)%string;
     imageBDescription := ("end frame of scene " ++ toString n)%string;
     motionPrompt := "The fox walks in from the left and sits.";
     characterDirection := "right";
     characterExpression := "calm";
     characterPose := "walking";
     imageAUrl := None; imageBUrl := None;
     isGeneratingImage := None; retryAttempt := None;
     imageAFailed := None; imageBFailed := None |}.

Definition samplePlan : StoryboardData :=
  {| consistencyBible :=
       {| characterVisuals := "a small red fox"; environmentVisuals := "a forest clearing" |};
     scenes := [sampleScene 1; sampleScene 2];
     characterReferenceSheet := None |}.

(** The first scene has its start frame only. *)
Definition partialStoryboard : StoryboardData :=
  withScenes samplePlan
    [spreadScene (sampleScene 1) (patchImageA "data:image/png;base64,AAAA")].

(** The state in which [handleGenerate] starts the pipeline on [sb]. *)
Definition startWorld (sb : StoryboardData) : World :=
  storeRef (Some sb) (storeStoryboard (Some sb) initialWorld).

Definition imageResponse : GenResponse :=
  {| text := None;
     candidates :=
       Some [ {| parts := [ {| inlineData := Some {| mimeType := "image/png";
                                                     data := "AAAA" |} |} ] |} ] |}.

(** A response without any inline image. *)
Definition emptyResponse : GenResponse := {| text := None; candidates := None |}.

(** The backend refuses every call for lack of entitlement. *)
Definition backendForbidden : Backend :=
  fun _ _ => inl (newError "got status: 403 Forbidden. PERMISSION_DENIED").

(** The backend answers every call, never with an image. *)
Definition backendNoImage : Backend := fun _ _ => inr emptyResponse.


(** The first call (the analysis) answers the text [payload]; every later
    call answers with an image. *)
Definition backendSession (payload : string) : Backend :=
  fun n _ =>
    match n with
    | O => inr {| text := Some payload; candidates := None |}
    | S _ => inr imageResponse
    end.

(** [JSON.parse] on the one payload of the sample session. *)
Definition parsePlan (payload : string) : option StoryboardData :=
  if (payload =? "PLAN")%string then Some samplePlan else None.

(** [JSON.parse] on the text of the empty object; other texts are not used. *)
Definition parseEmptyObject (payload : string) : option JsValue :=
  if (payload =? "{}")%string then Some (JObject []) else None.

Definition allOk : Download.ZipEnv :=
  {| Download.folderOk := true; Download.referenceFolderOk := true;
     Download.fetchOk := fun _ => true; Download.generateOk := true |}.

(* ------------------------------------------------------------------ *)
(** ** What a run of a loop body does to the world, as a script *)

(** Backend activity: [k] more calls and the events [evs], nothing else. *)
Definition advance (evs : list Event) (k : nat) (w : World) : World :=
  {| storyboard := storyboard w; storyboardRef := storyboardRef w;
     isAnalyzing := isAnalyzing w; error := error w;
     characterImage := characterImage w;
     isGeneratingCharacterSheet := isGeneratingCharacterSheet w;
     hasApiKey := hasApiKey w; ncalls := (ncalls w + k)%nat;
     trace := trace w ++ evs |}.

Definition isIO (ev : Event) : Prop :=
  match ev with
  | EvGenerate _ _ | EvWait _ => True
  | _ => False
  end.

(** The world [updateSceneInState] leaves. *)
Definition patched (sceneId : Z) (updates : ScenePatch) (w : World) : World :=
  snd (updateSceneInState sceneId updates w).

Inductive Action :=
| ActPatch (sceneId : Z) (updates : ScenePatch)
| ActIO (evs : list Event) (k : nat).

Definition act (w : World) (a : Action) : World :=
  match a with
  | ActPatch sceneId updates => patched sceneId updates w
  | ActIO evs k => advance evs k w
  end.

Definition exec (script : list Action) (w : World) : World := fold_left act script w.

(** One use of the retry wrapper by the pipeline: the phase number written
    to [retryAttempt], the backend activity, and the image or its absence. *)
Record Attempt := {
  tag : Z;
  activity : list Event;
  calls : nat;
  outcome : option string
}.

Definition goodAttempt (a : Attempt) : Prop :=
  Forall isIO (activity a)
  /\ forall url, outcome a = Some url -> truthy (Some url) = true.

Definition resultA (r : option string) : ScenePatch :=
  match r with
  | Some url => patchImageA url
  | None => patchImageAFailed
  end.

Definition resultB (r : option string) : ScenePatch :=
  match r with
  | Some url => patchImageB url
  | None => patchImageBFailed
  end.

Definition segment (sceneId : Z) (result : option string -> ScenePatch) (a : option Attempt)
  : list Action :=
  match a with
  | Some at_ =>
      [ ActPatch sceneId (patchRetryAttempt (tag at_));
        ActIO (activity at_) (calls at_);
        ActPatch sceneId (result (outcome at_)) ]
  | None => []
  end.

(** What one iteration of either pass does for the scene [sceneId]. *)
Definition sceneScript (sceneId : Z) (a b : option Attempt) : list Action :=
  [ActPatch sceneId (patchGenerating true)]
  ++ segment sceneId resultA a
  ++ segment sceneId resultB b
  ++ [ActPatch sceneId (patchGenerating false)].

(** The event is a backend call whose prompt text contains [description]. *)
Definition mentions (description : string) (ev : Event) : bool :=
  match ev with
  | EvGenerate _ req =>
      match contents req with
      | TextPart prompt :: _ => includes prompt description
      | _ => false
      end
  | _ => false
  end.

(** The request for the front view of the reference sheet. *)
Definition frontViewRequest (description originalCharacterImage : string) : GenRequest :=
  referenceViewRequest description originalCharacterImage
                       "front view, facing forward directly at camera".

(* ------------------------------------------------------------------ *)
(** ** Scripts replayed on a store value *)

(** The store after one [updateSceneInState] on a non empty store. *)
Definition stepStore (sceneId : Z) (updates : ScenePatch) (sb : StoryboardData)
  : StoryboardData :=
  withScenes sb (patchScenes sceneId updates (scenes sb)).

(** The events a script appends to the trace and the store it leaves, when
    it starts on the store [sb]. *)
Fixpoint play (sb : StoryboardData) (script : list Action) : list Event * StoryboardData :=
  match script with
  | [] => ([], sb)
  | ActIO evs _ :: rest =>
      let (es, sb') := play sb rest in (evs ++ es, sb')
  | ActPatch i u :: rest =>
      let (es, sb') := play (stepStore i u sb) rest in
      (EvPatch i u (Some sb) (Some (stepStore i u sb)) :: es, sb')
  end.

(** The action concerns the scene [i] only. *)
Definition targets (i : Z) (a : Action) : Prop :=
  match a with
  | ActPatch j _ => j = i
  | ActIO evs _ => Forall isIO evs
  end.

Definition ids (l : list Scene) : list Z := map id l.


Definition quiet (l : list Scene) : Prop :=
  forall s, In s l -> generating s = false.

(** The scenes numbered [i] have no start frame (no end frame) yet. *)
Definition freshA (i : Z) (l : list Scene) : Prop :=
  forall s, In s l -> id s = i -> truthy (imageAUrl s) = false.

Definition freshB (i : Z) (l : list Scene) : Prop :=
  forall s, In s l -> id s = i -> truthy (imageBUrl s) = false.

(** A patch that cannot take an image attempt back: an image it sets is a
    non empty string and it never lowers a failure flag on its own. *)
Definition benign (u : ScenePatch) : Prop :=
  match uImageAUrl u with
  | Some url => truthy (Some url) = true
  | None => uImageAFailed u <> Some false
  end
  /\ match uImageBUrl u with
     | Some url => truthy (Some url) = true
     | None => uImageBFailed u <> Some false
     end.

Definition benignAction (a : Action) : Prop :=
  match a with
  | ActPatch _ u => benign u
  | ActIO evs _ => Forall isIO evs
  end.

(** The scripts of the two passes for one scene. *)
Definition firstPassItem (scene : Scene) (script : list Action) : Prop :=
  exists a b,
    goodAttempt a /\ goodAttempt b /\ tag a = 1 /\ tag b = 2
    /\ script = sceneScript (id scene) (Some a) (Some b).

Definition repairItem (scene : Scene) (script : list Action) : Prop :=
  exists a b,
    goodAttempt a /\ goodAttempt b /\ tag a = 3 /\ tag b = 4
    /\ script = sceneScript (id scene)
                            (if truthy (imageAUrl scene) then None else Some a)
                            (if truthy (imageBUrl scene) then None else Some b).

(** The state in which the pipeline is started on the plan [data]: the
    store and the ref hold its scenes. *)
Definition started (data : StoryboardData) (w : World) : Prop :=
  exists sb rb,
    storyboard w = Some sb /\ storyboardRef w = Some rb
    /\ scenes sb = scenes data /\ scenes rb = scenes data.

(** The events a run appended to the trace. *)
Definition newEvents (w w' : World) : list Event :=
  skipn (List.length (trace w)) (trace w').

(** The script of either pass for one scene: image A is attempted when
    [needA] says so, image B when [needB] says so. *)
Definition sceneItem (needA needB : Scene -> bool) (scene : Scene) (script : list Action)
  : Prop :=
  exists a b,
    goodAttempt a /\ goodAttempt b
    /\ (tag a = 1 \/ tag a = 3) /\ (tag b = 2 \/ tag b = 4)
    /\ script = sceneScript (id scene)
                            (if needA scene then Some a else None)
                            (if needB scene then Some b else None).

Definition always (scene : Scene) : bool := true.
Definition lacksA (scene : Scene) : bool := negb (truthy (imageAUrl scene)).
Definition lacksB (scene : Scene) : bool := negb (truthy (imageBUrl scene)).


(** The scenes selected by [P] pass the test [att]. *)
Definition holdsOn (att : Scene -> bool) (P : Z -> Prop) (l : list Scene) : Prop :=
  forall s, In s l -> P (id s) -> att s = true.



(** The first seven calls of the session fail, the later ones answer an image. *)
Definition backendFlaky : Backend :=
  fun n _ =>
    if (n <? 7)%nat then inl (newError "got status: 503 UNAVAILABLE")
    else inr imageResponse.

(* ------------------------------------------------------------------ *)
(** ** Vocabulary for the services *)

(** The events of [j] failed attempts of the retry wrapper in a row, the
    first of them numbered [attempt] and made as call [n] of the session: a
    pause follows each attempt but the last one of the budget. *)
Fixpoint failedEvents (req : GenRequest) (maxRetries : nat) (n : nat) (attempt : Z) (j : nat)
  : list Event :=
  match j with
  | O => []
  | S j' =>
      EvGenerate n req
      :: (if attempt <? Z.of_nat maxRetries then [EvWait (waitTime attempt)] else [])
      ++ failedEvents req maxRetries (S n) (attempt + 1) j'
  end.

(** For each candidate of a response that carries one, its first inline
    image, in the order of the candidates. *)
Definition candidateImages (cs : list Candidate) : list string :=
  flat_map (fun candidate =>
              match firstInline (parts candidate) with
              | Some url => [url]
              | None => []
              end) cs.

(** Every call the backend answers without throwing carries an image. *)
Definition answersWithImage (backend : Backend) : Prop :=
  forall n req response,
    backend n req = inr response -> candidateImages (candidatesOrEmpty response) <> [].


(** The request of [createCharacter]. *)
Definition characterRequest (description : string) : GenRequest :=
  {| model := IMAGE_MODEL;
     contents :=
       [TextPart
          (nl ++ spaces 6 ++
           "Create a character in a cartoon style with the following description on a plain white background."
           ++ nl ++ spaces 6 ++ "This character should be consistently drawn." ++ nl ++
           spaces 6 ++ "Description: " ++ description ++ nl ++ spaces 4)%string];
     systemInstruction := None;
     responseMimeType := None;
     reqImageSize := Some "1K";
     reqAspectRatio := Some "1:1" |}.

(** A pause of the reference sheet builder: one or two seconds. *)
Definition linearPause (ev : Event) : Prop :=
  match ev with
  | EvWait ms => ms = 1000 \/ ms = 2000
  | _ => True
  end.

(* ------------------------------------------------------------------ *)
(** ** Vocabulary for the quantitative properties of the pipeline *)

(** The script of either pass for one scene, with what is known of each
    use of the retry wrapper given by [Q]. *)
Definition itemQ (Q : Attempt -> Prop) (needA needB : Scene -> bool)
           (scene : Scene) (script : list Action) : Prop :=
  exists oa ob,
    script = sceneScript (id scene) oa ob
    /\ isSome oa = needA scene /\ isSome ob = needB scene
    /\ (forall a, oa = Some a -> Q a) /\ (forall b, ob = Some b -> Q b).

(** A use of the retry wrapper that made at most [m] backend calls, all of
    them in its events. *)
Definition attemptWithin (m : nat) (a : Attempt) : Prop :=
  goodAttempt a
  /\ (calls a <= m)%nat
  /\ List.length (filter isGenerate (activity a)) = calls a.




(** The backend calls of a script. *)
Fixpoint scriptCalls (script : list Action) : nat :=
  match script with
  | [] => O
  | ActPatch _ _ :: rest => scriptCalls rest
  | ActIO _ k :: rest => (k + scriptCalls rest)%nat
  end.







(** The number of images the progress bar counts in a store value. *)
Definition progressOf (o : option StoryboardData) : Z :=
  match o with
  | Some sb => Download.generated (Download.getGeneratedImagesCount sb)
  | None => 0
  end.

(** A store update does not lower the progress. *)
Definition progressKept (ev : Event) : Prop :=
  match ev with
  | EvPatch _ _ before after | EvSetStoryboard before after =>
      progressOf before <= progressOf after
  | _ => True
  end.

(** Two scenes agree on what the analysis wrote. *)
Definition samePlanFields (s s' : Scene) : Prop :=
  id s' = id s /\ title s' = title s /\ sceneContext s' = sceneContext s
  /\ imageADescription s' = imageADescription s
  /\ imageBDescription s' = imageBDescription s
  /\ motionPrompt s' = motionPrompt s
  /\ characterDirection s' = characterDirection s
  /\ characterExpression s' = characterExpression s
  /\ characterPose s' = characterPose s.

(** The calls an action announces are the calls among its events. *)
Definition countedAction (a : Action) : Prop :=
  match a with
  | ActIO evs k => List.length (filter isGenerate evs) = k
  | ActPatch _ _ => True
  end.

(** The scene shows no spinner. *)
Definition idle (scene : Scene) : bool := negb (generating scene).

(** What the pipeline has no business with: the flags and messages of the
    page, the character image, and in the store everything but the images
    and the progress marks of the scenes. *)
Definition sameSurroundings (w w' : World) : Prop :=
  isAnalyzing w' = isAnalyzing w
  /\ error w' = error w
  /\ characterImage w' = characterImage w
  /\ isGeneratingCharacterSheet w' = isGeneratingCharacterSheet w
  /\ hasApiKey w' = hasApiKey w.

Definition samePlan (sb sb' : StoryboardData) : Prop :=
  consistencyBible sb' = consistencyBible sb
  /\ characterReferenceSheet sb' = characterReferenceSheet sb
  /\ Forall2 samePlanFields (scenes sb) (scenes sb').


(* ------------------------------------------------------------------ *)
(** ** Vocabulary for the archive *)

(** [s.startsWith(p)] *)
Fixpoint startsWith (p s : string) : bool :=
  match p, s with
  | EmptyString, _ => true
  | String a p', String b s' => Ascii.eqb a b && startsWith p' s'
  | String _ _, EmptyString => false
  end.

(** The entry is the image file of a scene. *)
Definition isSceneFile (e : Download.Entry) : bool :=
  startsWith "Scene_" (Download.path e).

(** The entry is an image fetched from [url]. *)
Definition fetchedFrom (env : Download.ZipEnv) (e : Download.Entry) : Prop :=
  match Download.content e with
  | Download.Blob url => Download.fetchOk env url = true /\ truthy (Some url) = true
  | Download.Text _ => True
  end.

(** The four text files of the archive. *)
Definition textFiles (readme jsonData prompts guide : StoryboardData -> string)
           (sb : StoryboardData) : Download.Archive :=
  [ {| Download.path := "README.txt"; Download.content := Download.Text (readme sb) |};
    {| Download.path := "storyboard-data.json";
       Download.content := Download.Text (jsonData sb) |};
    {| Download.path := "motion-prompts.txt";
       Download.content := Download.Text (prompts sb) |};
    {| Download.path := "consistency-guide.txt";
       Download.content := Download.Text (guide sb) |} ].

(** The first scene with both frames. *)
Definition completeStoryboard : StoryboardData :=
  withScenes samplePlan
    [spreadScene (spreadScene (sampleScene 1) (patchImageA "data:image/png;base64,AAAA"))
                 (patchImageB "data:image/png;base64,BBBB")].

(** [needle] occurs somewhere in [hay]. *)
Definition occursIn (needle hay : string) : Prop :=
  exists pre post, hay = (pre ++ needle ++ post)%string.

(** The three texts that make [handleGenerate] ask for another key. *)
Definition authorizationMarks : list string :=
  ["403"; "PERMISSION_DENIED"; "Requested entity was not found"]%string.

(* ------------------------------------------------------------------ *)
(** ** [components/CharacterConsistencyIndicator.tsx] and the scene list of [App.tsx] *)

Module Indicator.

(** [switch (direction)] with an optional argument. *)
Definition getDirectionIcon (direction : option string) : string :=
  match direction with
  | Some d =>
      if (d =? "left")%string then "←"
      else if (d =? "right")%string then "→"
      else if (d =? "forward")%string then "↑"
      else if (d =? "back")%string then "↓"
      else "•"
  | None => "•"
  end.

Definition getDirectionColor (direction : option string) : string :=
  match direction with
  | Some d =>
      if (d =? "left")%string then "text-blue-600 bg-blue-50"
      else if (d =? "right")%string then "text-green-600 bg-green-50"
      else if (d =? "forward")%string then "text-purple-600 bg-purple-50"
      else if (d =? "back")%string then "text-orange-600 bg-orange-50"
      else "text-gray-600 bg-gray-50"
  | None => "text-gray-600 bg-gray-50"
  end.

(** [previousScene && previousScene.characterDirection !== scene.characterDirection],
    as a condition. *)
Definition hasDirectionChange (scene : Scene) (previousScene : option Scene) : bool :=
  match previousScene with
  | Some previous => negb (characterDirection previous =? characterDirection scene)%string
  | None => false
  end.

(** [index > 0 ? storyboard.scenes[index - 1] : undefined] *)
Definition previousSceneOf (scenes : list Scene) (index : nat) : option Scene :=
  if (0 <? index)%nat then nth_error scenes (index - 1) else None.

(** [l.map((x, index) => f index x)], counting from [index]. *)
Fixpoint mapFrom {A B : Type} (f : nat -> A -> B) (index : nat) (l : list A) : list B :=
  match l with
  | [] => []
  | x :: rest => f index x :: mapFrom f (S index) rest
  end.

(** Which cards of [storyboard.scenes.map(...)] show the flow notice. *)
Definition flowNotices (scenes : list Scene) : list bool :=
  mapFrom (fun index scene => hasDirectionChange scene (previousSceneOf scenes index))
          0 scenes.

End Indicator.

(* ------------------------------------------------------------------ *)
(** ** The motion prompt display (second unnamed part) *)

Module Motion.

Definition isTerminator (c : ascii) : bool :=
  (c =? ".")%char || (c =? "!")%char || (c =? "?")%char.

Definition startsWithTerminator (s : string) : bool :=
  match s with
  | String c _ => isTerminator c
  | EmptyString => false
  end.

(** [prompt.split(/[.!?]+/)]: the pieces between the maximal runs of
    sentence terminators, the empty ones included. *)
Fixpoint splitSentences (s : string) : list string :=
  match s with
  | EmptyString => [EmptyString]
  | String c r =>
      if isTerminator c then
        if startsWithTerminator r then splitSentences r
        else EmptyString :: splitSentences r
      else
        match splitSentences r with
        | h :: t => String c h :: t
        | [] => [String c EmptyString]
        end
  end.

Definition isDigit (c : ascii) : bool :=
  let n := nat_of_ascii c in ((48 <=? n) && (n <=? 57))%nat.

(** The longest prefix of digits and what follows it ([\d+] and [\d*]
    are greedy). *)
Fixpoint spanDigits (s : string) : string * string :=
  match s with
  | EmptyString => (EmptyString, EmptyString)
  | String c r =>
      if isDigit c then let (digits, rest) := spanDigits r in (String c digits, rest)
      else (EmptyString, s)
  end.

(** A literal word under the [i] flag; the value is what follows it. *)
Fixpoint matchWord (word s : string) : option string :=
  match word with
  | EmptyString => Some s
  | String a word' =>
      match s with
      | String b s' =>
          if Ascii.eqb (upperChar a) (upperChar b) then matchWord word' s' else None
      | EmptyString => None
      end
  end.

(** The timing expression of [extractTiming] tried at the start of [s]: an
    opening parenthesis, the group (one or more digits, an optional point,
    any digits), any white space, the word second or seconds in either case
    and a closing parenthesis.  The value is the group.  No choice of the
    expression can be made in two ways that both reach the end, so the
    greedy reading is the only one. *)
Definition matchTimingHere (s : string) : option string :=
  match s with
  | String c r =>
      if (c =? "(")%char then
        let (whole, r1) := spanDigits r in
        if (whole =? "")%string then None
        else
          let (group, r2) :=
            match r1 with
            | String d r1' =>
                if (d =? ".")%char then
                  let (fraction, r2) := spanDigits r1' in
                  ((whole ++ "." ++ fraction)%string, r2)
                else (whole, r1)
            | EmptyString => (whole, r1)
            end in
          match matchWord "second" (trimStart r2) with
          | Some r3 =>
              let r4 :=
                match r3 with
                | String e r3' => if Ascii.eqb (upperChar e) "S"%char then r3' else r3
                | EmptyString => r3
                end in
              match r4 with
              | String e _ => if (e =? ")")%char then Some group else None
              | EmptyString => None
              end
          | None => None
          end
      else None
  | EmptyString => None
  end.

(** [extractTiming]: the first group of the leftmost match, followed by
    the letter s, or [null]. *)
Fixpoint extractTiming (sentence : string) : option string :=
  match sentence with
  | EmptyString => None
  | String _ rest =>
      match matchTimingHere sentence with
      | Some group => Some (group ++ "s")%string
      | None => extractTiming rest
      end
  end.

Record MotionStep := {
  stepId : nat;
  description : string;
  timing : option string
}.

(** [parseMotionSteps] *)
Definition parseMotionSteps (prompt : string) : list MotionStep :=
  let sentences :=
    filter (fun s => negb (trim s =? "")%string) (splitSentences prompt) in
  Indicator.mapFrom
    (fun index sentence =>
       {| stepId := index; description := trim sentence;
          timing := extractTiming sentence |})
    0 sentences.

(** No character of the text passes the test [p]. *)
Fixpoint freeOf (p : ascii -> bool) (s : string) : bool :=
  match s with
  | EmptyString => true
  | String c r => negb (p c) && freeOf p r
  end.

(** Every character of the text passes the test [p]. *)
Fixpoint allOf (p : ascii -> bool) (s : string) : bool :=
  match s with
  | EmptyString => true
  | String c r => p c && allOf p r
  end.

(** A whole number of seconds: digits followed by the letter s. *)
Definition wholeSeconds (t : string) : Prop :=
  exists digits,
    t = (digits ++ "s")%string /\ digits <> EmptyString /\ allOf isDigit digits = true.

End Motion.

Definition isComma (c : ascii) : bool := Ascii.eqb c ","%char.

(* ------------------------------------------------------------------ *)
(** * Properties *)

(** ** The export predicates ([downloadService.ts]) *)

Module DownloadFacts.
Import Download.

Lemma imagesOf_range scene : 0 <= imagesOf scene <= 2.
Proof.
  unfold imagesOf.
  destruct (truthy (imageAUrl scene)), (truthy (imageBUrl scene)); lia.
Qed.

Lemma imagesOf_complete scene : sceneComplete scene = (imagesOf scene =? 2).
Proof.
  unfold sceneComplete, imagesOf.
  destruct (truthy (imageAUrl scene)), (truthy (imageBUrl scene)); reflexivity.
Qed.

Lemma reduce_count (l : list Scene) (acc : Z) :
  fold_left
    (fun count scene =>
       count + (if truthy (imageAUrl scene) then 1 else 0)
             + (if truthy (imageBUrl scene) then 1 else 0)) l acc
  = acc + fold_right (fun scene n => imagesOf scene + n) 0 l.
Proof.
  revert acc.
  induction l as [|scene l IH]; intros acc; simpl.
  - lia.
  - rewrite IH. unfold imagesOf. lia.
Qed.

Lemma count_bound (l : list Scene) :
  0 <= fold_right (fun scene n => imagesOf scene + n) 0 l <= Z.of_nat (List.length l) * 2.
Proof.
  induction l as [|scene l IH]; simpl List.length; simpl fold_right.
  - lia.
  - pose proof (imagesOf_range scene). lia.
Qed.

Lemma every_complete_count (l : list Scene) :
  forallb sceneComplete l
  = (fold_right (fun scene n => imagesOf scene + n) 0 l =? Z.of_nat (List.length l) * 2).
Proof.
  induction l as [|scene l IH]; simpl List.length; simpl fold_right; simpl forallb.
  - reflexivity.
  - rewrite IH, imagesOf_complete.
    pose proof (imagesOf_range scene) as Hr.
    pose proof (count_bound l) as Hb.
    destruct (imagesOf scene =? 2) eqn:E2.
    + apply Z.eqb_eq in E2. rewrite E2. simpl andb.
      destruct (fold_right _ 0 l =? Z.of_nat (List.length l) * 2) eqn:E.
      * apply Z.eqb_eq in E. symmetry. apply Z.eqb_eq. lia.
      * apply Z.eqb_neq in E. symmetry. apply Z.eqb_neq. lia.
    + apply Z.eqb_neq in E2. simpl andb. symmetry. apply Z.eqb_neq. lia.
Qed.

Lemma count_flags_irrelevant fa fb sb :
  getGeneratedImagesCount (withFailureFlags fa fb sb) = getGeneratedImagesCount sb.
Proof.
  unfold getGeneratedImagesCount, withFailureFlags. simpl scenes.
  rewrite !reduce_count, length_map. f_equal. f_equal.
  induction (scenes sb) as [|s l IH]; simpl; [reflexivity|].
  rewrite IH. reflexivity.
Qed.

(** C10. [areAllImagesGenerated] holds exactly when [getGeneratedImagesCount]
    reports [generated = total], where [total] is twice the number of
    scenes; on an empty scene list both hold, with zero images; and the
    failure flags of the scenes play no part in either. *)
Theorem areAllImagesGenerated_iff_generated_total :
  (forall sb,
      areAllImagesGenerated sb
      = (generated (getGeneratedImagesCount sb) =? total (getGeneratedImagesCount sb)))
  /\ (forall sb, total (getGeneratedImagesCount sb) = 2 * Z.of_nat (List.length (scenes sb)))
  /\ (forall bible sheet,
         let sb := {| consistencyBible := bible; scenes := [];
                      characterReferenceSheet := sheet |} in
         areAllImagesGenerated sb = true
         /\ getGeneratedImagesCount sb = {| total := 0; generated := 0 |})
  /\ (forall fa fb sb,
         areAllImagesGenerated (withFailureFlags fa fb sb) = areAllImagesGenerated sb
         /\ getGeneratedImagesCount (withFailureFlags fa fb sb) = getGeneratedImagesCount sb).
Proof.
  assert (H1 : forall sb,
             areAllImagesGenerated sb
             = (generated (getGeneratedImagesCount sb)
                =? total (getGeneratedImagesCount sb))).
  { intros sb. unfold areAllImagesGenerated, getGeneratedImagesCount.
    simpl generated. simpl total.
    rewrite reduce_count, every_complete_count. reflexivity. }
  split; [exact H1|].
  split; [intros sb; unfold getGeneratedImagesCount; simpl total; lia|].
  split; [intros bible sheet; split; reflexivity|].
  intros fa fb sb. split; [|apply count_flags_irrelevant].
  rewrite !H1, count_flags_irrelevant. reflexivity.
Qed.

Lemma incomplete_not_all sb :
  Exists sceneIncomplete (scenes sb) -> areAllImagesGenerated sb = false.
Proof.
  unfold areAllImagesGenerated.
  induction 1 as [scene l H|scene l _ IH]; simpl.
  - unfold sceneComplete. destruct H as [H|H]; rewrite H.
    + reflexivity.
    + rewrite andb_false_r. reflexivity.
  - rewrite IH. apply andb_false_r.
Qed.

(** C3, as the sources have it.  The completeness gate is in the handler:
    with an image missing, [handleDownloadZip] reports the "please wait"
    message, does not run the archive generator and downloads nothing.
    [downloadImagesAsZip] itself has no such precondition: whenever its
    folder and the final compression succeed it delivers an archive, with
    the images that are there. *)
Theorem handleDownloadZip_rejects_incomplete
        (readme jsonData prompts guide : StoryboardData -> string)
        (env : ZipEnv) (sb : StoryboardData) (characterImage : option string) (st : State) :
  Exists sceneIncomplete (scenes sb) ->
  handleDownloadZip readme jsonData prompts guide env sb characterImage st
  = ({| isDownloadingZip := isDownloadingZip st;
        downloadError :=
          Some "Please wait for all images to be generated before downloading." |},
     None)
  /\ (folderOk env = true -> generateOk env = true ->
      exists archive,
        downloadImagesAsZip readme jsonData prompts guide env sb characterImage = Ok archive
        /\ (forall scene, In scene (scenes sb) ->
            incl (sceneEntries env scene) archive)).
Proof.
  intros Hex. split.
  - unfold handleDownloadZip. rewrite (incomplete_not_all sb Hex). reflexivity.
  - intros Hf Hg. unfold downloadImagesAsZip. rewrite Hf, Hg. simpl negb. cbv iota.
    eexists. split; [reflexivity|].
    intros scene Hin e He.
    apply in_or_app. right. apply in_or_app. right. apply in_or_app. right.
    apply in_flat_map. exists scene. split; assumption.
Qed.

Lemma handleDownloadZip_rejects_incomplete_witness :
Exists sceneIncomplete (scenes partialStoryboard)
/\ handleDownloadZip (fun _ => "") (fun _ => "") (fun _ => "") (fun _ => "")
     allOk partialStoryboard None
     {| isDownloadingZip := false; downloadError := None |}
   = ({| isDownloadingZip := false;
         downloadError :=
           Some "Please wait for all images to be generated before downloading." |},
      None)
/\ exists archive,
    downloadImagesAsZip (fun _ => "") (fun _ => "") (fun _ => "") (fun _ => "")
                        allOk partialStoryboard None = Ok archive
    /\ (forall scene, In scene (scenes partialStoryboard) ->
        incl (sceneEntries allOk scene) archive).
Proof.
assert (H : Exists sceneIncomplete (scenes partialStoryboard)).
{ apply Exists_cons_hd. right. reflexivity. }
split; [exact H|].
destruct (handleDownloadZip_rejects_incomplete
            (fun _ => "") (fun _ => "") (fun _ => "") (fun _ => "")
            allOk partialStoryboard None
            {| isDownloadingZip := false; downloadError := None |} H) as (Hgate & Hzip).
split; [exact Hgate|].
exact (Hzip eq_refl eq_refl).
Defined.

(** C3, as stated, fails on the archive generator: called on a storyboard
    whose only scene lacks its end frame, with every collaborator
    succeeding, [downloadImagesAsZip] raises nothing and delivers an
    archive that holds the start frame alone. *)
Lemma downloadImagesAsZip_zips_partial_storyboard :
  Exists sceneIncomplete (scenes partialStoryboard)
  /\ downloadImagesAsZip (fun _ => "readme") (fun _ => "json") (fun _ => "prompts")
       (fun _ => "guide") allOk partialStoryboard None
     = Ok [ {| path := "README.txt"; content := Text "readme" |};
            {| path := "storyboard-data.json"; content := Text "json" |};
            {| path := "motion-prompts.txt"; content := Text "prompts" |};
            {| path := "consistency-guide.txt"; content := Text "guide" |};
            {| path := "Scene_01_A.png";
               content := Blob "data:image/png;base64,AAAA" |} ].
Proof.
  split.
  - apply Exists_cons_hd. right. reflexivity.
  - vm_compute. reflexivity.
Qed.

End DownloadFacts.

(* ------------------------------------------------------------------ *)
(** ** The image client and the retry wrapper *)

Lemma inlineUrl_truthy part url : inlineUrl part = Some url -> truthy (Some url) = true.
Proof.
  unfold inlineUrl. destruct (inlineData part) as [d|]; [|discriminate].
  destruct (data d =? "")%string; [discriminate|].
  intros H. injection H as <-. reflexivity.
Qed.

Lemma firstInline_truthy ps url : firstInline ps = Some url -> truthy (Some url) = true.
Proof.
  induction ps as [|part ps IH]; simpl; [discriminate|].
  destruct (inlineUrl part) as [u|] eqn:E.
  - intros H. injection H as <-. eapply inlineUrl_truthy; eassumption.
  - exact IH.
Qed.

Lemma firstImage_truthy cs url : firstImage cs = Some url -> truthy (Some url) = true.
Proof.
  induction cs as [|c cs IH]; simpl; [discriminate|].
  destruct (firstInline (parts c)) as [u|] eqn:E.
  - intros H. injection H as <-. eapply firstInline_truthy; eassumption.
  - exact IH.
Qed.

Lemma attemptResult_truthy backend req n url :
  attemptResult backend req n = inr url -> truthy (Some url) = true.
Proof.
  unfold attemptResult. destruct (backend n req) as [e|response]; [discriminate|].
  destruct (firstImage (candidatesOrEmpty response)) as [u|] eqn:E; [|discriminate].
  intros H. injection H as <-. eapply firstImage_truthy; eassumption.
Qed.

(** One call of [generateSceneImage] is one backend call, whose outcome is
    [attemptResult] at the ordinal of the call. *)
Lemma generateSceneImage_run backend description ctx size charImage w :
  let req := sceneImageRequest description ctx size charImage in
  generateSceneImage backend description ctx size charImage w
  = (match attemptResult backend req (ncalls w) with
     | inr url => Ok url
     | inl e => Throw e
     end,
     advance [EvGenerate (ncalls w) req] 1 w).
Proof.
  intros req. unfold generateSceneImage, bind, generateContent, attemptResult.
  fold req.
  assert (Hw : tick (emit (EvGenerate (ncalls w) req) w)
               = advance [EvGenerate (ncalls w) req] 1 w).
  { unfold tick, emit, advance. simpl. f_equal. lia. }
  rewrite Hw.
  destruct (backend (ncalls w) req) as [e|response]; [reflexivity|].
  destruct (firstImage (candidatesOrEmpty response)); reflexivity.
Qed.

Lemma advance_advance evs1 k1 evs2 k2 w :
  advance evs2 k2 (advance evs1 k1 w) = advance (evs1 ++ evs2) (k1 + k2) w.
Proof.
  unfold advance. simpl. f_equal; [lia|]. rewrite app_assoc. reflexivity.
Qed.

Lemma advance_nil w : advance [] 0 w = w.
Proof.
  destruct w. unfold advance. simpl. f_equal; [lia|]. apply app_nil_r.
Qed.

Lemma emit_wait_advance ms w : emit (EvWait ms) w = advance [EvWait ms] 0 w.
Proof. unfold emit, advance. simpl. f_equal. lia. Qed.

(** The retry loop, whatever its budget: it only talks to the backend, at
    most [remaining] times, it returns or throws, and an image it returns is
    a non empty data URL. *)
Lemma retryLoop_activity backend description ctx size charImage maxRetries :
  forall remaining attempt lastError w,
  exists evs k r,
    retryLoop backend remaining attempt maxRetries lastError
              description ctx size charImage w = (r, advance evs k w)
    /\ Forall isIO evs
    /\ (k <= remaining)%nat
    /\ List.length (filter isGenerate evs) = k
    /\ match r with
       | Ok url => truthy (Some url) = true
       | Throw _ => True
       | OutOfFuel => False
       end.
Proof.
  induction remaining as [|remaining IH]; intros attempt lastError w.
  - exists [], O. eexists. simpl. unfold throw. rewrite advance_nil.
    split; [reflexivity|]. repeat split; auto.
  - simpl retryLoop. unfold bind at 1. unfold caught.
    rewrite generateSceneImage_run.
    set (req := sceneImageRequest description ctx size charImage).
    destruct (attemptResult backend req (ncalls w)) as [e|url] eqn:E.
    + unfold bind at 1.
      destruct (attempt <? Z.of_nat maxRetries).
      * unfold sleep at 1. rewrite emit_wait_advance, advance_advance.
        match goal with
        | |- context [retryLoop _ _ ?a _ ?le _ _ _ _ ?w1] =>
            destruct (IH a le w1) as (evs & k & r & Hw & Hio & Hk & Hn & Hr)
        end.
        exists (([EvGenerate (ncalls w) req] ++ [EvWait (waitTime attempt)]) ++ evs),
          (1 + 0 + k)%nat, r.
        rewrite Hw, advance_advance.
        split; [reflexivity|].
        split; [repeat constructor; assumption|].
        split; [lia|].
        split; [simpl; lia|exact Hr].
      * unfold ret at 1.
        match goal with
        | |- context [retryLoop _ _ ?a _ ?le _ _ _ _ ?w1] =>
            destruct (IH a le w1) as (evs & k & r & Hw & Hio & Hk & Hn & Hr)
        end.
        exists ([EvGenerate (ncalls w) req] ++ evs), (1 + k)%nat, r.
        rewrite Hw, advance_advance.
        split; [reflexivity|].
        split; [repeat constructor; assumption|].
        split; [lia|].
        split; [simpl; lia|exact Hr].
    + exists [EvGenerate (ncalls w) req], 1%nat, (Ok url). unfold ret.
      split; [reflexivity|].
      split; [repeat constructor|].
      split; [lia|].
      split; [reflexivity|].
      eapply attemptResult_truthy; eassumption.
Qed.

(** C4. With [maxRetries = 3] the retry wrapper calls the backend at most
    three times, stops at the first attempt that yields an image and returns
    it, and when all three attempts fail throws the error of the third one as
    it is; it sleeps between failed attempts only, for
    [min(1000 * 2^(attempt-1), 5000)] milliseconds, that is 1000 and 2000. *)
Theorem generateSceneImageWithRetry_three_attempts
        backend description ctx size charImage w :
  let req := sceneImageRequest description ctx size charImage in
  let n := ncalls w in
  generateSceneImageWithRetry backend description ctx size charImage 3 w
  = match attemptResult backend req n with
    | inr url => (Ok url, advance [EvGenerate n req] 1 w)
    | inl _ =>
        match attemptResult backend req (n + 1) with
        | inr url =>
            (Ok url,
             advance [EvGenerate n req; EvWait (waitTime 1); EvGenerate (n + 1) req] 2 w)
        | inl _ =>
            match attemptResult backend req (n + 2) with
            | inr url =>
                (Ok url,
                 advance [EvGenerate n req; EvWait (waitTime 1);
                          EvGenerate (n + 1) req; EvWait (waitTime 2);
                          EvGenerate (n + 2) req] 3 w)
            | inl e3 =>
                (Throw e3,
                 advance [EvGenerate n req; EvWait (waitTime 1);
                          EvGenerate (n + 1) req; EvWait (waitTime 2);
                          EvGenerate (n + 2) req] 3 w)
            end
        end
    end
  /\ (forall attempt, waitTime attempt = Z.min (1000 * 2 ^ (attempt - 1)) 5000)
  /\ waitTime 1 = 1000 /\ waitTime 2 = 2000.
Proof.
  intros req n. split; [|split; [reflexivity|split; reflexivity]].
  unfold generateSceneImageWithRetry. simpl retryLoop.
  unfold bind at 1. unfold caught at 1. rewrite generateSceneImage_run.
  fold req. fold n.
  destruct (attemptResult backend req n) as [e1|url1]; [|reflexivity].
  unfold bind at 1. simpl (1 <? Z.of_nat 3). cbv iota.
  unfold sleep at 1. rewrite emit_wait_advance, advance_advance.
  unfold bind at 1. unfold caught at 1. rewrite generateSceneImage_run.
  fold req. rewrite advance_advance.
  replace (ncalls (advance ([EvGenerate n req] ++ [EvWait (waitTime 1)]) (1 + 0) w))
    with (n + 1)%nat by (unfold advance, n; simpl; lia).
  destruct (attemptResult backend req (n + 1)) as [e2|url2]; [|reflexivity].
  unfold bind at 1. simpl (1 + 1 <? Z.of_nat 3). cbv iota.
  unfold sleep at 1. rewrite emit_wait_advance, advance_advance.
  unfold bind at 1. unfold caught at 1. rewrite generateSceneImage_run.
  fold req. rewrite advance_advance.
  match goal with
  | |- context [attemptResult backend req (ncalls ?w1)] =>
      replace (ncalls w1) with (n + 2)%nat by (unfold advance, n; simpl; lia)
  end.
  destruct (attemptResult backend req (n + 2)) as [e3|url3]; [|reflexivity].
  unfold bind at 1. simpl (1 + 1 + 1 <? Z.of_nat 3). cbv iota.
  reflexivity.
Qed.

(* ------------------------------------------------------------------ *)
(** ** The reference sheet builder *)

Lemma seq_calls (f : nat -> Event) (n k : nat) :
  f n :: map (fun i => f (n + 1 + i)%nat) (seq 0 k) = map (fun i => f (n + i)%nat) (seq 0 (S k)).
Proof.
  simpl. rewrite Nat.add_0_r. f_equal.
  rewrite <- seq_shift, map_map.
  apply map_ext. intros i. f_equal. lia.
Qed.

(** A view whose responses carry no image is asked for again and again:
    the retry counter only moves when the call throws. *)
Lemma viewLoop_without_image req viewName :
  forall fuel results w,
    getView viewName results = "" ->
    viewLoop backendNoImage fuel 0 req viewName results w
    = (OutOfFuel,
       advance (map (fun i => EvGenerate (ncalls w + i) req) (seq 0 fuel)) fuel w).
Proof.
  induction fuel as [|fuel IH]; intros results w Hv.
  - simpl. unfold outOfFuel. rewrite advance_nil. reflexivity.
  - cbn [viewLoop]. change (0 <? 3) with true. cbv iota.
    unfold bind at 1. unfold caught at 1. unfold bind at 1.
    unfold generateContent at 1. unfold backendNoImage at 1.
    unfold ret at 1. cbn [candidatesOrEmpty emptyResponse candidates assignView fold_left].
    rewrite Hv. cbn [truthy String.eqb negb].
    assert (Hw : tick (emit (EvGenerate (ncalls w) req) w)
                 = advance [EvGenerate (ncalls w) req] 1 w).
    { unfold tick, emit, advance. simpl. f_equal. lia. }
    rewrite Hw, (IH results _ Hv), advance_advance.
    f_equal. f_equal.
    cbn [ncalls advance app].
    apply (seq_calls (fun i => EvGenerate i req)).
Qed.

(** C5 fails on the sources.  Against a backend that answers every call
    with a response that carries no image, the loop of the front view never
    leaves: whatever the number [fuel] of iterations granted, all of them are
    spent on calls for the front view, without a pause, and the builder has
    not returned. *)
Theorem createCharacterReferenceSheet_unbounded_attempts
        (fuel : nat) (description originalCharacterImage : string) (w : World) :
  createCharacterReferenceSheet backendNoImage fuel description originalCharacterImage w
  = (OutOfFuel,
     advance (map (fun i => EvGenerate (ncalls w + i)
                                       (frontViewRequest description originalCharacterImage))
                  (seq 0 fuel))
             fuel w).
Proof.
  unfold createCharacterReferenceSheet, views. cbn [forViews].
  unfold bind at 1.
  rewrite (viewLoop_without_image _ ViewFront fuel) by reflexivity.
  reflexivity.
Qed.

(** When every call throws, each view gets its three attempts with pauses
    of 1000 and 2000 milliseconds and is left empty; the builder returns the
    empty sheet after nine calls. *)
Example createCharacterReferenceSheet_views_left_empty :
  let out := createCharacterReferenceSheet backendForbidden 3 "a small red fox"
               "data:image/png;base64,AAAA" initialWorld in
  fst out = Ok {| front := ""; side := ""; back := "" |}
  /\ ncalls (snd out) = 9%nat
  /\ filter (fun ev => negb (isGenerate ev)) (trace (snd out))
     = [EvWait 1000; EvWait 2000; EvWait 1000; EvWait 2000; EvWait 1000; EvWait 2000].
Proof. cbv zeta. repeat split; vm_compute; reflexivity. Qed.

(** The earlier builder of [services/geminiService.ts] asks for each view
    once and does not pause: three calls, whatever the backend answers. *)
Example legacy_createCharacterReferenceSheet_single_attempts :
  let failing := Legacy.createCharacterReferenceSheet backendForbidden "a small red fox"
                   initialWorld in
  let silent := Legacy.createCharacterReferenceSheet backendNoImage "a small red fox"
                  initialWorld in
  fst failing = Ok {| front := ""; side := ""; back := "" |}
  /\ ncalls (snd failing) = 3%nat
  /\ filter (fun ev => negb (isGenerate ev)) (trace (snd failing)) = []
  /\ fst silent = Ok {| front := ""; side := ""; back := "" |}
  /\ ncalls (snd silent) = 3%nat.
Proof. cbv zeta. repeat split; vm_compute; reflexivity. Qed.

(* ------------------------------------------------------------------ *)
(** ** The analysis client *)

Lemma generateStoryboardAnalysis_run (J : Type) backend (parse : string -> option J)
      instruction script w :
  generateStoryboardAnalysis backend parse instruction script w
  = (match backend (ncalls w) (analysisRequest instruction script) with
     | inl e => Throw e
     | inr response =>
         match text response with
         | Some payload =>
             if (payload =? "")%string then Throw (newError "No response from Gemini.")
             else match parse payload with
                  | Some parsed => Ok parsed
                  | None => Throw (newError "Failed to parse storyboard data.")
                  end
         | None => Throw (newError "No response from Gemini.")
         end
     end,
     advance [EvGenerate (ncalls w) (analysisRequest instruction script)] 1 w).
Proof.
  unfold generateStoryboardAnalysis, bind, generateContent.
  assert (Hw : forall req, tick (emit (EvGenerate (ncalls w) req) w)
                           = advance [EvGenerate (ncalls w) req] 1 w).
  { intros req. unfold tick, emit, advance. simpl. f_equal. lia. }
  rewrite Hw.
  destruct (backend (ncalls w) (analysisRequest instruction script)) as [e|response];
    [reflexivity|].
  destruct (text response) as [payload|]; [|reflexivity].
  unfold truthy. destruct (payload =? "")%string; simpl; [reflexivity|].
  destruct (parse payload); reflexivity.
Qed.

Lemma truthy_Some payload : truthy (Some payload) = negb (payload =? "")%string.
Proof. reflexivity. Qed.

(** C6, as the sources have it.  Once the backend has answered, the
    analysis client fails in exactly two ways, told apart by their message:
    "No response from Gemini." when the text of the answer is missing or
    empty, "Failed to parse storyboard data." when [JSON.parse] rejects it.
    A text that [JSON.parse] accepts is returned as parsed, whatever its
    shape: nothing compares it with [StoryboardData].  In both failures
    [handleGenerate] is left with no storyboard, neither in the state nor in
    the ref, and with the message as its error. *)
Theorem generateStoryboardAnalysis_failure_modes
        (J : Type) (backend : Backend) (parse : string -> option J)
        (instruction script : string) (w : World) (response : GenResponse) :
  backend (ncalls w) (analysisRequest instruction script) = inr response ->
  let r := fst (generateStoryboardAnalysis backend parse instruction script w) in
  (r = Throw (newError "No response from Gemini.") <-> truthy (text response) = false)
  /\ (r = Throw (newError "Failed to parse storyboard data.")
      <-> exists payload,
          text response = Some payload /\ truthy (Some payload) = true
          /\ parse payload = None)
  /\ (forall v, r = Ok v
                <-> exists payload,
                    text response = Some payload /\ truthy (Some payload) = true
                    /\ parse payload = Some v)
  /\ (forall (parse' : string -> option StoryboardData) fuel size,
         let out := handleGenerateForeground backend parse' instruction fuel script size w in
         (truthy (text response) = false ->
          fst out = Ok None /\ storyboard (snd out) = None
          /\ storyboardRef (snd out) = None /\ isAnalyzing (snd out) = false
          /\ error (snd out) = Some "No response from Gemini.")
         /\ (forall payload,
                text response = Some payload -> truthy (Some payload) = true ->
                parse' payload = None ->
                fst out = Ok None /\ storyboard (snd out) = None
                /\ storyboardRef (snd out) = None /\ isAnalyzing (snd out) = false
                /\ error (snd out) = Some "Failed to parse storyboard data.")).
Proof.
  intros Hb r. subst r.
  rewrite generateStoryboardAnalysis_run, Hb. cbn [fst].
  split; [|split; [|split]].
  - destruct (text response) as [payload|]; cbn [truthy].
    + destruct (payload =? "")%string; cbn [negb].
      * split; reflexivity.
      * destruct (parse payload); split; discriminate.
    + split; reflexivity.
  - destruct (text response) as [payload|].
    + destruct (payload =? "")%string eqn:E.
      * split; [discriminate|].
        intros (p & Hp & Ht & _). injection Hp as <-.
        rewrite truthy_Some, E in Ht. discriminate.
      * destruct (parse payload) eqn:P.
        -- split; [discriminate|].
           intros (p & Hp & _ & Hn). injection Hp as <-. congruence.
        -- split; [|reflexivity].
           intros _. exists payload. rewrite truthy_Some, E. auto.
    + split; [discriminate|]. intros (p & Hp & _). discriminate.
  - intros v. destruct (text response) as [payload|].
    + destruct (payload =? "")%string eqn:E.
      * split; [discriminate|].
        intros (p & Hp & Ht & _). injection Hp as <-.
        rewrite truthy_Some, E in Ht. discriminate.
      * destruct (parse payload) eqn:P.
        -- split.
           ++ intros H. injection H as <-. exists payload.
              rewrite truthy_Some, E. auto.
           ++ intros (p & Hp & _ & Hv). injection Hp as <-. congruence.
        -- split; [discriminate|].
           intros (p & Hp & _ & Hv). injection Hp as <-. congruence.
    + split; [discriminate|]. intros (p & Hp & _). discriminate.
  - intros parse' fuel size.
    unfold handleGenerateForeground.
    unfold bind, setIsAnalyzing, setError, setStoryboard, setStoryboardRef,
      setCharacterImage, tryFinally, tryCatch.
    rewrite generateStoryboardAnalysis_run.
    cbn [ncalls emit storeStoryboard storeRef]. rewrite Hb.
    split.
    + intros Ht. destruct (text response) as [payload|]; cbn [truthy] in Ht.
      * destruct (payload =? "")%string; [|discriminate]. repeat split; reflexivity.
      * repeat split; reflexivity.
    + intros payload Hp Ht Hn. rewrite Hp.
      rewrite truthy_Some in Ht. destruct (payload =? "")%string; [discriminate|].
      rewrite Hn. repeat split; reflexivity.
Qed.

Lemma generateStoryboardAnalysis_failure_modes_witness :
  fst (generateStoryboardAnalysis (backendSession "not json") parsePlan "" "A fox." initialWorld)
  = Throw (newError "Failed to parse storyboard data.")
  /\ error (snd (handleGenerateForeground (backendSession "not json") parsePlan ""
                   3 "A fox." Size1K initialWorld))
     = Some "Failed to parse storyboard data.".
Proof.
  pose proof (generateStoryboardAnalysis_failure_modes
                (backendSession "not json") parsePlan "" "A fox." initialWorld
                (response := {| text := Some "not json"; candidates := None |})
                eq_refl) as H.
  cbv zeta in H. destruct H as (_ & Hparse & _ & Hcaller).
  split.
  - apply Hparse. exists "not json". repeat split; reflexivity.
  - destruct (Hcaller parsePlan 3%nat Size1K) as (_ & H).
    apply (H "not json"); reflexivity.
Defined.

(** C6, as stated, fails: the text of the empty object is neither empty nor
    rejected by [JSON.parse], and has none of the fields of
    [StoryboardData], yet the analysis client returns its value. *)
Lemma generateStoryboardAnalysis_returns_any_json :
  fst (generateStoryboardAnalysis (backendSession "{}") parseEmptyObject "" "A fox."
                                  initialWorld)
  = Ok (JObject [])
  /\ conformsToStoryboardData (JObject []) = false.
Proof. split; reflexivity. Qed.

(* ------------------------------------------------------------------ *)
(** ** The store and its shadow reference *)

Lemma updateSceneInState_ok sceneId updates w :
  updateSceneInState sceneId updates w = (Ok tt, patched sceneId updates w).
Proof.
  unfold patched, updateSceneInState. destruct (storyboard w); reflexivity.
Qed.

(** A scene patch on a non empty store leaves the ref equal to the store. *)
Lemma updateSceneInState_syncs_ref sceneId updates w sb :
  storyboard w = Some sb ->
  storyboard (patched sceneId updates w)
  = Some (withScenes sb (patchScenes sceneId updates (scenes sb)))
  /\ storyboardRef (patched sceneId updates w) = storyboard (patched sceneId updates w).
Proof.
  intros H. unfold patched, updateSceneInState. rewrite H. split; reflexivity.
Qed.

(** C8 fails on the sources at the reference sheet attachment.  In the
    sample session (the analysis answers the plan, every image call answers
    an image) [handleGenerate] reaches the point where it starts the
    pipeline with the reference sheet in the state but not in the ref. *)
Theorem handleGenerate_reference_sheet_missing_from_ref :
  let out := handleGenerateForeground (backendSession "PLAN") parsePlan ""
               3 "A fox walks into a clearing and sits down." Size1K initialWorld in
  let url := "data:image/png;base64,AAAA" in
  let sheet := {| front := url; side := url; back := url |} in
  fst out = Ok (Some (samplePlan, Size1K, url))
  /\ storyboard (snd out) = Some (withReferenceSheet samplePlan sheet)
  /\ storyboardRef (snd out) = Some samplePlan
  /\ storyboardRef (snd out) <> storyboard (snd out).
Proof.
  cbv zeta.
  split; [vm_compute; reflexivity|].
  split; [vm_compute; reflexivity|].
  split; [vm_compute; reflexivity|].
  vm_compute. discriminate.
Qed.

(* ------------------------------------------------------------------ *)
(** ** The pipeline against a backend that refuses every call *)

(** C1 fails on the sources.  Every call is refused with a 403 error, which
    the abort test of the pipeline recognises; yet the run over the two
    scenes of the sample plan ends normally, with no error reported and the
    API key state untouched, after twenty backend calls, ten of them for the
    second scene, and after the repair pass has gone over both scenes. *)
Theorem processImagesQueue_ignores_authorization_failure :
  let out := processImagesQueue backendForbidden samplePlan Size1K None
                                (startWorld samplePlan) in
  isAuthorizationError (errorText (newError "got status: 403 Forbidden. PERMISSION_DENIED"))
  = true
  /\ fst out = Ok tt
  /\ error (snd out) = None
  /\ hasApiKey (snd out) = true
  /\ ncalls (snd out) = 20%nat
  /\ List.length (filter (mentions "of scene 2") (trace (snd out))) = 10%nat
  /\ option_map (fun sb => map retryAttempt (scenes sb)) (storyboard (snd out))
     = Some [Some 4; Some 4]
  /\ option_map (fun sb => map settled (scenes sb)) (storyboard (snd out))
     = Some [true; true].
Proof.
  cbv zeta. repeat split; vm_compute; reflexivity.
Qed.

(* ------------------------------------------------------------------ *)
(** ** The loop bodies of the pipeline as scripts *)

Lemma bind_patch (A : Type) sceneId updates (k : unit -> M A) w :
  bind (updateSceneInState sceneId updates) k w = k tt (patched sceneId updates w).
Proof. unfold bind. rewrite updateSceneInState_ok. reflexivity. Qed.

(** One [try { img = await retry(...); patch(ok img) } catch { patch(fail) }]
    block of the first pass. *)
Lemma attempt_block backend description ctx size charImage maxRetries
      sceneId (result : option string -> ScenePatch) (tagv : Z) w :
  exists a,
    goodAttempt a /\ tag a = tagv
    /\ tryCatch
         (img <- generateSceneImageWithRetry backend description ctx size charImage
                   maxRetries ;;
          updateSceneInState sceneId (result (Some img)) ;;
          ret (Some img))
         (fun _ => updateSceneInState sceneId (result None) ;; ret None) w
       = (Ok (outcome a),
          patched sceneId (result (outcome a)) (advance (activity a) (calls a) w)).
Proof.
  unfold generateSceneImageWithRetry.
  destruct (retryLoop_activity backend description ctx size charImage maxRetries
                               maxRetries 1 None w)
    as (evs & k & r & Hrun & Hio & _ & _ & Hr).
  unfold tryCatch, bind. rewrite Hrun.
  destruct r as [url|e|]; [| |contradiction].
  - exists {| tag := tagv; activity := evs; calls := k; outcome := Some url |}.
    rewrite updateSceneInState_ok. unfold ret. cbn.
    repeat split; auto. intros u Hu. injection Hu as <-. exact Hr.
  - exists {| tag := tagv; activity := evs; calls := k; outcome := None |}.
    rewrite updateSceneInState_ok. unfold ret. cbn.
    repeat split; auto. discriminate.
Qed.

(** The same block in the repair pass, which keeps no local copy of the image. *)
Lemma repair_block backend description ctx size charImage maxRetries
      sceneId (result : option string -> ScenePatch) (tagv : Z) w :
  exists a,
    goodAttempt a /\ tag a = tagv
    /\ tryCatch
         (img <- generateSceneImageWithRetry backend description ctx size charImage
                   maxRetries ;;
          updateSceneInState sceneId (result (Some img)))
         (fun _ => updateSceneInState sceneId (result None)) w
       = (Ok tt,
          patched sceneId (result (outcome a)) (advance (activity a) (calls a) w)).
Proof.
  unfold generateSceneImageWithRetry.
  destruct (retryLoop_activity backend description ctx size charImage maxRetries
                               maxRetries 1 None w)
    as (evs & k & r & Hrun & Hio & _ & _ & Hr).
  unfold tryCatch, bind. rewrite Hrun.
  destruct r as [url|e|]; [| |contradiction].
  - exists {| tag := tagv; activity := evs; calls := k; outcome := Some url |}.
    rewrite updateSceneInState_ok. cbn.
    repeat split; auto. intros u Hu. injection Hu as <-. exact Hr.
  - exists {| tag := tagv; activity := evs; calls := k; outcome := None |}.
    rewrite updateSceneInState_ok. cbn.
    repeat split; auto. discriminate.
Qed.

(** The first pass over one scene always falls through to the next scene:
    the handler of its outer [try] is never entered, because each retry
    wrapper call sits in a [try] of its own that catches everything. *)
Lemma firstPassScene_script backend ctx size charImage scene w :
  exists a b,
    goodAttempt a /\ goodAttempt b /\ tag a = 1 /\ tag b = 2
    /\ firstPassScene backend ctx size charImage scene w
       = (Ok Next, exec (sceneScript (id scene) (Some a) (Some b)) w).
Proof.
  unfold firstPassScene.
  rewrite bind_patch; cbv beta.
  unfold tryFinally, tryCatch at 1.
  rewrite bind_patch; cbv beta.
  unfold bind at 1.
  match goal with
  | |- context [tryCatch _ _ ?w2] =>
      destruct (attempt_block backend (imageADescription scene) ctx size charImage 3
                              (id scene) resultA 1 w2)
        as (a & Ha & Hta & Hrun)
  end.
  cbn [resultA] in Hrun. rewrite Hrun.
  rewrite bind_patch; cbv beta.
  unfold bind at 1.
  match goal with
  | |- context [tryCatch _ _ ?w5] =>
      destruct (attempt_block backend (imageBDescription scene) ctx size charImage 3
                              (id scene) resultB 2 w5)
        as (b & Hb & Htb & Hrun')
  end.
  cbn [resultB] in Hrun'. rewrite Hrun'.
  unfold ret at 1. rewrite updateSceneInState_ok.
  exists a, b.
  split; [exact Ha|]. split; [exact Hb|]. split; [exact Hta|]. split; [exact Htb|].
  unfold exec, sceneScript, segment. cbn [app fold_left act].
  rewrite Hta, Htb. reflexivity.
Qed.

Lemma repairScene_script backend ctx size charImage scene w :
  exists a b,
    goodAttempt a /\ goodAttempt b /\ tag a = 3 /\ tag b = 4
    /\ repairScene backend ctx size charImage scene w
       = (Ok Next,
          exec (sceneScript (id scene)
                            (if truthy (imageAUrl scene) then None else Some a)
                            (if truthy (imageBUrl scene) then None else Some b)) w).
Proof.
  unfold repairScene.
  rewrite bind_patch; cbv beta.
  unfold tryFinally.
  set (w1 := patched (id scene) (patchGenerating true) w).
  (* image A *)
  assert (HA : exists a,
             goodAttempt a /\ tag a = 3
             /\ (if negb (truthy (imageAUrl scene)) then
                   updateSceneInState (id scene) (patchRetryAttempt 3) ;;
                   tryCatch
                     (imageA <- generateSceneImageWithRetry backend (imageADescription scene)
                                  ctx size charImage 2 ;;
                      updateSceneInState (id scene) (patchImageA imageA))
                     (fun _ => updateSceneInState (id scene) patchImageAFailed)
                 else ret tt) w1
                = (Ok tt,
                   exec (segment (id scene) resultA
                                 (if truthy (imageAUrl scene) then None else Some a)) w1)).
  { destruct (truthy (imageAUrl scene)); cbn [negb].
    - exists {| tag := 3; activity := []; calls := 0; outcome := None |}.
      split; [split; [constructor|discriminate]|]. split; reflexivity.
    - rewrite bind_patch; cbv beta.
      match goal with
      | |- context [tryCatch _ _ ?w2] =>
          destruct (repair_block backend (imageADescription scene) ctx size charImage 2
                                 (id scene) resultA 3 w2)
            as (a & Ha & Hta & Hrun)
      end.
      cbn [resultA] in Hrun. rewrite Hrun.
      exists a. split; [exact Ha|]. split; [exact Hta|].
      unfold exec, segment. cbn [fold_left act]. rewrite Hta. reflexivity. }
  destruct HA as (a & Ha & Hta & HrunA).
  unfold bind at 1. rewrite HrunA.
  set (w2 := exec _ w1).
  assert (HB : exists b,
             goodAttempt b /\ tag b = 4
             /\ (if negb (truthy (imageBUrl scene)) then
                   updateSceneInState (id scene) (patchRetryAttempt 4) ;;
                   tryCatch
                     (imageB <- generateSceneImageWithRetry backend (imageBDescription scene)
                                  ctx size charImage 2 ;;
                      updateSceneInState (id scene) (patchImageB imageB))
                     (fun _ => updateSceneInState (id scene) patchImageBFailed)
                 else ret tt) w2
                = (Ok tt,
                   exec (segment (id scene) resultB
                                 (if truthy (imageBUrl scene) then None else Some b)) w2)).
  { destruct (truthy (imageBUrl scene)); cbn [negb].
    - exists {| tag := 4; activity := []; calls := 0; outcome := None |}.
      split; [split; [constructor|discriminate]|]. split; reflexivity.
    - rewrite bind_patch; cbv beta.
      match goal with
      | |- context [tryCatch _ _ ?w3] =>
          destruct (repair_block backend (imageBDescription scene) ctx size charImage 2
                                 (id scene) resultB 4 w3)
            as (b & Hb & Htb & Hrun)
      end.
      cbn [resultB] in Hrun. rewrite Hrun.
      exists b. split; [exact Hb|]. split; [exact Htb|].
      unfold exec, segment. cbn [fold_left act]. rewrite Htb. reflexivity. }
  destruct HB as (b & Hb & Htb & HrunB).
  unfold bind at 1. rewrite HrunB.
  unfold ret at 1. rewrite updateSceneInState_ok.
  exists a, b.
  split; [exact Ha|]. split; [exact Hb|]. split; [exact Hta|]. split; [exact Htb|].
  unfold sceneScript, exec. rewrite !fold_left_app. reflexivity.
Qed.

(* ------------------------------------------------------------------ *)
(** ** From the world to the store: a script is replayed by [play] *)

Lemma play_app sb s1 s2 :
  play sb (s1 ++ s2)
  = (fst (play sb s1) ++ fst (play (snd (play sb s1)) s2),
     snd (play (snd (play sb s1)) s2)).
Proof.
  revert sb. induction s1 as [|a s1 IH]; intros sb; cbn [app play].
  - cbn. destruct (play sb s2). reflexivity.
  - destruct a as [i u|evs k].
    + rewrite IH. destruct (play (stepStore i u sb) s1) as [es sb'].
      cbn [fst snd]. reflexivity.
    + rewrite IH. destruct (play sb s1) as [es sb'].
      cbn [fst snd]. rewrite app_assoc. reflexivity.
Qed.

Lemma exec_app s1 s2 w : exec (s1 ++ s2) w = exec s2 (exec s1 w).
Proof. unfold exec. apply fold_left_app. Qed.

Lemma exec_play script :
  forall w sb,
    storyboard w = Some sb ->
    storyboard (exec script w) = Some (snd (play sb script))
    /\ trace (exec script w) = trace w ++ fst (play sb script)
    /\ error (exec script w) = error w
    /\ hasApiKey (exec script w) = hasApiKey w.
Proof.
  induction script as [|a script IH]; intros w sb Hs.
  - cbn. rewrite app_nil_r. auto.
  - destruct a as [i u|evs k]; cbn [exec fold_left act play].
    + assert (Hp : storyboard (patched i u w) = Some (stepStore i u sb)
                   /\ trace (patched i u w)
                      = trace w ++ [EvPatch i u (Some sb) (Some (stepStore i u sb))]
                   /\ error (patched i u w) = error w
                   /\ hasApiKey (patched i u w) = hasApiKey w).
      { unfold patched, updateSceneInState. rewrite Hs. cbn. auto. }
      destruct Hp as (Hs1 & Ht1 & He1 & Hk1).
      destruct (IH (patched i u w) _ Hs1) as (Hs2 & Ht2 & He2 & Hk2).
      fold (exec script (patched i u w)).
      destruct (play (stepStore i u sb) script) as [es sb'].
      cbn [fst snd] in *.
      rewrite Hs2, Ht2, He2, Hk2, Ht1, He1, Hk1, <- app_assoc. auto.
    + destruct (IH (advance evs k w) sb Hs) as (Hs2 & Ht2 & He2 & Hk2).
      fold (exec script (advance evs k w)).
      destruct (play sb script) as [es sb'].
      cbn [fst snd] in *.
      rewrite Hs2, Ht2, He2, Hk2. cbn. rewrite <- app_assoc. auto.
Qed.

(** The ref follows the scene list of the store. *)
Lemma exec_ref script :
  forall w sb rb,
    storyboard w = Some sb -> storyboardRef w = Some rb -> scenes rb = scenes sb ->
    exists rb',
      storyboardRef (exec script w) = Some rb'
      /\ scenes rb' = scenes (snd (play sb script)).
Proof.
  induction script as [|a script IH]; intros w sb rb Hs Hr Hsc.
  - exists rb. cbn. auto.
  - destruct a as [i u|evs k]; cbn [exec fold_left act play].
    + fold (exec script (patched i u w)).
      assert (Hp : storyboard (patched i u w) = Some (stepStore i u sb)
                   /\ storyboardRef (patched i u w) = Some (stepStore i u sb)).
      { unfold patched, updateSceneInState. rewrite Hs. cbn. auto. }
      destruct Hp as (Hs1 & Hr1).
      destruct (IH (patched i u w) _ _ Hs1 Hr1 eq_refl) as (rb' & Hr2 & Hsc2).
      exists rb'. destruct (play (stepStore i u sb) script). auto.
    + fold (exec script (advance evs k w)).
      destruct (IH (advance evs k w) sb rb Hs Hr Hsc) as (rb' & Hr2 & Hsc2).
      exists rb'. destruct (play sb script). auto.
Qed.

(** A loop whose body always falls through runs the bodies in order. *)
Lemma forScenes_script (body : Scene -> M Flow) (R : Scene -> list Action -> Prop) :
  (forall scene w, exists script, R scene script /\ body scene w = (Ok Next, exec script w)) ->
  forall l w,
  exists scripts,
    Forall2 R l scripts /\ forScenes body l w = (Ok Next, exec (List.concat scripts) w).
Proof.
  intros Hbody. induction l as [|scene l IH]; intros w.
  - exists []. split; [constructor|reflexivity].
  - destruct (Hbody scene w) as (script & HR & Hrun).
    destruct (IH (exec script w)) as (scripts & HF & Hrest).
    exists (script :: scripts). split; [constructor; assumption|].
    cbn [forScenes List.concat]. unfold bind. rewrite Hrun, Hrest, exec_app. reflexivity.
Qed.

Lemma firstPass_script backend ctx size charImage l w :
  exists scripts,
    Forall2 firstPassItem l scripts
    /\ forScenes (firstPassScene backend ctx size charImage) l w
       = (Ok Next, exec (List.concat scripts) w).
Proof.
  apply forScenes_script. intros scene w0.
  destruct (firstPassScene_script backend ctx size charImage scene w0)
    as (a & b & Ha & Hb & Hta & Htb & Hrun).
  exists (sceneScript (id scene) (Some a) (Some b)).
  split; [exists a, b; auto|exact Hrun].
Qed.

Lemma retryMissingImages_script backend data size charImage ctx w rb :
  storyboardRef w = Some rb ->
  exists scripts,
    Forall2 repairItem (filter missingImage (scenes rb)) scripts
    /\ retryMissingImages backend data size charImage ctx w
       = (Ok tt, exec (List.concat scripts) w).
Proof.
  intros Hr. unfold retryMissingImages. rewrite Hr.
  destruct (forScenes_script (repairScene backend ctx size charImage) repairItem)
    with (l := filter missingImage (scenes rb)) (w := w)
    as (scripts & HF & Hrun).
  { intros scene w0.
    destruct (repairScene_script backend ctx size charImage scene w0)
      as (a & b & Ha & Hb & Hta & Htb & Hrun).
    eexists. split; [exists a, b; eauto|exact Hrun]. }
  exists scripts. split; [exact HF|].
  destruct (filter missingImage (scenes rb)) as [|s l] eqn:E.
  - inversion HF. reflexivity.
  - unfold bind. rewrite Hrun. reflexivity.
Qed.

(** The whole pipeline is one script: the first pass over the scenes of
    the plan, then the repair pass over the scenes that the first pass left
    with an image missing.  It always returns. *)
Lemma processImagesQueue_script backend data size charImage w sb rb :
  storyboard w = Some sb -> storyboardRef w = Some rb -> scenes rb = scenes sb ->
  exists first repair,
    Forall2 firstPassItem (scenes data) first
    /\ Forall2 repairItem
               (filter missingImage (scenes (snd (play sb (List.concat first))))) repair
    /\ processImagesQueue backend data size charImage w
       = (Ok tt, exec (List.concat first ++ List.concat repair) w).
Proof.
  intros Hs Hr Hsc. unfold processImagesQueue.
  destruct (firstPass_script backend (consistencyContextOf data) size charImage
                             (scenes data) w)
    as (first & HF & Hrun).
  destruct (exec_ref (List.concat first) w Hs Hr Hsc) as (rb' & Hr' & Hsc').
  destruct (retryMissingImages_script backend data size charImage
                                      (consistencyContextOf data) _ Hr')
    as (repair & HR & Hrun').
  exists first, repair.
  split; [exact HF|]. split; [rewrite <- Hsc'; exact HR|].
  unfold bind. rewrite Hrun, Hrun', exec_app. reflexivity.
Qed.

(** Whatever the backend does, the pipeline returns normally and touches
    neither the error message nor the API key state: its abort branch is
    unreachable. *)
Lemma processImagesQueue_never_aborts backend data size charImage w :
  started data w ->
  fst (processImagesQueue backend data size charImage w) = Ok tt
  /\ error (snd (processImagesQueue backend data size charImage w)) = error w
  /\ hasApiKey (snd (processImagesQueue backend data size charImage w)) = hasApiKey w.
Proof.
  intros (sb & rb & Hs & Hr & Hsc & Hrc).
  destruct (@processImagesQueue_script backend data size charImage w sb rb Hs Hr)
    as (first & repair & _ & _ & Hrun); [congruence|].
  rewrite Hrun. cbn [fst snd].
  destruct (@exec_play (List.concat first ++ List.concat repair) w sb Hs)
    as (_ & _ & He & Hk).
  auto.
Qed.

(* ------------------------------------------------------------------ *)
(** ** Scene patches on a scene list *)

Unset Implicit Arguments.

Lemma in_patchScenes i u l s' :
  In s' (patchScenes i u l)
  <-> exists s, In s l /\ s' = (if id s =? i then spreadScene s u else s).
Proof.
  unfold patchScenes. rewrite in_map_iff. split.
  - intros (s & Heq & Hin). exists s. auto.
  - intros (s & Hin & Heq). exists s. auto.
Qed.

Lemma ids_patchScenes i u l : ids (patchScenes i u l) = ids l.
Proof.
  unfold ids, patchScenes. rewrite map_map. apply map_ext.
  intros s. destruct (id s =? i); reflexivity.
Qed.

Lemma ids_stepStore i u sb : ids (scenes (stepStore i u sb)) = ids (scenes sb).
Proof. apply ids_patchScenes. Qed.

(** An invariant of the scene list that every action of a script keeps
    holds after the script, and every event of the script is good if every
    single update is. *)
Lemma play_invariant (Inv : list Scene -> Prop) (Good : Event -> Prop)
      (allowed : Action -> Prop) :
  (forall i u l, allowed (ActPatch i u) -> Inv l -> Inv (patchScenes i u l)) ->
  (forall i u sb, allowed (ActPatch i u) -> Inv (scenes sb) ->
                  Good (EvPatch i u (Some sb) (Some (stepStore i u sb)))) ->
  (forall evs k, allowed (ActIO evs k) -> Forall Good evs) ->
  forall script sb,
    Forall allowed script -> Inv (scenes sb) ->
    Forall Good (fst (play sb script)) /\ Inv (scenes (snd (play sb script))).
Proof.
  intros Hstep Hgood Hio.
  induction script as [|a script IH]; intros sb Hall Hinv.
  - cbn. auto.
  - inversion Hall as [|? ? Ha Hrest]; subst.
    destruct a as [i u|evs k]; cbn [play].
    + destruct (IH (stepStore i u sb) Hrest) as (Hg & Hi).
      { apply Hstep; assumption. }
      destruct (play (stepStore i u sb) script) as [es sb']. cbn [fst snd] in *.
      split; [constructor; [apply Hgood; assumption|exact Hg]|exact Hi].
    + destruct (IH sb Hrest Hinv) as (Hg & Hi).
      destruct (play sb script) as [es sb']. cbn [fst snd] in *.
      split; [apply Forall_app; split; [eapply Hio; eassumption|exact Hg]|exact Hi].
Qed.

Lemma ids_play script sb : ids (scenes (snd (play sb script))) = ids (scenes sb).
Proof.
  revert sb. induction script as [|a script IH]; intros sb; [reflexivity|].
  destruct a as [i u|evs k]; cbn [play].
  - specialize (IH (stepStore i u sb)).
    destruct (play (stepStore i u sb) script). cbn [snd] in *.
    rewrite IH. apply ids_stepStore.
  - specialize (IH sb). destruct (play sb script). exact IH.
Qed.

Lemma play_patch_snd i u rest sb :
  snd (play sb (ActPatch i u :: rest)) = snd (play (stepStore i u sb) rest).
Proof. cbn [play]. destruct (play (stepStore i u sb) rest). reflexivity. Qed.

Lemma play_patch_fst i u rest sb :
  fst (play sb (ActPatch i u :: rest))
  = EvPatch i u (Some sb) (Some (stepStore i u sb)) :: fst (play (stepStore i u sb) rest).
Proof. cbn [play]. destruct (play (stepStore i u sb) rest). reflexivity. Qed.

Lemma play_io_snd evs k rest sb :
  snd (play sb (ActIO evs k :: rest)) = snd (play sb rest).
Proof. cbn [play]. destruct (play sb rest). reflexivity. Qed.

Lemma play_io_fst evs k rest sb :
  fst (play sb (ActIO evs k :: rest)) = evs ++ fst (play sb rest).
Proof. cbn [play]. destruct (play sb rest). reflexivity. Qed.

Lemma firstPassItem_sceneItem scene script :
  firstPassItem scene script -> sceneItem always always scene script.
Proof.
  intros (a & b & Ha & Hb & Hta & Htb & ->).
  exists a, b. unfold always. auto 10.
Qed.

Lemma repairItem_sceneItem scene script :
  repairItem scene script -> sceneItem lacksA lacksB scene script.
Proof.
  intros (a & b & Ha & Hb & Hta & Htb & ->).
  exists a, b. unfold lacksA, lacksB.
  destruct (truthy (imageAUrl scene)), (truthy (imageBUrl scene)); cbn [negb]; auto 10.
Qed.

Lemma Forall2_impl (A B : Type) (R R' : A -> B -> Prop) l l' :
  (forall x y, R x y -> R' x y) -> Forall2 R l l' -> Forall2 R' l l'.
Proof. intros H. induction 1; constructor; auto. Qed.

Lemma resultA_benign a : goodAttempt a -> benign (resultA (outcome a)).
Proof.
  intros (_ & Hu). unfold benign, resultA.
  destruct (outcome a) as [url|]; cbn -[truthy]; split;
    try (apply Hu; reflexivity); discriminate.
Qed.

Lemma resultB_benign b : goodAttempt b -> benign (resultB (outcome b)).
Proof.
  intros (_ & Hu). unfold benign, resultB.
  destruct (outcome b) as [url|]; cbn -[truthy]; split;
    try (apply Hu; reflexivity); discriminate.
Qed.

Lemma sceneItem_benign needA needB scene script :
  sceneItem needA needB scene script -> Forall benignAction script.
Proof.
  intros (a & b & Ha & Hb & _ & _ & ->).
  pose proof (resultA_benign a Ha) as HA. pose proof (resultB_benign b Hb) as HB.
  assert (Hg : forall f, benign (patchGenerating f)) by (intros f; split; discriminate).
  assert (Hr : forall n, benign (patchRetryAttempt n)) by (intros n; split; discriminate).
  unfold sceneScript, segment.
  destruct (needA scene), (needB scene); cbn [app];
    repeat (constructor; cbn [benignAction]; auto; try apply Ha; try apply Hb).
Qed.

Lemma sceneItem_targets needA needB scene script :
  sceneItem needA needB scene script -> Forall (targets (id scene)) script.
Proof.
  intros (a & b & Ha & Hb & _ & _ & ->).
  unfold sceneScript, segment.
  destruct (needA scene), (needB scene); cbn [app];
    repeat (constructor; cbn [targets]; auto; try apply Ha; try apply Hb).
Qed.

(* ------------------------------------------------------------------ *)
(** ** Every scene ends up attempted (C2) *)

Lemma attemptedA_spread s u :
  benign u -> attemptedA s = true -> attemptedA (spreadScene s u) = true.
Proof.
  intros (HA & _). unfold attemptedA, spreadScene. cbn [imageAUrl imageAFailed].
  destruct (uImageAUrl u) as [url|]; cbn [spreadKey].
  - rewrite HA. reflexivity.
  - destruct (uImageAFailed u) as [[|]|]; cbn [spreadKey flag]; intros H.
    + apply orb_true_r.
    + exfalso. apply HA. reflexivity.
    + exact H.
Qed.

Lemma attemptedB_spread s u :
  benign u -> attemptedB s = true -> attemptedB (spreadScene s u) = true.
Proof.
  intros (_ & HB). unfold attemptedB, spreadScene. cbn [imageBUrl imageBFailed].
  destruct (uImageBUrl u) as [url|]; cbn [spreadKey].
  - rewrite HB. reflexivity.
  - destruct (uImageBFailed u) as [[|]|]; cbn [spreadKey flag]; intros H.
    + apply orb_true_r.
    + exfalso. apply HB. reflexivity.
    + exact H.
Qed.

Lemma holdsOn_patch (att : Scene -> bool) (P : Z -> Prop) i u l :
  (forall s, att s = true -> att (spreadScene s u) = true) ->
  holdsOn att P l -> holdsOn att P (patchScenes i u l).
Proof.
  intros Hatt H s' Hin HP.
  apply in_patchScenes in Hin. destruct Hin as (s & Hin & ->).
  destruct (id s =? i).
  - apply Hatt. apply H; assumption.
  - apply H; assumption.
Qed.

Lemma holdsOn_play (att : Scene -> bool) (P : Z -> Prop) script sb :
  (forall s u, benign u -> att s = true -> att (spreadScene s u) = true) ->
  Forall benignAction script ->
  holdsOn att P (scenes sb) -> holdsOn att P (scenes (snd (play sb script))).
Proof.
  intros Hatt Hall H.
  apply (play_invariant (holdsOn att P) (fun _ => True) benignAction); auto.
  - intros i u l Hb. apply holdsOn_patch. intros s. apply Hatt. exact Hb.
  - intros evs k _. apply Forall_forall. auto.
Qed.

Lemma resultA_settles i a l :
  goodAttempt a ->
  holdsOn attemptedA (eq i) (patchScenes i (resultA (outcome a)) l).
Proof.
  intros (_ & Hu) s' Hin Hid. apply in_patchScenes in Hin. destruct Hin as (s & Hin & ->).
  destruct (id s =? i) eqn:E.
  - unfold attemptedA, resultA.
    destruct (outcome a) as [url|]; cbn -[truthy]; [|apply orb_true_r].
    rewrite (Hu url eq_refl). reflexivity.
  - apply Z.eqb_neq in E. congruence.
Qed.

Lemma resultB_settles i b l :
  goodAttempt b ->
  holdsOn attemptedB (eq i) (patchScenes i (resultB (outcome b)) l).
Proof.
  intros (_ & Hu) s' Hin Hid. apply in_patchScenes in Hin. destruct Hin as (s & Hin & ->).
  destruct (id s =? i) eqn:E.
  - unfold attemptedB, resultB.
    destruct (outcome b) as [url|]; cbn -[truthy]; [|apply orb_true_r].
    rewrite (Hu url eq_refl). reflexivity.
  - apply Z.eqb_neq in E. congruence.
Qed.

Lemma items_benign needA needB l scripts :
  Forall2 (sceneItem needA needB) l scripts -> Forall benignAction (List.concat scripts).
Proof.
  induction 1 as [|scene script l scripts Hitem _ IH]; cbn [List.concat].
  - constructor.
  - apply Forall_app. split; [eapply sceneItem_benign; eassumption|exact IH].
Qed.

(** After the first pass script of a scene, the scenes with its number
    have both images attempted. *)
Lemma firstPassItem_attempts scene script sb :
  firstPassItem scene script ->
  holdsOn attemptedA (eq (id scene)) (scenes (snd (play sb script)))
  /\ holdsOn attemptedB (eq (id scene)) (scenes (snd (play sb script))).
Proof.
  intros (a & b & Ha & Hb & Hta & Htb & ->).
  set (i := id scene).
  assert (Hg : forall f, benign (patchGenerating f)) by (intros f; split; discriminate).
  assert (Hr : forall n, benign (patchRetryAttempt n)) by (intros n; split; discriminate).
  split.
  - change (sceneScript i (Some a) (Some b))
      with ([ActPatch i (patchGenerating true); ActPatch i (patchRetryAttempt (tag a));
             ActIO (activity a) (calls a)]
            ++ ActPatch i (resultA (outcome a))
               :: [ActPatch i (patchRetryAttempt (tag b)); ActIO (activity b) (calls b);
                   ActPatch i (resultB (outcome b)); ActPatch i (patchGenerating false)]).
    rewrite play_app. cbn [snd].
    set (sb1 := snd (play sb _)).
    rewrite play_patch_snd.
    apply holdsOn_play; [exact attemptedA_spread| |].
    + repeat (apply Forall_cons || apply Forall_nil); cbn [benignAction];
        first [apply Hr | apply Hg | apply Hb | apply resultB_benign; exact Hb].
    + apply resultA_settles. exact Ha.
  - change (sceneScript i (Some a) (Some b))
      with ([ActPatch i (patchGenerating true); ActPatch i (patchRetryAttempt (tag a));
             ActIO (activity a) (calls a); ActPatch i (resultA (outcome a));
             ActPatch i (patchRetryAttempt (tag b)); ActIO (activity b) (calls b)]
            ++ ActPatch i (resultB (outcome b)) :: [ActPatch i (patchGenerating false)]).
    rewrite play_app. cbn [snd].
    set (sb1 := snd (play sb _)).
    rewrite play_patch_snd. cbn [play snd].
    apply holdsOn_patch; [intros s; apply attemptedA_spread || apply attemptedB_spread; auto|].
    apply resultB_settles. exact Hb.
Qed.

Lemma firstPass_attempts :
  forall l scripts,
    Forall2 firstPassItem l scripts ->
    forall sb,
      holdsOn attemptedA (fun i => In i (ids l)) (scenes (snd (play sb (List.concat scripts))))
      /\ holdsOn attemptedB (fun i => In i (ids l))
                  (scenes (snd (play sb (List.concat scripts)))).
Proof.
  induction 1 as [|scene script l scripts Hitem Hrest IH]; intros sb.
  - split; intros s _ [].
  - cbn [List.concat]. rewrite play_app. cbn [snd].
    set (sb1 := snd (play sb script)).
    destruct (firstPassItem_attempts scene script sb Hitem) as (HA & HB). fold sb1 in HA, HB.
    destruct (IH sb1) as (IA & IB).
    assert (Hben : Forall benignAction (List.concat scripts)).
    { apply (items_benign always always l).
      eapply Forall2_impl; [|exact Hrest]. apply firstPassItem_sceneItem. }
    split; intros s Hin [Hid|Hid].
    + apply (holdsOn_play attemptedA (eq (id scene)) (List.concat scripts) sb1
                          attemptedA_spread Hben HA s Hin Hid).
    + apply IA; assumption.
    + apply (holdsOn_play attemptedB (eq (id scene)) (List.concat scripts) sb1
                          attemptedB_spread Hben HB s Hin Hid).
    + apply IB; assumption.
Qed.

Lemma newEvents_app w w' es : trace w' = trace w ++ es -> newEvents w w' = es.
Proof.
  intros H. unfold newEvents. rewrite H, skipn_app, skipn_all, Nat.sub_diag.
  reflexivity.
Qed.

Lemma attempted_settled s :
  attemptedA s = true -> attemptedB s = true -> settled s = true.
Proof.
  unfold attemptedA, attemptedB, settled.
  destruct (truthy (imageAUrl s)), (truthy (imageBUrl s)),
    (flag (imageAFailed s)), (flag (imageBFailed s)); cbn; congruence.
Qed.

(** C2. Started on a store that holds the scenes of the plan, the pipeline
    returns (it neither throws nor stops early nor loops), the store still
    holds the same scenes in the same order, and each of them is settled:
    both images are set, or [imageAFailed] or [imageBFailed] is true. *)
Theorem processImagesQueue_settles_every_scene
        (backend : Backend) (data : StoryboardData) (size : ImageSize)
        (charImage : option string) (w : World) :
  started data w ->
  let out := processImagesQueue backend data size charImage w in
  fst out = Ok tt
  /\ exists sb',
      storyboard (snd out) = Some sb'
      /\ ids (scenes sb') = ids (scenes data)
      /\ Forall (fun s => settled s = true) (scenes sb').
Proof.
  intros (sb & rb & Hs & Hr & Hsc & Hrc) out. subst out.
  destruct (@processImagesQueue_script backend data size charImage w sb rb Hs Hr)
    as (first & repair & HF & HR & Hrun); [congruence|].
  rewrite Hrun. cbn [fst snd]. split; [reflexivity|].
  destruct (@exec_play (List.concat first ++ List.concat repair) w sb Hs) as (Hs' & _).
  eexists. split; [exact Hs'|].
  split; [rewrite ids_play, Hsc; reflexivity|].
  rewrite play_app. cbn [snd].
  set (sb1 := snd (play sb (List.concat first))).
  destruct (firstPass_attempts (scenes data) first HF sb) as (HA & HB).
  fold sb1 in HA, HB.
  assert (Hben : Forall benignAction (List.concat repair)).
  { eapply (items_benign lacksA lacksB).
    eapply Forall2_impl; [|exact HR]. apply repairItem_sceneItem. }
  pose proof (holdsOn_play attemptedA _ _ sb1 attemptedA_spread Hben HA) as HA'.
  pose proof (holdsOn_play attemptedB _ _ sb1 attemptedB_spread Hben HB) as HB'.
  apply Forall_forall. intros s Hin.
  assert (Hid : In (id s) (ids (scenes data))).
  { rewrite <- Hsc, <- (ids_play (List.concat first) sb).
    fold sb1. rewrite <- (ids_play (List.concat repair) sb1).
    unfold ids. apply in_map. exact Hin. }
  apply attempted_settled; [apply HA'|apply HB']; assumption.
Qed.

Lemma processImagesQueue_settles_every_scene_witness :
  started samplePlan (startWorld samplePlan)
  /\ fst (processImagesQueue backendFlaky samplePlan Size1K None (startWorld samplePlan))
     = Ok tt
  /\ exists sb',
      storyboard (snd (processImagesQueue backendFlaky samplePlan Size1K None
                                          (startWorld samplePlan))) = Some sb'
      /\ ids (scenes sb') = ids (scenes samplePlan)
      /\ Forall (fun s => settled s = true) (scenes sb').
Proof.
  assert (H : started samplePlan (startWorld samplePlan)).
  { exists samplePlan, samplePlan. repeat split; reflexivity. }
  split; [exact H|].
  exact (processImagesQueue_settles_every_scene backendFlaky samplePlan Size1K None
                                                (startWorld samplePlan) H).
Defined.

(* ------------------------------------------------------------------ *)
(** ** One scene in flight, in the order of the state machine (C7) *)











Lemma quiet_count l : quiet l -> filter generating l = [].
Proof.
  induction l as [|s l IH]; intros H; [reflexivity|].
  cbn [filter]. rewrite (H s (or_introl eq_refl)).
  apply IH. intros s' Hin. apply H. right. exact Hin.
Qed.







(* ------------------------------------------------------------------ *)
(** ** No update takes an image away (C9) *)

Lemma Forall2_map_r (A : Type) (R : A -> A -> Prop) (f : A -> A) l :
  (forall x, In x l -> R x (f x)) -> Forall2 R l (map f l).
Proof.
  induction l as [|x l IH]; intros H; cbn [map]; constructor.
  - apply H. left. reflexivity.
  - apply IH. intros y Hy. apply H. right. exact Hy.
Qed.

Lemma keepsImages_refl s : keepsImages s s.
Proof. repeat split. Qed.

Lemma keeps_patch i u l :
  (uImageAUrl u = None \/ freshA i l) ->
  (uImageBUrl u = None \/ freshB i l) ->
  Forall2 keepsImages l (patchScenes i u l).
Proof.
  intros HA HB. apply Forall2_map_r. intros s Hin.
  destruct (id s =? i) eqn:E; [|apply keepsImages_refl].
  apply Z.eqb_eq in E.
  split; [reflexivity|]. cbn [spreadScene imageAUrl imageBUrl]. split; intros Ht.
  - destruct HA as [-> | HA]; [reflexivity|].
    rewrite (HA s Hin E) in Ht. discriminate.
  - destruct HB as [-> | HB]; [reflexivity|].
    rewrite (HB s Hin E) in Ht. discriminate.
Qed.

Lemma freshA_patch i j u l :
  (uImageAUrl u = None \/ i <> j) -> freshA j l -> freshA j (patchScenes i u l).
Proof.
  intros H Hf s' Hin Hid. apply in_patchScenes in Hin. destruct Hin as (s & Hin & ->).
  destruct (id s =? i) eqn:E.
  - apply Z.eqb_eq in E. cbn [spreadScene id imageAUrl] in *.
    destruct H as [-> | H]; [apply Hf; assumption|congruence].
  - apply Hf; assumption.
Qed.

Lemma freshB_patch i j u l :
  (uImageBUrl u = None \/ i <> j) -> freshB j l -> freshB j (patchScenes i u l).
Proof.
  intros H Hf s' Hin Hid. apply in_patchScenes in Hin. destruct Hin as (s & Hin & ->).
  destruct (id s =? i) eqn:E.
  - apply Z.eqb_eq in E. cbn [spreadScene id imageBUrl] in *.
    destruct H as [-> | H]; [apply Hf; assumption|congruence].
  - apply Hf; assumption.
Qed.

Lemma isIO_preservesImages ev : isIO ev -> preservesImages ev.
Proof. destruct ev; cbn; try contradiction; auto. Qed.

(** The script of a scene leaves the images of the other scenes alone. *)
Lemma sceneItem_fresh_elsewhere needA needB scene script j sb :
  sceneItem needA needB scene script -> id scene <> j ->
  (freshA j (scenes sb) -> freshA j (scenes (snd (play sb script))))
  /\ (freshB j (scenes sb) -> freshB j (scenes (snd (play sb script)))).
Proof.
  intros Hitem Hne.
  pose proof (sceneItem_targets _ _ _ _ Hitem) as Ht.
  split; intros Hf.
  - apply (play_invariant (freshA j) (fun _ => True) (targets (id scene))); auto.
    + intros i u l Hi. cbn in Hi. subst i. apply freshA_patch. right. exact Hne.
    + intros evs k _. apply Forall_forall. auto.
  - apply (play_invariant (freshB j) (fun _ => True) (targets (id scene))); auto.
    + intros i u l Hi. cbn in Hi. subst i. apply freshB_patch. right. exact Hne.
    + intros evs k _. apply Forall_forall. auto.
Qed.

(** The script of a scene sets an image only where none is set. *)
Lemma sceneItem_preserves needA needB scene script sb :
  sceneItem needA needB scene script ->
  (needA scene = true -> freshA (id scene) (scenes sb)) ->
  (needB scene = true -> freshB (id scene) (scenes sb)) ->
  Forall preservesImages (fst (play sb script)).
Proof.
  intros (a & b & (Hioa & _) & (Hiob & _) & _ & _ & ->) HfA HfB.
  pose proof (Forall_impl _ isIO_preservesImages Hioa) as HA.
  pose proof (Forall_impl _ isIO_preservesImages Hiob) as HB.
  unfold sceneScript, segment.
  destruct (needA scene), (needB scene), (outcome a), (outcome b); cbn [app resultA resultB];
    rewrite ?play_patch_fst, ?play_io_fst; cbn [play fst];
    repeat first [ apply Forall_cons | apply Forall_nil | apply Forall_app; split ];
    try assumption;
    unfold preservesImages; cbn [stepStore withScenes scenes];
    (apply keeps_patch;
     first
       [ left; reflexivity
       | right; repeat (apply freshA_patch; [left; reflexivity|]); apply HfA; reflexivity
       | right; repeat (apply freshB_patch; [left; reflexivity|]); apply HfB; reflexivity ]).
Qed.

Lemma items_preserve needA needB :
  forall l scripts,
    Forall2 (sceneItem needA needB) l scripts ->
    NoDup (ids l) ->
    forall sb,
      (forall scene, In scene l ->
                     (needA scene = true -> freshA (id scene) (scenes sb))
                     /\ (needB scene = true -> freshB (id scene) (scenes sb))) ->
      Forall preservesImages (fst (play sb (List.concat scripts))).
Proof.
  induction 1 as [|scene script l scripts Hitem _ IH]; intros Hnd sb Hfresh.
  - constructor.
  - cbn [ids map] in Hnd. inversion Hnd as [|? ? Hnotin Hnd']; subst.
    cbn [List.concat]. rewrite play_app. cbn [fst].
    apply Forall_app. split.
    + destruct (Hfresh scene (or_introl eq_refl)) as (HfA & HfB).
      eapply sceneItem_preserves; eassumption.
    + apply IH; [exact Hnd'|].
      intros scene' Hin.
      assert (Hne : id scene <> id scene').
      { intros Heq. apply Hnotin. rewrite Heq. apply in_map. exact Hin. }
      destruct (Hfresh scene' (or_intror Hin)) as (HfA & HfB).
      destruct (sceneItem_fresh_elsewhere _ _ _ _ (id scene') sb Hitem Hne) as (KA & KB).
      split; intros Hn; [apply KA, HfA, Hn|apply KB, HfB, Hn].
Qed.

Lemma NoDup_ids_filter (f : Scene -> bool) l : NoDup (ids l) -> NoDup (ids (filter f l)).
Proof.
  induction l as [|s l IH]; intros H; [constructor|].
  cbn [ids map] in H. inversion H as [|? ? Hnotin Hnd]; subst.
  cbn [filter]. destruct (f s); [|apply IH; exact Hnd].
  cbn [ids map]. constructor; [|apply IH; exact Hnd].
  intros Hin. apply Hnotin. unfold ids in *.
  apply in_map_iff in Hin. destruct Hin as (s' & Heq & Hin).
  apply filter_In in Hin. rewrite <- Heq. apply in_map. apply Hin.
Qed.

Lemma NoDup_ids_inj l s s' :
  NoDup (ids l) -> In s l -> In s' l -> id s = id s' -> s = s'.
Proof.
  induction l as [|x l IH]; intros H Hs Hs' Heq; [contradiction|].
  cbn [ids map] in H. inversion H as [|? ? Hnotin Hnd]; subst.
  destruct Hs as [<-|Hs], Hs' as [<-|Hs'].
  - reflexivity.
  - exfalso. apply Hnotin. rewrite Heq. apply in_map. exact Hs'.
  - exfalso. apply Hnotin. rewrite <- Heq. apply in_map. exact Hs.
  - apply IH; assumption.
Qed.




(* ------------------------------------------------------------------ *)
(** ** The pipeline as [handleGenerate] starts it *)

Lemma generateContent_run backend req w :
  generateContent backend req w
  = (match backend (ncalls w) req with
     | inl e => Throw e
     | inr response => Ok response
     end,
     advance [EvGenerate (ncalls w) req] 1 w).
Proof.
  unfold generateContent.
  assert (Hw : tick (emit (EvGenerate (ncalls w) req) w)
               = advance [EvGenerate (ncalls w) req] 1 w).
  { unfold tick, emit, advance. simpl. f_equal. lia. }
  rewrite Hw. destruct (backend (ncalls w) req); reflexivity.
Qed.

Lemma createCharacter_activity backend description w :
  exists evs k r, createCharacter backend description w = (r, advance evs k w).
Proof.
  unfold createCharacter, bind. rewrite generateContent_run.
  destruct (backend (ncalls w) _) as [e|response]; [eauto|].
  destruct (firstImage (candidatesOrEmpty response)); unfold ret, throw; eauto.
Qed.

Lemma viewLoop_activity backend req viewName :
  forall fuel retryCount results w,
  exists evs k r,
    viewLoop backend fuel retryCount req viewName results w = (r, advance evs k w).
Proof.
  induction fuel as [|fuel IH]; intros retryCount results w; cbn [viewLoop].
  - destruct (retryCount <? 3); unfold outOfFuel, ret;
      exists [], 0%nat; rewrite advance_nil; eauto.
  - destruct (retryCount <? 3).
    + unfold bind at 1. unfold caught at 1. unfold bind at 1.
      rewrite generateContent_run.
      destruct (backend (ncalls w) req) as [e|response].
      * unfold bind at 1.
        destruct (retryCount + 1 <? 3).
        -- unfold sleep at 1. rewrite emit_wait_advance, advance_advance.
           match goal with
           | |- context [viewLoop _ _ ?rc _ _ ?res ?w1] =>
               destruct (IH rc res w1) as (evs & k & r & Hrun)
           end.
           rewrite Hrun, advance_advance. eauto.
        -- unfold ret at 1.
           match goal with
           | |- context [viewLoop _ _ ?rc _ _ ?res ?w1] =>
               destruct (IH rc res w1) as (evs & k & r & Hrun)
           end.
           rewrite Hrun, advance_advance. eauto.
      * unfold ret at 1.
        destruct (truthy (Some (getView viewName
                                        (assignView viewName (candidatesOrEmpty response)
                                                    results)))).
        -- unfold ret. eauto.
        -- match goal with
           | |- context [viewLoop _ _ ?rc _ _ ?res ?w1] =>
               destruct (IH rc res w1) as (evs & k & r & Hrun)
           end.
           rewrite Hrun, advance_advance. eauto.
    + unfold ret. exists [], 0%nat. rewrite advance_nil. eauto.
Qed.

Lemma forViews_activity backend fuel description image :
  forall vs results w,
  exists evs k r,
    forViews backend fuel description image vs results w = (r, advance evs k w).
Proof.
  induction vs as [|[viewName viewDescription] vs IH]; intros results w; cbn [forViews].
  - unfold ret. exists [], 0%nat. rewrite advance_nil. eauto.
  - unfold bind.
    destruct (viewLoop_activity backend
                (referenceViewRequest description image viewDescription)
                viewName fuel 0 results w) as (evs & k & r & Hrun).
    rewrite Hrun. destruct r as [results'| |]; eauto.
    destruct (IH results' (advance evs k w)) as (evs' & k' & r' & Hrun').
    rewrite Hrun', advance_advance. eauto.
Qed.

(** When [handleGenerate] gets as far as starting the pipeline, it starts it
    on the plan that the store and the ref hold (the store with the
    reference sheet, when that was built). *)
Lemma handleGenerateForeground_started backend parse instruction fuel script size w
      data size' image :
  fst (handleGenerateForeground backend parse instruction fuel script size w)
  = Ok (Some (data, size', image)) ->
  started data (snd (handleGenerateForeground backend parse instruction fuel script size w)).
Proof.
  destruct (handleGenerateForeground backend parse instruction fuel script size w)
    as [res w'] eqn:E.
  cbn [fst snd]. intros ->.
  unfold handleGenerateForeground in E.
  unfold bind at 1 2 3 4 5 in E.
  unfold setIsAnalyzing at 1, setError at 1, setStoryboard at 1, setStoryboardRef at 1,
    setCharacterImage at 1 in E.
  unfold tryFinally at 1 in E. unfold tryCatch at 1 in E.
  unfold bind at 1 in E. rewrite generateStoryboardAnalysis_run in E.
  match type of E with
  | context [match ?b with inl _ => _ | inr _ => _ end] => destruct b as [e|response]
  end.
  { destruct (isAuthorizationError (errorText e)); cbn in E; discriminate. }
  destruct (text response) as [payload|]; [|cbn in E; discriminate].
  destruct (payload =? "")%string; [cbn in E; discriminate|].
  destruct (parse payload) as [plan|]; [|cbn in E; discriminate].
  unfold bind at 1 in E. unfold setStoryboard at 1 in E.
  unfold bind at 1 in E. unfold setStoryboardRef at 1 in E.
  unfold bind at 1 in E.
  match type of E with
  | context [createCharacter backend ?d ?w1] =>
      destruct (createCharacter_activity backend d w1) as (evs & k & r & Hrun)
  end.
  rewrite Hrun in E.
  destruct r as [img|e|].
  2: { destruct (isAuthorizationError (errorText e)); cbn in E; discriminate. }
  2: { cbn in E. discriminate. }
  unfold bind at 1 in E. unfold setCharacterImage at 1 in E.
  unfold bind at 1 in E. unfold setIsGeneratingCharacterSheet at 1 in E.
  unfold bind at 1 in E. unfold tryFinally at 1 in E. unfold tryCatch at 1 in E.
  unfold bind at 1 in E.
  unfold createCharacterReferenceSheet in E.
  match type of E with
  | context [forViews backend fuel ?d ?i ?vs ?res ?w1] =>
      destruct (forViews_activity backend fuel d i vs res w1) as (evs' & k' & r' & Hrun')
  end.
  rewrite Hrun' in E.
  destruct r' as [sheet|e|]; cbn in E; [| |discriminate];
    inversion E; subst;
    eexists _, _; cbn; repeat split; reflexivity.
Qed.

(* ------------------------------------------------------------------ *)
(** * Further properties of the sources *)

(** ** The retry wrapper for any budget *)

(** As long as the attempts fail, the loop goes on with the next attempt
    number, one iteration less and the last error in hand.  [errs] gives the
    error of a call by the ordinal of the call. *)
Lemma retryLoop_failures backend description ctx size charImage maxRetries
      (errs : nat -> JsError) :
  let req := sceneImageRequest description ctx size charImage in
  forall j remaining attempt lastError w,
    (forall i, (i < j)%nat ->
               attemptResult backend req (ncalls w + i) = inl (errs (ncalls w + i)%nat)) ->
    retryLoop backend (j + remaining) attempt maxRetries lastError
              description ctx size charImage w
    = retryLoop backend remaining (attempt + Z.of_nat j) maxRetries
                (match j with
                 | O => lastError
                 | S j' => Some (errs (ncalls w + j')%nat)
                 end)
                description ctx size charImage
                (advance (failedEvents req maxRetries (ncalls w) attempt j) j w).
Proof.
  intros req. induction j as [|j IH]; intros remaining attempt lastError w Hfail.
  - cbn [failedEvents Nat.add]. rewrite advance_nil, Z.add_0_r. reflexivity.
  - cbn [Nat.add retryLoop]. unfold bind at 1. unfold caught at 1.
    rewrite generateSceneImage_run. fold req.
    pose proof (Hfail O ltac:(lia)) as H0. rewrite Nat.add_0_r in H0. rewrite H0.
    unfold bind at 1.
    assert (Hgo : forall evs,
               retryLoop backend (j + remaining) (attempt + 1) maxRetries
                         (Some (errs (ncalls w))) description ctx size charImage
                         (advance (EvGenerate (ncalls w) req :: evs) 1 w)
               = retryLoop backend remaining (attempt + Z.of_nat (S j)) maxRetries
                           (Some (errs (ncalls w + j)%nat)) description ctx size charImage
                           (advance (EvGenerate (ncalls w) req
                                       :: evs ++ failedEvents req maxRetries (S (ncalls w))
                                                              (attempt + 1) j)
                                    (S j) w)).
    { intros evs.
      rewrite (IH remaining (attempt + 1) (Some (errs (ncalls w)))
                  (advance (EvGenerate (ncalls w) req :: evs) 1 w)).
      - rewrite advance_advance.
        replace (ncalls (advance (EvGenerate (ncalls w) req :: evs) 1 w))
          with (S (ncalls w)) by (cbn; lia).
        replace (attempt + 1 + Z.of_nat j) with (attempt + Z.of_nat (S j)) by lia.
        replace (1 + j)%nat with (S j) by lia.
        cbn [app].
        destruct j as [|j'].
        + rewrite Nat.add_0_r. reflexivity.
        + replace (S (ncalls w) + j')%nat with (ncalls w + S j')%nat by lia. reflexivity.
      - intros i Hi.
        replace (ncalls (advance (EvGenerate (ncalls w) req :: evs) 1 w) + i)%nat
          with (ncalls w + S i)%nat by (cbn; lia).
        apply Hfail. lia. }
    cbn [failedEvents].
    destruct (attempt <? Z.of_nat maxRetries).
    + unfold sleep at 1. rewrite emit_wait_advance, advance_advance.
      cbn [app Nat.add]. apply (Hgo [EvWait (waitTime attempt)]).
    + unfold ret at 1. apply (Hgo []).
Qed.

(** X1. For every budget [maxRetries >= 1]: when the first [maxRetries]
    attempts all fail, the wrapper has made exactly [maxRetries] calls,
    paused after each but the last, and throws the error of the last
    attempt. *)
Theorem generateSceneImageWithRetry_exhausted
        backend description ctx size charImage (maxRetries : nat) (errs : nat -> JsError) w :
  let req := sceneImageRequest description ctx size charImage in
  (1 <= maxRetries)%nat ->
  (forall i, (i < maxRetries)%nat ->
             attemptResult backend req (ncalls w + i) = inl (errs (ncalls w + i)%nat)) ->
  generateSceneImageWithRetry backend description ctx size charImage maxRetries w
  = (Throw (errs (ncalls w + (maxRetries - 1))%nat),
     advance (failedEvents req maxRetries (ncalls w) 1 maxRetries) maxRetries w).
Proof.
  intros req Hpos Hfail. unfold generateSceneImageWithRetry.
  pose proof (retryLoop_failures backend description ctx size charImage maxRetries errs
                                 maxRetries O 1 None w Hfail) as H.
  rewrite Nat.add_0_r in H. rewrite H.
  destruct maxRetries as [|m]; [lia|].
  cbn [retryLoop]. unfold throw. rewrite Nat.sub_succ, Nat.sub_0_r. reflexivity.
Qed.

(** X2. For every budget: when the first [j < maxRetries] attempts fail and
    the next one yields an image, the wrapper returns that image after
    [j + 1] calls and [j] pauses, and calls the backend no more. *)
Theorem generateSceneImageWithRetry_first_success
        backend description ctx size charImage (maxRetries j : nat)
        (errs : nat -> JsError) (url : string) w :
  let req := sceneImageRequest description ctx size charImage in
  (j < maxRetries)%nat ->
  (forall i, (i < j)%nat ->
             attemptResult backend req (ncalls w + i) = inl (errs (ncalls w + i)%nat)) ->
  attemptResult backend req (ncalls w + j) = inr url ->
  generateSceneImageWithRetry backend description ctx size charImage maxRetries w
  = (Ok url,
     advance (failedEvents req maxRetries (ncalls w) 1 j ++ [EvGenerate (ncalls w + j) req])
             (j + 1) w).
Proof.
  intros req Hlt Hfail Hok. unfold generateSceneImageWithRetry.
  replace maxRetries with (j + S (maxRetries - j - 1))%nat at 1 by lia.
  rewrite (retryLoop_failures backend description ctx size charImage maxRetries errs
                              j _ 1 None w Hfail).
  cbn [retryLoop]. unfold bind at 1. unfold caught at 1.
  rewrite generateSceneImage_run. fold req.
  replace (ncalls (advance (failedEvents req maxRetries (ncalls w) 1 j) j w))
    with (ncalls w + j)%nat by reflexivity.
  rewrite Hok. unfold ret. rewrite advance_advance. reflexivity.
Qed.

(** With a budget of zero the wrapper does not call the backend at all and
    throws its own error. *)
Remark generateSceneImageWithRetry_no_budget backend description ctx size charImage w :
  generateSceneImageWithRetry backend description ctx size charImage 0 w
  = (Throw (newError "Scene image generation failed after all retries"), w).
Proof. reflexivity. Qed.

Lemma generateSceneImageWithRetry_exhausted_witness :
  generateSceneImageWithRetry backendForbidden "fox" "ctx" Size1K None 2 initialWorld
  = (Throw (newError "got status: 403 Forbidden. PERMISSION_DENIED"),
     advance (failedEvents (sceneImageRequest "fox" "ctx" Size1K None) 2 0 1 2) 2 initialWorld).
Proof.
  apply (generateSceneImageWithRetry_exhausted
           backendForbidden "fox" "ctx" Size1K None 2
           (fun _ => newError "got status: 403 Forbidden. PERMISSION_DENIED") initialWorld).
  - lia.
  - intros i _. reflexivity.
Defined.

Lemma generateSceneImageWithRetry_first_success_witness :
  generateSceneImageWithRetry backendFlaky "fox" "ctx" Size1K None 3
                              (advance [] 6 initialWorld)
  = (Ok "data:image/png;base64,AAAA",
     advance (failedEvents (sceneImageRequest "fox" "ctx" Size1K None) 3 6 1 1
              ++ [EvGenerate 7 (sceneImageRequest "fox" "ctx" Size1K None)])
             2 (advance [] 6 initialWorld)).
Proof.
  apply (generateSceneImageWithRetry_first_success
           backendFlaky "fox" "ctx" Size1K None 3 1
           (fun _ => newError "got status: 503 UNAVAILABLE")
           "data:image/png;base64,AAAA" (advance [] 6 initialWorld)).
  - lia.
  - intros i Hi. assert (i = O) by lia. subst i. reflexivity.
  - reflexivity.
Defined.

(** X3. The pause before attempt [a + 1] is at least one second and at most
    five, never shrinks from one attempt to the next, doubles for the first
    three attempts and stays at five seconds from the fourth on. *)
Theorem waitTime_bounds (a : Z) :
  1 <= a ->
  1000 <= waitTime a <= 5000
  /\ (forall b, a <= b -> waitTime a <= waitTime b)
  /\ (a <= 3 -> waitTime a = 1000 * 2 ^ (a - 1))
  /\ (4 <= a -> waitTime a = 5000).
Proof.
  intros Ha. unfold waitTime.
  assert (H1 : 1 <= 2 ^ (a - 1)).
  { change 1 with (2 ^ 0). apply Z.pow_le_mono_r; lia. }
  split; [lia|]. split; [|split].
  - intros b Hb.
    assert (2 ^ (a - 1) <= 2 ^ (b - 1)) by (apply Z.pow_le_mono_r; lia).
    lia.
  - intros H3.
    assert (2 ^ (a - 1) <= 2 ^ 2) by (apply Z.pow_le_mono_r; lia).
    change (2 ^ 2) with 4 in *. lia.
  - intros H4.
    assert (2 ^ 3 <= 2 ^ (a - 1)) by (apply Z.pow_le_mono_r; lia).
    change (2 ^ 3) with 8 in *. lia.
Qed.

Lemma waitTime_bounds_witness :
  1000 <= waitTime 3 <= 5000 /\ waitTime 3 = 1000 * 2 ^ (3 - 1).
Proof.
  destruct (waitTime_bounds 3 ltac:(lia)) as (Hb & _ & H3 & _).
  split; [exact Hb|apply H3; lia].
Defined.

(* ------------------------------------------------------------------ *)
(** ** The image clients and the reference sheet builder *)

Lemma firstImage_candidateImages cs : firstImage cs = hd_error (candidateImages cs).
Proof.
  induction cs as [|c cs IH]; [reflexivity|].
  cbn [firstImage candidateImages flat_map].
  destruct (firstInline (parts c)); [reflexivity|exact IH].
Qed.

Lemma candidateImages_truthy cs url :
  In url (candidateImages cs) -> truthy (Some url) = true.
Proof.
  unfold candidateImages. rewrite in_flat_map. intros (c & _ & Hin).
  destruct (firstInline (parts c)) as [u|] eqn:E; [|contradiction].
  destruct Hin as [<-|[]]. eapply firstInline_truthy; eassumption.
Qed.

Lemma firstInline_prefix ps url :
  firstInline ps = Some url -> exists rest, url = ("data:" ++ rest)%string.
Proof.
  induction ps as [|part ps IH]; cbn [firstInline]; [discriminate|].
  destruct (inlineUrl part) as [u|] eqn:E; [|exact IH].
  intros H. injection H as <-. unfold inlineUrl in E.
  destruct (inlineData part) as [d|]; [|discriminate].
  destruct (data d =? "")%string; [discriminate|].
  injection E as <-. eexists. reflexivity.
Qed.

(** X4. [generateSceneImage] and [createCharacter] make exactly one backend
    call and never retry; an error of the backend is thrown on as it is; from
    an answer they return the image of the first candidate that carries one,
    which is a non empty data URL, and when no candidate carries any they
    throw their own error. *)
Theorem image_clients_single_call backend description ctx size charImage w :
  generateSceneImage backend description ctx size charImage w
  = (match backend (ncalls w) (sceneImageRequest description ctx size charImage) with
     | inl e => Throw e
     | inr response =>
         match candidateImages (candidatesOrEmpty response) with
         | url :: _ => Ok url
         | [] => Throw (newError "No image generated.")
         end
     end,
     advance [EvGenerate (ncalls w) (sceneImageRequest description ctx size charImage)] 1 w)
  /\ createCharacter backend description w
     = (match backend (ncalls w) (characterRequest description) with
        | inl e => Throw e
        | inr response =>
            match candidateImages (candidatesOrEmpty response) with
            | url :: _ => Ok url
            | [] => Throw (newError "No character image generated.")
            end
        end,
        advance [EvGenerate (ncalls w) (characterRequest description)] 1 w)
  /\ (forall url, fst (generateSceneImage backend description ctx size charImage w) = Ok url
                  \/ fst (createCharacter backend description w) = Ok url ->
                  exists rest, url = ("data:" ++ rest)%string).
Proof.
  assert (Hscene : generateSceneImage backend description ctx size charImage w
                   = (match backend (ncalls w)
                              (sceneImageRequest description ctx size charImage) with
                      | inl e => Throw e
                      | inr response =>
                          match candidateImages (candidatesOrEmpty response) with
                          | url :: _ => Ok url
                          | [] => Throw (newError "No image generated.")
                          end
                      end,
                      advance [EvGenerate (ncalls w)
                                 (sceneImageRequest description ctx size charImage)] 1 w)).
  { rewrite generateSceneImage_run. unfold attemptResult. f_equal.
    destruct (backend (ncalls w) _) as [e|response]; [reflexivity|].
    rewrite firstImage_candidateImages.
    destruct (candidateImages (candidatesOrEmpty response)); reflexivity. }
  assert (Hchar : createCharacter backend description w
                  = (match backend (ncalls w) (characterRequest description) with
                     | inl e => Throw e
                     | inr response =>
                         match candidateImages (candidatesOrEmpty response) with
                         | url :: _ => Ok url
                         | [] => Throw (newError "No character image generated.")
                         end
                     end,
                     advance [EvGenerate (ncalls w) (characterRequest description)] 1 w)).
  { unfold createCharacter, bind. fold (characterRequest description).
    rewrite generateContent_run.
    destruct (backend (ncalls w) (characterRequest description)) as [e|response];
      [reflexivity|].
    rewrite firstImage_candidateImages.
    destruct (candidateImages (candidatesOrEmpty response)); reflexivity. }
  split; [exact Hscene|]. split; [exact Hchar|].
  assert (Hprefix : forall cs url, In url (candidateImages cs) ->
                                   exists rest, url = ("data:" ++ rest)%string).
  { intros cs url. unfold candidateImages. rewrite in_flat_map. intros (c & _ & Hin).
    destruct (firstInline (parts c)) as [u|] eqn:E; [|contradiction].
    destruct Hin as [<-|[]]. eapply firstInline_prefix; eassumption. }
  intros url [H|H].
  - rewrite Hscene in H. clear Hscene Hchar. cbn [fst] in H.
    destruct (backend (ncalls w) (sceneImageRequest description ctx size charImage))
      as [e|response]; [discriminate|].
    destruct (candidateImages (candidatesOrEmpty response)) as [|u l] eqn:E; [discriminate|].
    injection H as <-. apply (Hprefix (candidatesOrEmpty response)). rewrite E. left. reflexivity.
  - rewrite Hchar in H. clear Hscene Hchar. cbn [fst] in H.
    destruct (backend (ncalls w) (characterRequest description))
      as [e|response]; [discriminate|].
    destruct (candidateImages (candidatesOrEmpty response)) as [|u l] eqn:E; [discriminate|].
    injection H as <-. apply (Hprefix (candidatesOrEmpty response)). rewrite E. left. reflexivity.
Qed.

Lemma setView_get v url results : getView v (setView v url results) = url.
Proof. destruct v; reflexivity. Qed.

Lemma setView_other v v' url results :
  v <> v' -> getView v' (setView v url results) = getView v' results.
Proof. destruct v, v'; intros H; try reflexivity; contradiction. Qed.

Lemma last_cons_default (A : Type) (x : A) l d : last (x :: l) d = last l x.
Proof.
  revert x d. induction l as [|y l IH]; intros x d; [reflexivity|].
  change (last (x :: y :: l) d) with (last (y :: l) d).
  rewrite (IH y d), (IH y x). reflexivity.
Qed.

Lemma assignView_last v cs results :
  getView v (assignView v cs results) = last (candidateImages cs) (getView v results).
Proof.
  unfold assignView. revert results.
  induction cs as [|c cs IH]; intros results; [reflexivity|].
  cbn [fold_left candidateImages flat_map].
  destruct (firstInline (parts c)) as [url|].
  - rewrite IH, setView_get. cbn [app].
    fold (candidateImages cs). symmetry. apply last_cons_default.
  - rewrite IH. reflexivity.
Qed.

Lemma assignView_other v v' cs results :
  v <> v' -> getView v' (assignView v cs results) = getView v' results.
Proof.
  intros Hne. unfold assignView. revert results.
  induction cs as [|c cs IH]; intros results; [reflexivity|].
  cbn [fold_left]. rewrite IH.
  destruct (firstInline (parts c)); [apply setView_other; exact Hne|reflexivity].
Qed.

(** X5. Where the scene image client takes the image of the first candidate,
    the reference sheet builder keeps the image of the last candidate that
    carries one: its [break] leaves the inner loop only.  A response without
    image leaves the view as it was, and the other views are never touched. *)
Theorem assignView_last_candidate (v : ViewName) (cs : list Candidate)
        (results : CharacterReferenceSheet) :
  getView v (assignView v cs results) = last (candidateImages cs) (getView v results)
  /\ (forall v', v <> v' -> getView v' (assignView v cs results) = getView v' results)
  /\ firstImage cs = hd_error (candidateImages cs).
Proof.
  split; [apply assignView_last|].
  split; [intros v'; apply assignView_other|apply firstImage_candidateImages].
Qed.

Lemma viewLoop_never_throws backend req viewName :
  forall fuel retryCount results w,
  exists evs k r,
    viewLoop backend fuel retryCount req viewName results w = (r, advance evs k w)
    /\ Forall isIO evs
    /\ (forall e, r <> Throw e).
Proof.
  induction fuel as [|fuel IH]; intros retryCount results w; cbn [viewLoop].
  - destruct (retryCount <? 3); unfold outOfFuel, ret;
      exists [], 0%nat; rewrite advance_nil; eexists; repeat split;
      try constructor; discriminate.
  - destruct (retryCount <? 3).
    + unfold bind at 1. unfold caught at 1. unfold bind at 1.
      rewrite generateContent_run.
      destruct (backend (ncalls w) req) as [e|response].
      * unfold bind at 1.
        destruct (retryCount + 1 <? 3).
        -- unfold sleep at 1. rewrite emit_wait_advance, advance_advance.
           match goal with
           | |- context [viewLoop _ _ ?rc _ _ ?res ?w1] =>
               destruct (IH rc res w1) as (evs & k & r & Hrun & Hio & Hr)
           end.
           rewrite Hrun, advance_advance. do 3 eexists.
           split; [reflexivity|]. split; [|exact Hr].
           repeat (apply Forall_app; split); try exact Hio; repeat constructor.
        -- unfold ret at 1.
           match goal with
           | |- context [viewLoop _ _ ?rc _ _ ?res ?w1] =>
               destruct (IH rc res w1) as (evs & k & r & Hrun & Hio & Hr)
           end.
           rewrite Hrun, advance_advance. do 3 eexists.
           split; [reflexivity|]. split; [|exact Hr].
           apply Forall_app; split; [repeat constructor|exact Hio].
      * unfold ret at 1.
        destruct (truthy (Some (getView viewName
                                        (assignView viewName (candidatesOrEmpty response)
                                                    results)))).
        -- unfold ret. do 3 eexists. split; [reflexivity|].
           split; [repeat constructor|discriminate].
        -- match goal with
           | |- context [viewLoop _ _ ?rc _ _ ?res ?w1] =>
               destruct (IH rc res w1) as (evs & k & r & Hrun & Hio & Hr)
           end.
           rewrite Hrun, advance_advance. do 3 eexists.
           split; [reflexivity|]. split; [|exact Hr].
           apply Forall_app; split; [repeat constructor|exact Hio].
    + unfold ret. exists [], 0%nat. rewrite advance_nil. eexists.
      split; [reflexivity|]. split; [constructor|discriminate].
Qed.

(** X6. Whatever the backend does and whatever the budget of the model, the
    reference sheet builder never throws, and it touches nothing but the
    backend: the [catch] that [handleGenerate] puts around it is never
    entered, and a failing view cannot fail the character build. *)
Theorem createCharacterReferenceSheet_never_throws
        backend fuel description originalCharacterImage w :
  exists evs k r,
    createCharacterReferenceSheet backend fuel description originalCharacterImage w
    = (r, advance evs k w)
    /\ Forall isIO evs
    /\ (forall e, r <> Throw e).
Proof.
  unfold createCharacterReferenceSheet.
  generalize {| front := ""; side := ""; back := "" |}.
  generalize views. intros vs. revert w.
  induction vs as [|[viewName viewDescription] vs IH]; intros w results; cbn [forViews].
  - unfold ret. exists [], 0%nat. rewrite advance_nil. eexists.
    split; [reflexivity|]. split; [constructor|discriminate].
  - unfold bind.
    destruct (viewLoop_never_throws backend
                (referenceViewRequest description originalCharacterImage viewDescription)
                viewName fuel 0 results w) as (evs & k & r & Hrun & Hio & Hr).
    rewrite Hrun. destruct r as [results'|e|].
    + destruct (IH (advance evs k w) results') as (evs' & k' & r' & Hrun' & Hio' & Hr').
      rewrite Hrun', advance_advance. do 3 eexists.
      split; [reflexivity|]. split; [apply Forall_app; split; assumption|exact Hr'].
    + exfalso. apply (Hr e). reflexivity.
    + do 3 eexists. split; [reflexivity|]. split; [exact Hio|discriminate].
Qed.

Lemma assignView_truthy v cs results :
  candidateImages cs <> [] ->
  truthy (Some (getView v (assignView v cs results))) = true.
Proof.
  intros Hne. rewrite assignView_last. apply (candidateImages_truthy cs).
  destruct (candidateImages cs) as [|u l]; [contradiction|].
  rewrite last_cons_default.
  clear. revert u. induction l as [|x l IH]; intros u; [left; reflexivity|].
  rewrite last_cons_default. right. apply IH.
Qed.

Lemma viewLoop_terminates backend req viewName :
  answersWithImage backend ->
  forall fuel retryCount results w,
    0 <= retryCount <= 3 ->
    (Z.to_nat (3 - retryCount) <= fuel)%nat ->
    exists results' evs k,
      viewLoop backend fuel retryCount req viewName results w
      = (Ok results', advance evs k w)
      /\ (k <= Z.to_nat (3 - retryCount))%nat
      /\ List.length (filter isGenerate evs) = k
      /\ Forall isIO evs /\ Forall linearPause evs.
Proof.
  intros Hanswers.
  induction fuel as [|fuel IH]; intros retryCount results w Hrc Hfuel; cbn [viewLoop].
  - assert (retryCount = 3) by lia. subst retryCount. change (3 <? 3) with false.
    unfold ret. exists results, [], 0%nat. rewrite advance_nil.
    repeat split; try constructor; try lia.
  - destruct (retryCount <? 3) eqn:E.
    + apply Z.ltb_lt in E.
      unfold bind at 1. unfold caught at 1. unfold bind at 1.
      rewrite generateContent_run.
      destruct (backend (ncalls w) req) as [e|response] eqn:Hb.
      * unfold bind at 1.
        assert (Hnext : forall evs0 w1,
                   Forall isIO evs0 -> Forall linearPause evs0 ->
                   List.length (filter isGenerate evs0) = 1%nat ->
                   w1 = advance evs0 1 w ->
                   exists results' evs k,
                     viewLoop backend fuel (retryCount + 1) req viewName results w1
                     = (Ok results', advance evs k w)
                     /\ (k <= Z.to_nat (3 - retryCount))%nat
                     /\ List.length (filter isGenerate evs) = k
                     /\ Forall isIO evs /\ Forall linearPause evs).
        { intros evs0 w1 Hio0 Hp0 Hlen0 ->.
          destruct (IH (retryCount + 1) results (advance evs0 1 w))
            as (results' & evs & k & Hrun & Hk & Hlen & Hio & Hp); [lia|lia|].
          rewrite Hrun, advance_advance. exists results', (evs0 ++ evs), (1 + k)%nat.
          split; [reflexivity|]. split; [lia|].
          split; [rewrite filter_app, length_app, Hlen0, Hlen; reflexivity|].
          split; apply Forall_app; split; assumption. }
        destruct (retryCount + 1 <? 3) eqn:E'.
        -- unfold sleep at 1. rewrite emit_wait_advance, advance_advance.
           apply (Hnext ([EvGenerate (ncalls w) req] ++ [EvWait (1000 * (retryCount + 1))]));
             try reflexivity.
           ++ repeat constructor.
           ++ apply Z.ltb_lt in E'. cbn [app].
              apply Forall_cons; [exact I|]. apply Forall_cons; [|apply Forall_nil].
              unfold linearPause. lia.
        -- unfold ret at 1.
           apply (Hnext [EvGenerate (ncalls w) req]); try reflexivity; repeat constructor.
      * unfold ret at 1.
        rewrite (assignView_truthy viewName _ results (Hanswers _ _ _ Hb)).
        unfold ret. do 3 eexists. split; [reflexivity|].
        split; [lia|]. split; [reflexivity|]. split; repeat constructor.
    + unfold ret. exists results, [], 0%nat. rewrite advance_nil.
      repeat split; try constructor; try lia.
Qed.

(** X7. When every answer of the backend carries an image (so that a call
    either throws or delivers), the reference sheet builder returns, after at
    most three calls per view, nine in all, pausing one or two seconds
    between the attempts on a view, and it returns a sheet: three iterations
    of budget per view are enough. *)
Theorem createCharacterReferenceSheet_terminates
        backend fuel description originalCharacterImage w :
  answersWithImage backend ->
  (3 <= fuel)%nat ->
  exists sheet evs k,
    createCharacterReferenceSheet backend fuel description originalCharacterImage w
    = (Ok sheet, advance evs k w)
    /\ (k <= 9)%nat
    /\ List.length (filter isGenerate evs) = k
    /\ Forall isIO evs /\ Forall linearPause evs.
Proof.
  intros Hanswers Hfuel. unfold createCharacterReferenceSheet, views. cbn [forViews].
  unfold bind.
  destruct (viewLoop_terminates backend
              (referenceViewRequest description originalCharacterImage
                 "front view, facing forward directly at camera")
              ViewFront Hanswers fuel 0
              {| front := ""; side := ""; back := "" |} w)
    as (r1 & evs1 & k1 & Hrun1 & Hk1 & Hl1 & Hio1 & Hp1); [lia|cbn; lia|].
  rewrite Hrun1.
  destruct (viewLoop_terminates backend
              (referenceViewRequest description originalCharacterImage
                 "side profile view, facing left, showing full body from the side")
              ViewSide Hanswers fuel 0 r1 (advance evs1 k1 w))
    as (r2 & evs2 & k2 & Hrun2 & Hk2 & Hl2 & Hio2 & Hp2); [lia|cbn; lia|].
  rewrite Hrun2.
  destruct (viewLoop_terminates backend
              (referenceViewRequest description originalCharacterImage
                 "back view, facing away from camera, showing the character from behind")
              ViewBack Hanswers fuel 0 r2 (advance evs2 k2 (advance evs1 k1 w)))
    as (r3 & evs3 & k3 & Hrun3 & Hk3 & Hl3 & Hio3 & Hp3); [lia|cbn; lia|].
  rewrite Hrun3. unfold ret. rewrite !advance_advance.
  change (Z.to_nat (3 - 0)) with 3%nat in *.
  do 3 eexists. split; [reflexivity|].
  split; [lia|].
  split; [rewrite !filter_app, !length_app, Hl1, Hl2, Hl3; reflexivity|].
  split; repeat (apply Forall_app; split); assumption.
Qed.

Lemma createCharacterReferenceSheet_terminates_witness :
  exists sheet evs k,
    createCharacterReferenceSheet backendFlaky 3 "a small red fox"
                                  "data:image/png;base64,AAAA" initialWorld
    = (Ok sheet, advance evs k initialWorld)
    /\ (k <= 9)%nat
    /\ List.length (filter isGenerate evs) = k
    /\ Forall isIO evs /\ Forall linearPause evs.
Proof.
  apply (createCharacterReferenceSheet_terminates backendFlaky 3).
  - intros n req response. unfold backendFlaky.
    destruct (n <? 7)%nat; [discriminate|].
    intros H. injection H as <-. discriminate.
  - lia.
Defined.

(** X8. The earlier builder of [services/geminiService.ts] makes exactly
    three calls, one per view in the order front, side, back, never pauses,
    never throws and always returns a sheet, whatever the backend answers. *)
Theorem legacy_createCharacterReferenceSheet_three_calls backend description w :
  exists sheet,
    Legacy.createCharacterReferenceSheet backend description w
    = (Ok sheet,
       advance
         [EvGenerate (ncalls w)
            (Legacy.referenceViewRequest description
               "front view, facing forward directly at camera");
          EvGenerate (ncalls w + 1)
            (Legacy.referenceViewRequest description
               "side profile view, facing left, showing full body from the side");
          EvGenerate (ncalls w + 2)
            (Legacy.referenceViewRequest description
               "back view, facing away from camera, showing the character from behind")]
         3 w).
Proof.
  unfold Legacy.createCharacterReferenceSheet, views. cbn [Legacy.forViews].
  assert (Hview : forall req viewName results w0,
             exists results',
               tryCatch
                 (response <- generateContent backend req ;;
                  ret (assignView viewName (candidatesOrEmpty response) results))
                 (fun _ => ret (setView viewName "" results)) w0
               = (Ok results', advance [EvGenerate (ncalls w0) req] 1 w0)).
  { intros req viewName results w0. unfold tryCatch, bind.
    rewrite generateContent_run.
    destruct (backend (ncalls w0) req); unfold ret; eauto. }
  unfold bind at 1.
  destruct (Hview (Legacy.referenceViewRequest description
                     "front view, facing forward directly at camera")
                  ViewFront {| front := ""; side := ""; back := "" |} w) as (r1 & H1).
  rewrite H1.
  unfold bind at 1.
  destruct (Hview (Legacy.referenceViewRequest description
                     "side profile view, facing left, showing full body from the side")
                  ViewSide r1 (advance [EvGenerate (ncalls w)
                     (Legacy.referenceViewRequest description
                        "front view, facing forward directly at camera")] 1 w))
    as (r2 & H2).
  rewrite H2.
  unfold bind at 1.
  match goal with
  | |- context [tryCatch _ _ ?w2] =>
      destruct (Hview (Legacy.referenceViewRequest description
                         "back view, facing away from camera, showing the character from behind")
                      ViewBack r2 w2) as (r3 & H3)
  end.
  rewrite H3. unfold ret. rewrite !advance_advance.
  exists r3. cbn [ncalls advance app Nat.add]. reflexivity.
Qed.

(* ------------------------------------------------------------------ *)
(** ** The store: patching a scene by its number *)

Lemma withScenes_same sb : withScenes sb (scenes sb) = sb.
Proof. destruct sb. reflexivity. Qed.

Lemma patchScenes_unknown i u l : ~ In i (ids l) -> patchScenes i u l = l.
Proof.
  induction l as [|s l IH]; intros Hnotin; [reflexivity|].
  cbn [patchScenes map]. fold (patchScenes i u l).
  destruct (id s =? i) eqn:E.
  - apply Z.eqb_eq in E. exfalso. apply Hnotin. left. exact E.
  - rewrite IH; [reflexivity|]. intros Hin. apply Hnotin. right. exact Hin.
Qed.

(** X9. A scene patch neither inserts nor deletes nor reorders scenes and
    leaves the bible and the reference sheet alone: the store keeps the
    scene numbers in order, the scenes with another number are untouched,
    the ones with the number get the keys of the patch, and a patch for a
    number that no scene has leaves the store value as it was.  After it
    the ref holds the value of the store. *)
Theorem updateSceneInState_patches_by_id sceneId updates w sb :
  storyboard w = Some sb ->
  exists sb',
    updateSceneInState sceneId updates w = (Ok tt, patched sceneId updates w)
    /\ storyboard (patched sceneId updates w) = Some sb'
    /\ storyboardRef (patched sceneId updates w) = Some sb'
    /\ consistencyBible sb' = consistencyBible sb
    /\ characterReferenceSheet sb' = characterReferenceSheet sb
    /\ ids (scenes sb') = ids (scenes sb)
    /\ Forall2 (fun s s' => s' = if id s =? sceneId then spreadScene s updates else s)
               (scenes sb) (scenes sb')
    /\ (~ In sceneId (ids (scenes sb)) -> sb' = sb).
Proof.
  intros Hs. exists (stepStore sceneId updates sb).
  split; [apply updateSceneInState_ok|].
  unfold patched, updateSceneInState. rewrite Hs. cbn.
  repeat split.
  - apply ids_patchScenes.
  - apply Forall2_map_r. reflexivity.
  - intros Hnotin. unfold stepStore. rewrite patchScenes_unknown by exact Hnotin.
    apply withScenes_same.
Qed.

Lemma updateSceneInState_patches_by_id_witness :
  exists sb',
    storyboard (patched 7 (patchGenerating true) (startWorld samplePlan)) = Some sb'
    /\ sb' = samplePlan.
Proof.
  destruct (updateSceneInState_patches_by_id 7 (patchGenerating true)
              (startWorld samplePlan) samplePlan eq_refl)
    as (sb' & _ & Hs & _ & _ & _ & _ & _ & Hunknown).
  exists sb'. split; [exact Hs|].
  apply Hunknown. cbn. intuition discriminate.
Defined.

Lemma spreadKey_twice (A : Type) (old new : option A) :
  spreadKey (spreadKey old new) new = spreadKey old new.
Proof. destruct new; reflexivity. Qed.

Lemma spreadScene_twice s u : spreadScene (spreadScene s u) u = spreadScene s u.
Proof. unfold spreadScene. cbn. rewrite !spreadKey_twice. reflexivity. Qed.

Lemma patchScenes_twice i u l : patchScenes i u (patchScenes i u l) = patchScenes i u l.
Proof.
  unfold patchScenes. rewrite map_map. apply map_ext. intros s.
  destruct (id s =? i) eqn:E.
  - cbn [spreadScene id]. rewrite E. apply spreadScene_twice.
  - rewrite E. reflexivity.
Qed.

Lemma patchScenes_commute i j u v l :
  i <> j -> patchScenes i u (patchScenes j v l) = patchScenes j v (patchScenes i u l).
Proof.
  intros Hne. unfold patchScenes. rewrite !map_map. apply map_ext. intros s.
  destruct (id s =? j) eqn:Ej, (id s =? i) eqn:Ei; cbn [spreadScene id];
    rewrite ?Ej, ?Ei; try reflexivity.
  apply Z.eqb_eq in Ej, Ei. congruence.
Qed.

(** X10. Applying the same scene patch twice leaves the store as applying
    it once, and two patches for different scene numbers give the same store
    in either order. *)
Theorem updateSceneInState_idempotent_and_commutes w :
  (forall i u,
      storyboard (patched i u (patched i u w)) = storyboard (patched i u w)
      /\ storyboardRef (patched i u (patched i u w)) = storyboardRef (patched i u w))
  /\ (forall i j u v,
         i <> j ->
         storyboard (patched i u (patched j v w)) = storyboard (patched j v (patched i u w))).
Proof.
  split.
  - intros i u. unfold patched, updateSceneInState.
    destruct (storyboard w) as [sb|] eqn:Hs; cbn -[patchScenes]; [|auto].
    unfold withScenes. cbn -[patchScenes]. rewrite patchScenes_twice. auto.
  - intros i j u v Hne. unfold patched, updateSceneInState.
    destruct (storyboard w) as [sb|] eqn:Hs; cbn -[patchScenes]; [|reflexivity].
    unfold withScenes. cbn -[patchScenes].
    rewrite (patchScenes_commute i j u v _ Hne). reflexivity.
Qed.



(* ------------------------------------------------------------------ *)
(** ** The pipeline, with what is known of each use of the retry wrapper *)

Section RetryKnowledge.

(** [Q m a]: what is known of a use [a] of the wrapper with budget [m]. *)
Variable backend : Backend.
Variable Q : nat -> Attempt -> Prop.
Hypothesis retry_known :
  forall description ctx size charImage maxRetries tagv w,
  exists evs k r,
    generateSceneImageWithRetry backend description ctx size charImage maxRetries w
    = (r, advance evs k w)
    /\ match r with
       | Ok url => Q maxRetries {| tag := tagv; activity := evs; calls := k;
                                   outcome := Some url |}
       | Throw _ => Q maxRetries {| tag := tagv; activity := evs; calls := k;
                                    outcome := None |}
       | OutOfFuel => False
       end.

Lemma attempt_block_known description ctx size charImage maxRetries
      sceneId (result : option string -> ScenePatch) (tagv : Z) w :
  exists a,
    Q maxRetries a /\ tag a = tagv
    /\ tryCatch
         (img <- generateSceneImageWithRetry backend description ctx size charImage
                   maxRetries ;;
          updateSceneInState sceneId (result (Some img)) ;;
          ret (Some img))
         (fun _ => updateSceneInState sceneId (result None) ;; ret None) w
       = (Ok (outcome a),
          patched sceneId (result (outcome a)) (advance (activity a) (calls a) w)).
Proof.
  destruct (retry_known description ctx size charImage maxRetries tagv w)
    as (evs & k & r & Hrun & Hr).
  unfold tryCatch, bind. rewrite Hrun.
  destruct r as [url|e|]; [| |contradiction].
  - eexists. split; [exact Hr|]. rewrite updateSceneInState_ok. unfold ret. cbn. auto.
  - eexists. split; [exact Hr|]. rewrite updateSceneInState_ok. unfold ret. cbn. auto.
Qed.

Lemma repair_block_known description ctx size charImage maxRetries
      sceneId (result : option string -> ScenePatch) (tagv : Z) w :
  exists a,
    Q maxRetries a /\ tag a = tagv
    /\ tryCatch
         (img <- generateSceneImageWithRetry backend description ctx size charImage
                   maxRetries ;;
          updateSceneInState sceneId (result (Some img)))
         (fun _ => updateSceneInState sceneId (result None)) w
       = (Ok tt,
          patched sceneId (result (outcome a)) (advance (activity a) (calls a) w)).
Proof.
  destruct (retry_known description ctx size charImage maxRetries tagv w)
    as (evs & k & r & Hrun & Hr).
  unfold tryCatch, bind. rewrite Hrun.
  destruct r as [url|e|]; [| |contradiction].
  - eexists. split; [exact Hr|]. rewrite updateSceneInState_ok. cbn. auto.
  - eexists. split; [exact Hr|]. rewrite updateSceneInState_ok. cbn. auto.
Qed.

Lemma firstPassScene_known ctx size charImage scene w :
  exists script,
    itemQ (Q 3) always always scene script
    /\ firstPassScene backend ctx size charImage scene w = (Ok Next, exec script w).
Proof.
  unfold firstPassScene.
  rewrite bind_patch; cbv beta.
  unfold tryFinally, tryCatch at 1.
  rewrite bind_patch; cbv beta.
  unfold bind at 1.
  match goal with
  | |- context [tryCatch _ _ ?w2] =>
      destruct (attempt_block_known (imageADescription scene) ctx size charImage 3
                                    (id scene) resultA 1 w2)
        as (a & Ha & Hta & Hrun)
  end.
  cbn [resultA] in Hrun. rewrite Hrun.
  rewrite bind_patch; cbv beta.
  unfold bind at 1.
  match goal with
  | |- context [tryCatch _ _ ?w5] =>
      destruct (attempt_block_known (imageBDescription scene) ctx size charImage 3
                                    (id scene) resultB 2 w5)
        as (b & Hb & Htb & Hrun')
  end.
  cbn [resultB] in Hrun'. rewrite Hrun'.
  unfold ret at 1. rewrite updateSceneInState_ok.
  exists (sceneScript (id scene) (Some a) (Some b)).
  split.
  - exists (Some a), (Some b). repeat split; intros x Hx; injection Hx as <-; assumption.
  - unfold exec, sceneScript, segment. cbn [app fold_left act].
    rewrite Hta, Htb. reflexivity.
Qed.

Lemma repairScene_known ctx size charImage scene w :
  exists script,
    itemQ (Q 2) lacksA lacksB scene script
    /\ repairScene backend ctx size charImage scene w = (Ok Next, exec script w).
Proof.
  unfold repairScene.
  rewrite bind_patch; cbv beta.
  unfold tryFinally.
  set (w1 := patched (id scene) (patchGenerating true) w).
  assert (HA : exists oa,
             isSome oa = lacksA scene /\ (forall a, oa = Some a -> Q 2 a)
             /\ (if negb (truthy (imageAUrl scene)) then
                   updateSceneInState (id scene) (patchRetryAttempt 3) ;;
                   tryCatch
                     (imageA <- generateSceneImageWithRetry backend (imageADescription scene)
                                  ctx size charImage 2 ;;
                      updateSceneInState (id scene) (patchImageA imageA))
                     (fun _ => updateSceneInState (id scene) patchImageAFailed)
                 else ret tt) w1
                = (Ok tt, exec (segment (id scene) resultA oa) w1)).
  { unfold lacksA. destruct (truthy (imageAUrl scene)); cbn [negb].
    - exists None. repeat split. discriminate.
    - rewrite bind_patch; cbv beta.
      match goal with
      | |- context [tryCatch _ _ ?w2] =>
          destruct (repair_block_known (imageADescription scene) ctx size charImage 2
                                       (id scene) resultA 3 w2)
            as (a & Ha & Hta & Hrun)
      end.
      cbn [resultA] in Hrun. rewrite Hrun.
      exists (Some a). split; [reflexivity|].
      split; [intros x Hx; injection Hx as <-; exact Ha|].
      unfold exec, segment. cbn [fold_left act]. rewrite Hta. reflexivity. }
  destruct HA as (oa & HsA & HQA & HrunA).
  unfold bind at 1. rewrite HrunA.
  set (w2 := exec _ w1).
  assert (HB : exists ob,
             isSome ob = lacksB scene /\ (forall b, ob = Some b -> Q 2 b)
             /\ (if negb (truthy (imageBUrl scene)) then
                   updateSceneInState (id scene) (patchRetryAttempt 4) ;;
                   tryCatch
                     (imageB <- generateSceneImageWithRetry backend (imageBDescription scene)
                                  ctx size charImage 2 ;;
                      updateSceneInState (id scene) (patchImageB imageB))
                     (fun _ => updateSceneInState (id scene) patchImageBFailed)
                 else ret tt) w2
                = (Ok tt, exec (segment (id scene) resultB ob) w2)).
  { unfold lacksB. destruct (truthy (imageBUrl scene)); cbn [negb].
    - exists None. repeat split. discriminate.
    - rewrite bind_patch; cbv beta.
      match goal with
      | |- context [tryCatch _ _ ?w3] =>
          destruct (repair_block_known (imageBDescription scene) ctx size charImage 2
                                       (id scene) resultB 4 w3)
            as (b & Hb & Htb & Hrun)
      end.
      cbn [resultB] in Hrun. rewrite Hrun.
      exists (Some b). split; [reflexivity|].
      split; [intros x Hx; injection Hx as <-; exact Hb|].
      unfold exec, segment. cbn [fold_left act]. rewrite Htb. reflexivity. }
  destruct HB as (ob & HsB & HQB & HrunB).
  unfold bind at 1. rewrite HrunB.
  unfold ret at 1. rewrite updateSceneInState_ok.
  exists (sceneScript (id scene) oa ob).
  split.
  - exists oa, ob. auto.
  - unfold sceneScript, exec. rewrite !fold_left_app. reflexivity.
Qed.

Lemma processImagesQueue_known data size charImage w sb rb :
  storyboard w = Some sb -> storyboardRef w = Some rb -> scenes rb = scenes sb ->
  exists first repair,
    Forall2 (itemQ (Q 3) always always) (scenes data) first
    /\ Forall2 (itemQ (Q 2) lacksA lacksB)
               (filter missingImage (scenes (snd (play sb (List.concat first))))) repair
    /\ processImagesQueue backend data size charImage w
       = (Ok tt, exec (List.concat first ++ List.concat repair) w).
Proof.
  intros Hs Hr Hsc. unfold processImagesQueue.
  destruct (forScenes_script
              (firstPassScene backend (consistencyContextOf data) size charImage)
              (itemQ (Q 3) always always)
              (firstPassScene_known (consistencyContextOf data) size charImage)
              (scenes data) w)
    as (first & HF & Hrun).
  destruct (@exec_ref (List.concat first) w sb rb Hs Hr Hsc) as (rb' & Hr' & Hsc').
  unfold bind at 1. rewrite Hrun.
  unfold retryMissingImages. rewrite Hr'.
  destruct (forScenes_script
              (repairScene backend (consistencyContextOf data) size charImage)
              (itemQ (Q 2) lacksA lacksB)
              (repairScene_known (consistencyContextOf data) size charImage)
              (filter missingImage (scenes rb')) (exec (List.concat first) w))
    as (repair & HR & Hrun').
  exists first, repair.
  split; [exact HF|]. split; [rewrite <- Hsc'; exact HR|].
  rewrite exec_app.
  destruct (filter missingImage (scenes rb')) as [|s l] eqn:E.
  - inversion HR. reflexivity.
  - unfold bind. rewrite Hrun'. reflexivity.
Qed.

End RetryKnowledge.

(* ------------------------------------------------------------------ *)
(** ** A bound on the backend calls of the pipeline *)

Lemma retry_within backend description ctx size charImage maxRetries tagv w :
  exists evs k r,
    generateSceneImageWithRetry backend description ctx size charImage maxRetries w
    = (r, advance evs k w)
    /\ match r with
       | Ok url => attemptWithin maxRetries {| tag := tagv; activity := evs; calls := k;
                                               outcome := Some url |}
       | Throw _ => attemptWithin maxRetries {| tag := tagv; activity := evs; calls := k;
                                                outcome := None |}
       | OutOfFuel => False
       end.
Proof.
  unfold generateSceneImageWithRetry.
  destruct (retryLoop_activity backend description ctx size charImage maxRetries
                               maxRetries 1 None w)
    as (evs & k & r & Hrun & Hio & Hk & Hlen & Hr).
  exists evs, k, r. split; [exact Hrun|].
  destruct r as [url|e|]; [| |exact Hr]; unfold attemptWithin, goodAttempt; cbn.
  - repeat split; auto. intros u Hu. injection Hu as <-. exact Hr.
  - repeat split; auto. discriminate.
Qed.

Lemma exec_ncalls script : forall w, ncalls (exec script w) = (ncalls w + scriptCalls script)%nat.
Proof.
  induction script as [|a script IH]; intros w; cbn [exec fold_left scriptCalls].
  - lia.
  - destruct a as [i u|evs k]; cbn [act].
    + fold (exec script (patched i u w)). rewrite IH.
      unfold patched, updateSceneInState. destruct (storyboard w); reflexivity.
    + fold (exec script (advance evs k w)). rewrite IH. cbn. lia.
Qed.

Lemma play_generate_count script :
  forall sb, Forall countedAction script ->
             List.length (filter isGenerate (fst (play sb script))) = scriptCalls script.
Proof.
  induction script as [|a script IH]; intros sb Hall; [reflexivity|].
  inversion Hall as [|? ? Ha Hrest]; subst.
  destruct a as [i u|evs k].
  - rewrite play_patch_fst. cbn [filter isGenerate scriptCalls]. apply IH. exact Hrest.
  - rewrite play_io_fst, filter_app, length_app, (IH sb Hrest).
    cbn in Ha. rewrite Ha. reflexivity.
Qed.

Lemma scriptCalls_app s1 s2 : scriptCalls (s1 ++ s2) = (scriptCalls s1 + scriptCalls s2)%nat.
Proof.
  induction s1 as [|a s1 IH]; [reflexivity|].
  destruct a; cbn [app scriptCalls]; rewrite IH; lia.
Qed.

Lemma itemQ_within m needA needB scene script :
  itemQ (attemptWithin m) needA needB scene script ->
  Forall countedAction script /\ (scriptCalls script <= 2 * m)%nat.
Proof.
  intros (oa & ob & -> & _ & _ & HA & HB).
  unfold sceneScript, segment.
  destruct oa as [a|], ob as [b|]; cbn [app scriptCalls countedAction];
    try (destruct (HA a eq_refl) as (_ & Hka & Hla));
    try (destruct (HB b eq_refl) as (_ & Hkb & Hlb));
    (split; [repeat constructor; assumption|lia]).
Qed.

Lemma items_within m needA needB l scripts :
  Forall2 (itemQ (attemptWithin m) needA needB) l scripts ->
  Forall countedAction (List.concat scripts)
  /\ (scriptCalls (List.concat scripts) <= 2 * m * List.length l)%nat.
Proof.
  induction 1 as [|scene script l scripts Hitem _ (IHc & IHn)]; cbn [List.concat List.length].
  - split; [constructor|cbn; lia].
  - destruct (itemQ_within _ _ _ _ _ Hitem) as (Hc & Hn).
    split; [apply Forall_app; split; assumption|].
    rewrite scriptCalls_app. lia.
Qed.

Lemma length_ids l : List.length (ids l) = List.length l.
Proof. apply length_map. Qed.

(** X12. Whatever the backend does, a run of the pipeline over a plan of
    [N] scenes makes at most [10 * N] backend calls: at most three per image
    in the first pass and two per image in the repair pass.  The calls are
    exactly the generate events of its trace. *)
Theorem processImagesQueue_call_bound
        (backend : Backend) (data : StoryboardData) (size : ImageSize)
        (charImage : option string) (w : World) :
  started data w ->
  let w' := snd (processImagesQueue backend data size charImage w) in
  (ncalls w <= ncalls w')%nat
  /\ (ncalls w' <= ncalls w + 10 * List.length (scenes data))%nat
  /\ List.length (filter isGenerate (newEvents w w')) = (ncalls w' - ncalls w)%nat.
Proof.
  intros (sb & rb & Hs & Hr & Hsc & Hrc) w'. subst w'.
  destruct (processImagesQueue_known backend attemptWithin (retry_within backend)
                                     data size charImage w sb rb Hs Hr)
    as (first & repair & HF & HR & Hrun); [congruence|].
  rewrite Hrun. cbn [snd].
  destruct (@exec_play (List.concat first ++ List.concat repair) w sb Hs)
    as (_ & Ht & _).
  rewrite (newEvents_app _ _ _ Ht), exec_ncalls.
  destruct (items_within _ _ _ _ _ HF) as (Hc1 & Hn1).
  destruct (items_within _ _ _ _ _ HR) as (Hc2 & Hn2).
  assert (Hlen : (List.length (filter missingImage
                                      (scenes (snd (play sb (List.concat first)))))
                  <= List.length (scenes data))%nat).
  { eapply Nat.le_trans; [apply filter_length_le|].
    rewrite <- (length_ids (scenes (snd (play sb (List.concat first))))), ids_play,
      length_ids, Hsc. lia. }
  rewrite scriptCalls_app.
  split; [lia|]. split; [lia|].
  rewrite play_generate_count by (apply Forall_app; split; assumption).
  rewrite scriptCalls_app. lia.
Qed.

Lemma processImagesQueue_call_bound_witness :
  started samplePlan (startWorld samplePlan)
  /\ let w' := snd (processImagesQueue backendFlaky samplePlan Size1K None
                                       (startWorld samplePlan)) in
     (ncalls (startWorld samplePlan) <= ncalls w')%nat
     /\ (ncalls w' <= ncalls (startWorld samplePlan) + 10 * List.length (scenes samplePlan))%nat
     /\ List.length (filter isGenerate (newEvents (startWorld samplePlan) w'))
        = (ncalls w' - ncalls (startWorld samplePlan))%nat.
Proof.
  assert (H : started samplePlan (startWorld samplePlan)).
  { exists samplePlan, samplePlan. repeat split; reflexivity. }
  split; [exact H|].
  exact (processImagesQueue_call_bound backendFlaky samplePlan Size1K None
                                       (startWorld samplePlan) H).
Defined.

(* ------------------------------------------------------------------ *)
(** ** The pipeline on a backend that always answers with an image *)



















(* ------------------------------------------------------------------ *)
(** ** The spinner is always cleared *)

Lemma sceneItem_clears needA needB scene script sb :
  sceneItem needA needB scene script ->
  holdsOn idle (eq (id scene)) (scenes (snd (play sb script))).
Proof.
  intros (a & b & _ & _ & _ & _ & ->).
  unfold sceneScript. rewrite !app_assoc, play_app. cbn [snd].
  rewrite play_patch_snd. cbn [play snd stepStore withScenes scenes].
  intros s' Hin Hid. apply in_patchScenes in Hin. destruct Hin as (s & Hin & ->).
  destruct (id s =? id scene) eqn:E.
  - reflexivity.
  - apply Z.eqb_neq in E. congruence.
Qed.

Lemma sceneItem_idle_kept needA needB scene script j sb :
  sceneItem needA needB scene script ->
  holdsOn idle (eq j) (scenes sb) -> holdsOn idle (eq j) (scenes (snd (play sb script))).
Proof.
  intros Hitem H.
  destruct (Z.eq_dec (id scene) j) as [<-|Hne].
  - eapply sceneItem_clears. exact Hitem.
  - pose proof (sceneItem_targets _ _ _ _ Hitem) as Ht.
    apply (play_invariant (holdsOn idle (eq j)) (fun _ => True) (targets (id scene))); auto.
    + intros i u l Hi Hl s' Hin Hid. cbn in Hi. subst i.
      apply in_patchScenes in Hin. destruct Hin as (s & Hin & ->).
      destruct (id s =? id scene) eqn:E.
      * apply Z.eqb_eq in E. cbn [spreadScene id] in Hid. congruence.
      * apply Hl; assumption.
    + intros evs k _. apply Forall_forall. auto.
Qed.

Lemma items_clear needA needB :
  forall l scripts,
    Forall2 (sceneItem needA needB) l scripts ->
    forall sb,
      (forall j, holdsOn idle (eq j) (scenes sb) ->
                 holdsOn idle (eq j) (scenes (snd (play sb (List.concat scripts)))))
      /\ holdsOn idle (fun i => In i (ids l)) (scenes (snd (play sb (List.concat scripts)))).
Proof.
  induction 1 as [|scene script l scripts Hitem _ IH]; intros sb.
  - cbn [List.concat play snd]. split; [auto|intros s _ []].
  - cbn [List.concat]. rewrite play_app. cbn [snd].
    destruct (IH (snd (play sb script))) as (Hkeep & Hall).
    split.
    + intros j Hj. apply Hkeep. eapply sceneItem_idle_kept; eassumption.
    + intros s Hin [Hid|Hid].
      * apply (Hkeep (id scene)); [|exact Hin|exact Hid].
        eapply sceneItem_clears. exact Hitem.
      * apply Hall; assumption.
Qed.

(** X14. Whatever the backend does and whatever spinners the plan came
    with, when the pipeline returns no scene shows the spinner: the
    [finally] block of each iteration lowers [isGeneratingImage] and nothing
    after it raises it again without lowering it. *)
Theorem processImagesQueue_clears_every_spinner
        (backend : Backend) (data : StoryboardData) (size : ImageSize)
        (charImage : option string) (w : World) :
  started data w ->
  let out := processImagesQueue backend data size charImage w in
  exists sb',
    storyboard (snd out) = Some sb'
    /\ quiet (scenes sb')
    /\ generatingCount (Some sb') = 0%nat.
Proof.
  intros (sb & rb & Hs & Hr & Hsc & Hrc) out. subst out.
  destruct (@processImagesQueue_script backend data size charImage w sb rb Hs Hr)
    as (first & repair & HF & HR & Hrun); [congruence|].
  rewrite Hrun. cbn [snd].
  destruct (@exec_play (List.concat first ++ List.concat repair) w sb Hs) as (Hs' & _).
  eexists. split; [exact Hs'|].
  pose proof (Forall2_impl _ _ _ _ _ _ firstPassItem_sceneItem HF) as HF'.
  pose proof (Forall2_impl _ _ _ _ _ _ repairItem_sceneItem HR) as HR'.
  assert (Hq : quiet (scenes (snd (play sb (List.concat first ++ List.concat repair))))).
  { rewrite play_app. cbn [snd].
    set (sb1 := snd (play sb (List.concat first))).
    destruct (items_clear _ _ _ _ HF' sb) as (_ & H1). fold sb1 in H1.
    destruct (items_clear _ _ _ _ HR' sb1) as (Hkeep & _).
    intros s Hin.
    assert (Hidle : idle s = true).
    { apply (Hkeep (id s)); [|exact Hin|reflexivity].
      intros s1 Hin1 Hid1. apply H1; [exact Hin1|].
      rewrite <- Hsc, <- (ids_play (List.concat first) sb). fold sb1.
      unfold ids. apply in_map. exact Hin1. }
    unfold idle in Hidle. apply negb_true_iff in Hidle. exact Hidle. }
  split; [exact Hq|].
  cbn [generatingCount]. rewrite (quiet_count _ Hq). reflexivity.
Qed.

Lemma processImagesQueue_clears_every_spinner_witness :
  started samplePlan (startWorld samplePlan)
  /\ let out := processImagesQueue backendFlaky samplePlan Size1K None
                                   (startWorld samplePlan) in
     exists sb',
       storyboard (snd out) = Some sb'
       /\ quiet (scenes sb')
       /\ generatingCount (Some sb') = 0%nat.
Proof.
  assert (H : started samplePlan (startWorld samplePlan)).
  { exists samplePlan, samplePlan. repeat split; reflexivity. }
  split; [exact H|].
  exact (processImagesQueue_clears_every_spinner backendFlaky samplePlan Size1K None
                                                 (startWorld samplePlan) H).
Defined.

(* ------------------------------------------------------------------ *)
(** ** An image is set or flagged as failed, never both *)






(* ------------------------------------------------------------------ *)
(** ** The progress count never drops *)

Lemma imagesOf_keeps s s' : keepsImages s s' -> Download.imagesOf s <= Download.imagesOf s'.
Proof.
  intros (_ & HA & HB). unfold Download.imagesOf.
  destruct (truthy (imageAUrl s)) eqn:EA, (truthy (imageBUrl s)) eqn:EB;
    try rewrite (HA eq_refl); try rewrite (HB eq_refl); rewrite ?EA, ?EB;
    destruct (truthy (imageAUrl s')), (truthy (imageBUrl s')); lia.
Qed.

Lemma count_keeps l l' :
  Forall2 keepsImages l l' ->
  fold_right (fun scene n => Download.imagesOf scene + n) 0 l
  <= fold_right (fun scene n => Download.imagesOf scene + n) 0 l'.
Proof.
  induction 1 as [|s s' l l' Hs _ IH]; cbn [fold_right]; [lia|].
  pose proof (imagesOf_keeps s s' Hs). lia.
Qed.

Lemma progressOf_count sb :
  progressOf (Some sb)
  = fold_right (fun scene n => Download.imagesOf scene + n) 0 (scenes sb).
Proof.
  unfold progressOf, Download.getGeneratedImagesCount. cbn [Download.generated].
  rewrite DownloadFacts.reduce_count. lia.
Qed.

Lemma progressOf_range o :
  0 <= progressOf o
  /\ match o with
     | Some sb => progressOf o <= Download.total (Download.getGeneratedImagesCount sb)
     | None => True
     end.
Proof.
  destruct o as [sb|]; [|cbn; lia].
  rewrite progressOf_count. cbn [Download.getGeneratedImagesCount Download.total].
  pose proof (DownloadFacts.count_bound (scenes sb)). lia.
Qed.

Lemma preservesImages_progressKept ev : preservesImages ev -> progressKept ev.
Proof.
  destruct ev as [n req|ms|i u before after|before after]; cbn [preservesImages progressKept];
    auto;
    destruct before as [b|], after as [a|]; try contradiction; intros H;
    try (rewrite !progressOf_count; apply count_keeps; exact H);
    try (pose proof (progressOf_range (Some a)) as (H0 & _); cbn [progressOf] in *; lia);
    cbn; lia.
Qed.

(** X16. Started on the scenes of the plan, with distinct scene numbers and
    no image set yet, no store update of the pipeline lowers the number of
    generated images that [getGeneratedImagesCount] reports, and that number
    never exceeds the total it reports. *)
Theorem processImagesQueue_progress_never_drops
        (backend : Backend) (data : StoryboardData) (size : ImageSize)
        (charImage : option string) (w : World) :
  started data w ->
  NoDup (ids (scenes data)) ->
  (forall scene, In scene (scenes data) ->
                 truthy (imageAUrl scene) = false /\ truthy (imageBUrl scene) = false) ->
  let w' := snd (processImagesQueue backend data size charImage w) in
  Forall progressKept (newEvents w w')
  /\ progressOf (storyboard w) <= progressOf (storyboard w')
  /\ exists sb', storyboard w' = Some sb'
                 /\ progressOf (storyboard w')
                    <= Download.total (Download.getGeneratedImagesCount sb').
Proof.
  intros (sb & rb & Hs & Hr & Hsc & Hrc) Hnd Hfresh w'. subst w'.
  destruct (@processImagesQueue_script backend data size charImage w sb rb Hs Hr)
    as (first & repair & HF & HR & Hrun); [congruence|].
  rewrite Hrun. cbn [snd].
  destruct (@exec_play (List.concat first ++ List.concat repair) w sb Hs)
    as (Hs' & Ht & _).
  rewrite (newEvents_app _ _ _ Ht).
  pose proof (Forall2_impl _ _ _ _ _ _ firstPassItem_sceneItem HF) as HF'.
  pose proof (Forall2_impl _ _ _ _ _ _ repairItem_sceneItem HR) as HR'.
  split; [|split].
  - eapply Forall_impl; [exact preservesImages_progressKept|].
    rewrite play_app. cbn [fst]. apply Forall_app. split.
    + apply (items_preserve _ _ _ _ HF' Hnd).
      intros scene Hin. rewrite Hsc.
      split; intros _ s Hs0 Hid; apply (Hfresh s Hs0).
    + set (sb1 := snd (play sb (List.concat first))) in *.
      assert (Hnd1 : NoDup (ids (scenes sb1))).
      { unfold sb1. rewrite ids_play, Hsc. exact Hnd. }
      apply (items_preserve _ _ _ _ HR' (NoDup_ids_filter _ _ Hnd1)).
      intros scene Hin. apply filter_In in Hin. destruct Hin as (Hin & _).
      unfold lacksA, lacksB.
      split; intros Hlack s Hs0 Hid;
        rewrite (NoDup_ids_inj _ _ _ Hnd1 Hs0 Hin Hid);
        apply negb_true_iff; exact Hlack.
  - rewrite Hs, Hs'.
    assert (H0 : progressOf (Some sb) = 0).
    { rewrite progressOf_count, Hsc. clear - Hfresh.
      induction (scenes data) as [|s l IH]; [reflexivity|].
      cbn [fold_right]. rewrite IH by (intros s' Hin; apply Hfresh; right; exact Hin).
      destruct (Hfresh s (or_introl eq_refl)) as (Ha & Hb).
      unfold Download.imagesOf. rewrite Ha, Hb. reflexivity. }
    rewrite H0. apply progressOf_range.
  - eexists. split; [exact Hs'|].
    rewrite Hs'. apply (progressOf_range (Some _)).
Qed.

Lemma processImagesQueue_progress_never_drops_witness :
  started samplePlan (startWorld samplePlan)
  /\ NoDup (ids (scenes samplePlan))
  /\ let w' := snd (processImagesQueue backendFlaky samplePlan Size1K None
                                       (startWorld samplePlan)) in
     Forall progressKept (newEvents (startWorld samplePlan) w').
Proof.
  assert (H : started samplePlan (startWorld samplePlan)).
  { exists samplePlan, samplePlan. repeat split; reflexivity. }
  assert (Hnd : NoDup (ids (scenes samplePlan))).
  { repeat constructor; cbn; intuition discriminate. }
  assert (Hf : forall scene, In scene (scenes samplePlan) ->
                             truthy (imageAUrl scene) = false
                             /\ truthy (imageBUrl scene) = false).
  { intros s [<-|[<-|[]]]; split; reflexivity. }
  split; [exact H|]. split; [exact Hnd|].
  exact (proj1 (processImagesQueue_progress_never_drops backendFlaky samplePlan Size1K None
                  (startWorld samplePlan) H Hnd Hf)).
Defined.

(* ------------------------------------------------------------------ *)
(** ** What the pipeline leaves alone *)

Lemma exec_surroundings script : forall w, sameSurroundings w (exec script w).
Proof.
  induction script as [|a script IH]; intros w; cbn [exec fold_left].
  - repeat split.
  - fold (exec script (act w a)).
    destruct (IH (act w a)) as (H1 & H2 & H3 & H4 & H5).
    assert (Ha : sameSurroundings w (act w a)).
    { destruct a as [i u|evs k]; cbn [act]; [|repeat split].
      unfold patched, updateSceneInState. destruct (storyboard w); repeat split. }
    destruct Ha as (A1 & A2 & A3 & A4 & A5).
    repeat split; congruence.
Qed.

Lemma samePlanFields_refl s : samePlanFields s s.
Proof. repeat split. Qed.

Lemma samePlanFields_trans s1 s2 s3 :
  samePlanFields s1 s2 -> samePlanFields s2 s3 -> samePlanFields s1 s3.
Proof. unfold samePlanFields. intuition congruence. Qed.

Lemma Forall2_refl_on (A : Type) (R : A -> A -> Prop) l :
  (forall x, R x x) -> Forall2 R l l.
Proof. intros H. induction l; constructor; auto. Qed.

Lemma Forall2_trans_on (A : Type) (R : A -> A -> Prop) :
  (forall x y z, R x y -> R y z -> R x z) ->
  forall l1 l2 l3, Forall2 R l1 l2 -> Forall2 R l2 l3 -> Forall2 R l1 l3.
Proof.
  intros H l1 l2 l3 H12. revert l3.
  induction H12 as [|x y l1 l2 Hxy _ IH]; intros l3 H23; inversion H23; subst;
    constructor; eauto.
Qed.

Lemma samePlan_stepStore i u sb : samePlan sb (stepStore i u sb).
Proof.
  unfold samePlan, stepStore. cbn [withScenes consistencyBible characterReferenceSheet scenes].
  repeat split. apply Forall2_map_r. intros s _.
  destruct (id s =? i); [repeat split|apply samePlanFields_refl].
Qed.

Lemma play_samePlan script : forall sb, samePlan sb (snd (play sb script)).
Proof.
  induction script as [|a script IH]; intros sb.
  - repeat split. apply Forall2_refl_on. exact samePlanFields_refl.
  - destruct a as [i u|evs k].
    + rewrite play_patch_snd.
      destruct (samePlan_stepStore i u sb) as (B1 & S1 & F1).
      destruct (IH (stepStore i u sb)) as (B2 & S2 & F2).
      repeat split; try congruence.
      eapply Forall2_trans_on; [exact samePlanFields_trans|exact F1|exact F2].
    + rewrite play_io_snd. apply IH.
Qed.

(** X17. Whatever the backend does, the pipeline returns normally and
    touches nothing but the images and progress marks of the scenes: the
    error message, the busy flags, the character image and the key flag of
    the page are as before, the store keeps its bible and its reference
    sheet and, scene by scene, everything the analysis wrote, and the ref
    holds the scenes of the store. *)
Theorem processImagesQueue_touches_only_images
        (backend : Backend) (data : StoryboardData) (size : ImageSize)
        (charImage : option string) (w : World) (sb : StoryboardData) :
  started data w ->
  storyboard w = Some sb ->
  let out := processImagesQueue backend data size charImage w in
  fst out = Ok tt
  /\ sameSurroundings w (snd out)
  /\ exists sb' rb',
      storyboard (snd out) = Some sb'
      /\ storyboardRef (snd out) = Some rb'
      /\ samePlan sb sb'
      /\ scenes rb' = scenes sb'.
Proof.
  intros (sb0 & rb & Hs & Hr & Hsc & Hrc) Hsb out. subst out.
  assert (sb0 = sb) by congruence. subst sb0.
  destruct (@processImagesQueue_script backend data size charImage w sb rb Hs Hr)
    as (first & repair & _ & _ & Hrun); [congruence|].
  rewrite Hrun. cbn [fst snd].
  split; [reflexivity|]. split; [apply exec_surroundings|].
  destruct (@exec_play (List.concat first ++ List.concat repair) w sb Hs) as (Hs' & _).
  destruct (@exec_ref (List.concat first ++ List.concat repair) w sb rb Hs Hr)
    as (rb' & Hr' & Hsc'); [congruence|].
  eexists. exists rb'. split; [exact Hs'|]. split; [exact Hr'|].
  split; [apply play_samePlan|exact Hsc'].
Qed.

Lemma processImagesQueue_touches_only_images_witness :
  started samplePlan (startWorld samplePlan)
  /\ storyboard (startWorld samplePlan) = Some samplePlan
  /\ let out := processImagesQueue backendFlaky samplePlan Size1K None
                                   (startWorld samplePlan) in
     fst out = Ok tt
     /\ sameSurroundings (startWorld samplePlan) (snd out)
     /\ exists sb' rb',
         storyboard (snd out) = Some sb'
         /\ storyboardRef (snd out) = Some rb'
         /\ samePlan samplePlan sb'
         /\ scenes rb' = scenes sb'.
Proof.
  assert (H : started samplePlan (startWorld samplePlan)).
  { exists samplePlan, samplePlan. repeat split; reflexivity. }
  split; [exact H|]. split; [reflexivity|].
  exact (processImagesQueue_touches_only_images backendFlaky samplePlan Size1K None
                                                (startWorld samplePlan) samplePlan
                                                H eq_refl).
Defined.

(* ------------------------------------------------------------------ *)
(** ** The outcomes of [handleGenerate] *)

Lemma createCharacter_run backend description w :
  createCharacter backend description w
  = (match backend (ncalls w) (characterRequest description) with
     | inl e => Throw e
     | inr response =>
         match firstImage (candidatesOrEmpty response) with
         | Some url => Ok url
         | None => Throw (newError "No character image generated.")
         end
     end,
     advance [EvGenerate (ncalls w) (characterRequest description)] 1 w).
Proof.
  unfold createCharacter, bind. fold (characterRequest description).
  rewrite generateContent_run.
  destruct (backend (ncalls w) (characterRequest description)) as [e|response];
    [reflexivity|].
  destruct (firstImage (candidatesOrEmpty response)); reflexivity.
Qed.

Lemma createCharacter_result backend description w :
  exists r,
    createCharacter backend description w
    = (r, advance [EvGenerate (ncalls w) (characterRequest description)] 1 w)
    /\ match r with
       | Ok url => truthy (Some url) = true
       | Throw _ => True
       | OutOfFuel => False
       end.
Proof.
  rewrite createCharacter_run.
  destruct (backend (ncalls w) (characterRequest description)) as [e|response];
    [eexists; split; [reflexivity|exact I]|].
  destruct (firstImage (candidatesOrEmpty response)) as [url|] eqn:E;
    eexists; (split; [reflexivity|]); [|exact I].
  eapply firstImage_truthy. exact E.
Qed.

(** The message the [catch] block of [handleGenerate] shows is never empty. *)
Lemma shown_message_truthy errMsg :
  truthy (Some (if (errMsg =? "")%string then "An unexpected error occurred." else errMsg))
  = true.
Proof.
  destruct (errMsg =? "")%string eqn:E; [reflexivity|].
  cbn [truthy]. rewrite E. reflexivity.
Qed.

(* closes a branch of [handleGenerate] in which the [catch] block ran on [e] *)
Ltac stopped_branch E e :=
  destruct (isAuthorizationError (errorText e));
  cbn -[truthy] in E; inversion E; subst; cbn -[truthy];
  rewrite ?shown_message_truthy;
  (split; [rewrite <- ?app_assoc; cbn [app]; eauto|]);
  repeat split; auto; try lia; right; split; reflexivity.

(** What [handleGenerate] has done when its promise settles: its first
    two steps and the state it leaves, by outcome. *)
Lemma handleGenerateForeground_cases
      backend (parse : string -> option StoryboardData) instruction
      (fuel : nat) (script : string) (size : ImageSize) (w : World) :
  let out := handleGenerateForeground backend parse instruction fuel script size w in
  (exists rest,
      trace (snd out)
      = trace w ++ EvSetStoryboard (storyboard w) None
                :: EvGenerate (ncalls w) (analysisRequest instruction script) :: rest)
  /\ match fst out with
     | Ok (Some (data, size', image)) =>
         started data (snd out)
         /\ size' = size
         /\ characterImage (snd out) = Some image
         /\ truthy (Some image) = true
         /\ error (snd out) = None
         /\ hasApiKey (snd out) = hasApiKey w
         /\ isAnalyzing (snd out) = false
         /\ isGeneratingCharacterSheet (snd out) = false
     | Ok None =>
         isAnalyzing (snd out) = false
         /\ truthy (error (snd out)) = true
         /\ characterImage (snd out) = None
         /\ storyboardRef (snd out) = storyboard (snd out)
         /\ (hasApiKey (snd out) = hasApiKey w
             \/ (hasApiKey (snd out) = false
                 /\ error (snd out) = Some "Permission denied. Please select a valid API Key."))
         /\ (ncalls (snd out) <= ncalls w + 2)%nat
     | Throw _ => False
     | OutOfFuel =>
         isAnalyzing (snd out) = true /\ isGeneratingCharacterSheet (snd out) = true
     end.
Proof.
  intros out. subst out.
  destruct (handleGenerateForeground backend parse instruction fuel script size w)
    as [res w'] eqn:E.
  cbn [fst snd].
  unfold handleGenerateForeground in E.
  unfold bind at 1 2 3 4 5 in E.
  unfold setIsAnalyzing at 1, setError at 1, setStoryboard at 1, setStoryboardRef at 1,
    setCharacterImage at 1 in E.
  unfold tryFinally at 1 in E. unfold tryCatch at 1 in E.
  unfold bind at 1 in E. rewrite generateStoryboardAnalysis_run in E.
  match type of E with
  | context [match ?b with inl _ => _ | inr _ => _ end] => destruct b as [e|response]
  end.
  { stopped_branch E e. }
  destruct (text response) as [payload|].
  2: { stopped_branch E (newError "No response from Gemini."). }
  destruct (payload =? "")%string.
  { stopped_branch E (newError "No response from Gemini."). }
  destruct (parse payload) as [plan|].
  2: { stopped_branch E (newError "Failed to parse storyboard data."). }
  unfold bind at 1 in E. unfold setStoryboard at 1 in E.
  unfold bind at 1 in E. unfold setStoryboardRef at 1 in E.
  unfold bind at 1 in E.
  match type of E with
  | context [createCharacter backend ?d ?w1] =>
      destruct (createCharacter_result backend d w1) as (r & Hrun & Hr)
  end.
  rewrite Hrun in E.
  destruct r as [img|e|]; [| |contradiction].
  2: { stopped_branch E e. }
  unfold bind at 1 in E. unfold setCharacterImage at 1 in E.
  unfold bind at 1 in E. unfold setIsGeneratingCharacterSheet at 1 in E.
  unfold bind at 1 in E. unfold tryFinally at 1 in E. unfold tryCatch at 1 in E.
  unfold bind at 1 in E.
  unfold createCharacterReferenceSheet in E.
  match type of E with
  | context [forViews backend fuel ?d ?i ?vs ?res ?w1] =>
      destruct (forViews_activity backend fuel d i vs res w1) as (evs' & k' & r' & Hrun')
  end.
  rewrite Hrun' in E.
  destruct r' as [sheet|e|]; cbn -[truthy] in E; inversion E; subst; cbn -[truthy];
    (split; [rewrite <- ?app_assoc; cbn [app]; eauto|]).
  - split; [eexists _, _; cbn; repeat split; reflexivity|]. repeat split; auto.
  - split; [eexists _, _; cbn; repeat split; reflexivity|]. repeat split; auto.
  - split; reflexivity.
Qed.

(** X18. [handleGenerate] never rejects, whatever the backend and the
    parser do.  When it gets as far as the pipeline, the store and the ref
    hold the scenes of the plan it passes on, with the image size it was
    given and the character image it shows, no error is shown and both busy
    flags are down.  When it stops before, [isAnalyzing] is down again, a
    non empty error message is shown, no character image is shown, the key
    flag is lowered only together with the permission message, and at most
    two backend calls were made.  The busy flags stay up only if the
    reference sheet builder never returns. *)
Theorem handleGenerateForeground_outcomes
        backend (parse : string -> option StoryboardData) instruction
        (fuel : nat) (script : string) (size : ImageSize) (w : World) :
  let out := handleGenerateForeground backend parse instruction fuel script size w in
  match fst out with
  | Ok (Some (data, size', image)) =>
      started data (snd out)
      /\ size' = size
      /\ characterImage (snd out) = Some image
      /\ truthy (Some image) = true
      /\ error (snd out) = None
      /\ hasApiKey (snd out) = hasApiKey w
      /\ isAnalyzing (snd out) = false
      /\ isGeneratingCharacterSheet (snd out) = false
  | Ok None =>
      isAnalyzing (snd out) = false
      /\ truthy (error (snd out)) = true
      /\ characterImage (snd out) = None
      /\ storyboardRef (snd out) = storyboard (snd out)
      /\ (hasApiKey (snd out) = hasApiKey w
          \/ (hasApiKey (snd out) = false
              /\ error (snd out) = Some "Permission denied. Please select a valid API Key."))
      /\ (ncalls (snd out) <= ncalls w + 2)%nat
  | Throw _ => False
  | OutOfFuel =>
      isAnalyzing (snd out) = true /\ isGeneratingCharacterSheet (snd out) = true
  end.
Proof.
  exact (proj2 (handleGenerateForeground_cases backend parse instruction fuel script size w)).
Qed.








(* ------------------------------------------------------------------ *)
(** ** The archive of [downloadImagesAsZip] *)

Section ArchiveFacts.

Variables readme jsonData prompts guide : StoryboardData -> string.
Variable env : Download.ZipEnv.

Lemma addIfPresent_fetched name url :
  Forall (fetchedFrom env) (Download.addIfPresent env name url).
Proof.
  unfold Download.addIfPresent, Download.addBlob.
  destruct url as [u|]; [|constructor].
  destruct (truthy (Some u)) eqn:T; [|constructor].
  destruct (Download.fetchOk env u) eqn:F; [|constructor].
  constructor; [|constructor]. cbn -[truthy]. auto.
Qed.

Lemma sceneEntries_fetched scene : Forall (fetchedFrom env) (Download.sceneEntries env scene).
Proof.
  unfold Download.sceneEntries. apply Forall_app. split; apply addIfPresent_fetched.
Qed.

Lemma referenceEntries_fetched sb : Forall (fetchedFrom env) (Download.referenceEntries env sb).
Proof.
  unfold Download.referenceEntries.
  destruct (characterReferenceSheet sb) as [sheet|]; [|constructor].
  destruct (Download.referenceFolderOk env); [|constructor].
  repeat (apply Forall_app; split); apply addIfPresent_fetched.
Qed.

Lemma addIfPresent_sceneFile scene letter url :
  filter isSceneFile (Download.addIfPresent env (Download.sceneFileName scene letter) url)
  = Download.addIfPresent env (Download.sceneFileName scene letter) url.
Proof.
  unfold Download.addIfPresent, Download.addBlob.
  destruct url as [u|]; [|reflexivity].
  destruct (truthy (Some u)); [|reflexivity].
  destruct (Download.fetchOk env u); reflexivity.
Qed.

Lemma addIfPresent_other name url :
  startsWith "Scene_" name = false ->
  filter isSceneFile (Download.addIfPresent env name url) = [].
Proof.
  intros H. unfold Download.addIfPresent, Download.addBlob.
  destruct url as [u|]; [|reflexivity].
  destruct (truthy (Some u)); [|reflexivity].
  destruct (Download.fetchOk env u); [|reflexivity].
  cbn [filter]. unfold isSceneFile. cbn [Download.path]. rewrite H. reflexivity.
Qed.

Lemma sceneFiles_all l :
  filter isSceneFile (flat_map (Download.sceneEntries env) l)
  = flat_map (Download.sceneEntries env) l.
Proof.
  induction l as [|scene l IH]; [reflexivity|].
  cbn [flat_map]. rewrite filter_app, IH. f_equal.
  unfold Download.sceneEntries. rewrite filter_app, !addIfPresent_sceneFile. reflexivity.
Qed.

Lemma referenceEntries_other sb : filter isSceneFile (Download.referenceEntries env sb) = [].
Proof.
  unfold Download.referenceEntries.
  destruct (characterReferenceSheet sb) as [sheet|]; [|reflexivity].
  destruct (Download.referenceFolderOk env); [|reflexivity].
  rewrite !filter_app, !addIfPresent_other by reflexivity. reflexivity.
Qed.

Lemma sceneEntries_length scene :
  (forall url, Download.fetchOk env url = true) ->
  Z.of_nat (List.length (Download.sceneEntries env scene)) = Download.imagesOf scene.
Proof.
  intros Hfetch. unfold Download.sceneEntries, Download.addIfPresent, Download.addBlob,
                   Download.imagesOf.
  rewrite length_app.
  destruct (imageAUrl scene) as [a|], (imageBUrl scene) as [b|];
    repeat match goal with
           | |- context [truthy (Some ?u)] => destruct (truthy (Some u))
           end;
    rewrite ?Hfetch; reflexivity.
Qed.

Lemma sceneEntries_length_le scene :
  Z.of_nat (List.length (Download.sceneEntries env scene)) <= Download.imagesOf scene.
Proof.
  unfold Download.sceneEntries, Download.addIfPresent, Download.addBlob, Download.imagesOf.
  rewrite length_app.
  destruct (imageAUrl scene) as [a|], (imageBUrl scene) as [b|];
    repeat match goal with
           | |- context [truthy (Some ?u)] => destruct (truthy (Some u))
           end;
    repeat match goal with
           | |- context [Download.fetchOk env ?u] => destruct (Download.fetchOk env u)
           end;
    cbn; lia.
Qed.

Lemma sceneFiles_count l :
  Z.of_nat (List.length (flat_map (Download.sceneEntries env) l))
  <= fold_right (fun scene n => Download.imagesOf scene + n) 0 l
  /\ ((forall url, Download.fetchOk env url = true) ->
      Z.of_nat (List.length (flat_map (Download.sceneEntries env) l))
      = fold_right (fun scene n => Download.imagesOf scene + n) 0 l).
Proof.
  induction l as [|scene l (IHle & IHeq)]; cbn [flat_map fold_right].
  - split; reflexivity.
  - rewrite length_app, Nat2Z.inj_add.
    pose proof (sceneEntries_length_le scene).
    split; [lia|].
    intros Hfetch. rewrite (sceneEntries_length scene Hfetch), (IHeq Hfetch). reflexivity.
Qed.

(** The archive [downloadImagesAsZip] hands over when the folder and the
    generation succeed. *)
Lemma downloadImagesAsZip_archive sb characterImage :
  Download.folderOk env = true -> Download.generateOk env = true ->
  Download.downloadImagesAsZip readme jsonData prompts guide env sb characterImage
  = Ok (Download.addIfPresent env "character-main.png" characterImage
        ++ Download.referenceEntries env sb
        ++ textFiles readme jsonData prompts guide sb
        ++ flat_map (Download.sceneEntries env) (scenes sb)).
Proof.
  intros Hf Hg. unfold Download.downloadImagesAsZip. rewrite Hf, Hg. reflexivity.
Qed.

(** X20. An image that cannot be fetched never fails the export: the ZIP
    generator returns an archive exactly when the folder can be created and
    the archive can be generated.  The archive then holds the four text
    files, every image in it was fetched from a non empty address, and it
    has at most as many scene image files as [getGeneratedImagesCount]
    reports generated images. *)
Theorem downloadImagesAsZip_skips_failed_fetches
        (sb : StoryboardData) (characterImage : option string) :
  let r := Download.downloadImagesAsZip readme jsonData prompts guide env sb characterImage in
  ((exists archive, r = Ok archive)
   <-> Download.folderOk env = true /\ Download.generateOk env = true)
  /\ forall archive,
      r = Ok archive ->
      incl (textFiles readme jsonData prompts guide sb) archive
      /\ Forall (fetchedFrom env) archive
      /\ Z.of_nat (List.length (filter isSceneFile archive))
         <= Download.generated (Download.getGeneratedImagesCount sb).
Proof.
  intros r. subst r. split.
  - split.
    + intros (archive & H). unfold Download.downloadImagesAsZip in H.
      destruct (Download.folderOk env); [|discriminate].
      destruct (Download.generateOk env); [auto|discriminate].
    + intros (Hf & Hg). rewrite (downloadImagesAsZip_archive sb characterImage Hf Hg).
      eexists. reflexivity.
  - intros archive H.
    assert (Hf : Download.folderOk env = true).
    { unfold Download.downloadImagesAsZip in H.
      destruct (Download.folderOk env); [reflexivity|discriminate]. }
    assert (Hg : Download.generateOk env = true).
    { unfold Download.downloadImagesAsZip in H. rewrite Hf in H.
      destruct (Download.generateOk env); [reflexivity|discriminate]. }
    rewrite (downloadImagesAsZip_archive sb characterImage Hf Hg) in H.
    assert (Ha : archive
                 = Download.addIfPresent env "character-main.png" characterImage
                   ++ Download.referenceEntries env sb
                   ++ textFiles readme jsonData prompts guide sb
                   ++ flat_map (Download.sceneEntries env) (scenes sb)) by congruence.
    clear H. subst archive.
    split; [|split].
    + intros e He. rewrite !in_app_iff. right. right. left. exact He.
    + repeat (apply Forall_app; split).
      * apply addIfPresent_fetched.
      * apply referenceEntries_fetched.
      * repeat constructor.
      * apply Forall_forall. intros e He. apply in_flat_map in He.
        destruct He as (scene & _ & He).
        exact (proj1 (Forall_forall _ _) (sceneEntries_fetched scene) e He).
    + rewrite !filter_app, addIfPresent_other, referenceEntries_other, sceneFiles_all
        by reflexivity.
      cbn [textFiles filter isSceneFile Download.path startsWith Ascii.eqb app].
      cbn [Download.getGeneratedImagesCount Download.generated].
      rewrite DownloadFacts.reduce_count.
      pose proof (proj1 (sceneFiles_count (scenes sb))). cbn. lia.
Qed.

(** X21. When every fetch succeeds the archive has exactly as many scene
    image files as [getGeneratedImagesCount] reports generated images; on a
    storyboard that passes [areAllImagesGenerated] the ZIP handler then
    downloads an archive with two image files per scene, shows no error and
    lowers its busy flag. *)
Theorem handleDownloadZip_complete_storyboard
        (sb : StoryboardData) (characterImage : option string) (st : Download.State) :
  Download.folderOk env = true -> Download.generateOk env = true ->
  (forall url, Download.fetchOk env url = true) ->
  exists archive,
    Download.downloadImagesAsZip readme jsonData prompts guide env sb characterImage
    = Ok archive
    /\ Z.of_nat (List.length (filter isSceneFile archive))
       = Download.generated (Download.getGeneratedImagesCount sb)
    /\ (Download.areAllImagesGenerated sb = true ->
        Download.handleDownloadZip readme jsonData prompts guide env sb characterImage st
        = ({| Download.isDownloadingZip := false; Download.downloadError := None |},
           Some archive)
        /\ Z.of_nat (List.length (filter isSceneFile archive))
           = 2 * Z.of_nat (List.length (scenes sb))).
Proof.
  intros Hf Hg Hfetch.
  eexists. split; [apply (downloadImagesAsZip_archive sb characterImage Hf Hg)|].
  assert (Hcount : Z.of_nat
                     (List.length
                        (filter isSceneFile
                                (Download.addIfPresent env "character-main.png" characterImage
                                 ++ Download.referenceEntries env sb
                                 ++ textFiles readme jsonData prompts guide sb
                                 ++ flat_map (Download.sceneEntries env) (scenes sb))))
                   = Download.generated (Download.getGeneratedImagesCount sb)).
  { rewrite !filter_app, addIfPresent_other, referenceEntries_other, sceneFiles_all
      by reflexivity.
    cbn [textFiles filter isSceneFile Download.path startsWith Ascii.eqb app].
    cbn [Download.getGeneratedImagesCount Download.generated].
    rewrite DownloadFacts.reduce_count.
    rewrite <- (proj2 (sceneFiles_count (scenes sb)) Hfetch). cbn. lia. }
  split; [exact Hcount|].
  intros Hall. split.
  - unfold Download.handleDownloadZip. rewrite Hall. cbn [negb].
    rewrite (downloadImagesAsZip_archive sb characterImage Hf Hg). reflexivity.
  - rewrite Hcount.
    cbn [Download.getGeneratedImagesCount Download.generated].
    rewrite DownloadFacts.reduce_count.
    unfold Download.areAllImagesGenerated in Hall.
    rewrite DownloadFacts.every_complete_count in Hall.
    apply Z.eqb_eq in Hall. lia.
Qed.

End ArchiveFacts.

Lemma downloadImagesAsZip_skips_failed_fetches_witness :
  exists archive,
    Download.downloadImagesAsZip (fun _ => "readme") (fun _ => "json") (fun _ => "prompts")
                                 (fun _ => "guide") allOk partialStoryboard None
    = Ok archive
    /\ incl (textFiles (fun _ => "readme") (fun _ => "json") (fun _ => "prompts")
                       (fun _ => "guide") partialStoryboard) archive
    /\ Forall (fetchedFrom allOk) archive
    /\ Z.of_nat (List.length (filter isSceneFile archive))
       <= Download.generated (Download.getGeneratedImagesCount partialStoryboard).
Proof.
  eexists. split; [reflexivity|].
  apply (proj2 (downloadImagesAsZip_skips_failed_fetches
                  (fun _ => "readme") (fun _ => "json") (fun _ => "prompts")
                  (fun _ => "guide") allOk partialStoryboard None)).
  reflexivity.
Defined.

Lemma handleDownloadZip_complete_storyboard_witness :
  Download.areAllImagesGenerated completeStoryboard = true
  /\ exists archive,
      Download.handleDownloadZip (fun _ => "readme") (fun _ => "json") (fun _ => "prompts")
                                 (fun _ => "guide") allOk completeStoryboard None
                                 {| Download.isDownloadingZip := false;
                                    Download.downloadError := None |}
      = ({| Download.isDownloadingZip := false; Download.downloadError := None |},
         Some archive)
      /\ Z.of_nat (List.length (filter isSceneFile archive)) = 2.
Proof.
  split; [reflexivity|].
  destruct (handleDownloadZip_complete_storyboard
              (fun _ => "readme") (fun _ => "json") (fun _ => "prompts") (fun _ => "guide")
              allOk completeStoryboard None
              {| Download.isDownloadingZip := false; Download.downloadError := None |}
              eq_refl eq_refl (fun _ => eq_refl))
    as (archive & _ & _ & H).
  destruct (H eq_refl) as (Hrun & Hcount).
  exists archive. split; [exact Hrun|exact Hcount].
Defined.

(* ------------------------------------------------------------------ *)
(** ** Which failures make [handleGenerate] ask for another key *)

Lemma substring_prefix t : forall s,
  substring 0 (String.length t) s = t <-> exists post, s = (t ++ post)%string.
Proof.
  induction t as [|c t IH]; intros s; cbn [String.length].
  - split; [intros _; exists s; reflexivity|intros _; destruct s; reflexivity].
  - destruct s as [|c' s']; cbn [substring].
    + split; [discriminate|intros (post & H); discriminate].
    + split.
      * intros H. injection H as -> H. apply IH in H. destruct H as (post & ->).
        exists post. reflexivity.
      * intros (post & H). cbn [append] in H. injection H as -> ->.
        f_equal. apply IH. exists post. reflexivity.
Qed.

Lemma substring_occurs t : forall m s,
  substring m (String.length t) s = t -> occursIn t s.
Proof.
  induction m as [|m IH]; intros s H.
  - apply substring_prefix in H. destruct H as (post & ->).
    exists EmptyString, post. reflexivity.
  - destruct s as [|c s'].
    + destruct t as [|c t]; [|cbn in H; discriminate].
      exists EmptyString, EmptyString. reflexivity.
    + cbn [substring] in H. apply IH in H. destruct H as (pre & post & ->).
      exists (String c pre), post. reflexivity.
Qed.

Lemma occurs_substring t s :
  occursIn t s -> exists m, substring m (String.length t) s = t.
Proof.
  intros (pre & post & ->). exists (String.length pre).
  induction pre as [|c pre IH]; cbn [String.length append substring].
  - apply substring_prefix. exists post. reflexivity.
  - exact IH.
Qed.

Lemma includes_occurs hay needle :
  needle <> EmptyString -> (includes hay needle = true <-> occursIn needle hay).
Proof.
  intros Hne. unfold includes.
  destruct (String.index 0 needle hay) as [m|] eqn:E.
  - split; [intros _|reflexivity].
    apply index_correct1 in E. eapply substring_occurs. exact E.
  - split; [discriminate|].
    intros H. apply occurs_substring in H. destruct H as (m & H).
    exfalso. apply (index_correct3 0 m needle hay E Hne); [lia|exact H].
Qed.

Lemma isAuthorizationError_occurs errMsg :
  isAuthorizationError errMsg = true
  <-> exists mark, In mark authorizationMarks /\ occursIn mark errMsg.
Proof.
  unfold isAuthorizationError, authorizationMarks.
  rewrite !orb_true_iff, !includes_occurs by discriminate.
  split.
  - intros [[H|H]|H]; eexists; (split; [|exact H]); cbn; auto.
  - intros (mark & [<-|[<-|[<-|[]]]] & H); auto.
Qed.

(** X22. When the analysis call is refused, [handleGenerate] stops after
    that one call with an empty store.  It lowers the key flag and shows the
    permission message exactly when the error text contains 403,
    PERMISSION_DENIED or Requested entity was not found anywhere in it;
    otherwise it shows the error text itself, or a stock message when the
    text is empty, and leaves the key flag alone. *)
Theorem handleGenerate_refused_analysis
        backend (parse : string -> option StoryboardData) instruction
        (fuel : nat) (script : string) (size : ImageSize) (w : World) (e : JsError) :
  backend (ncalls w) (analysisRequest instruction script) = inl e ->
  let out := handleGenerateForeground backend parse instruction fuel script size w in
  fst out = Ok None
  /\ storyboard (snd out) = None
  /\ storyboardRef (snd out) = None
  /\ isAnalyzing (snd out) = false
  /\ ncalls (snd out) = (ncalls w + 1)%nat
  /\ ((exists mark, In mark authorizationMarks /\ occursIn mark (errorText e)) ->
      hasApiKey (snd out) = false
      /\ error (snd out) = Some "Permission denied. Please select a valid API Key.")
  /\ (~ (exists mark, In mark authorizationMarks /\ occursIn mark (errorText e)) ->
      hasApiKey (snd out) = hasApiKey w
      /\ error (snd out)
         = Some (if (errorText e =? "")%string then "An unexpected error occurred."
                 else errorText e)).
Proof.
  intros Hb out. subst out.
  destruct (handleGenerateForeground backend parse instruction fuel script size w)
    as [res w'] eqn:E.
  cbn [fst snd].
  unfold handleGenerateForeground in E.
  unfold bind at 1 2 3 4 5 in E.
  unfold setIsAnalyzing at 1, setError at 1, setStoryboard at 1, setStoryboardRef at 1,
    setCharacterImage at 1 in E.
  unfold tryFinally at 1 in E. unfold tryCatch at 1 in E.
  unfold bind at 1 in E. rewrite generateStoryboardAnalysis_run in E.
  cbn [ncalls storeRef storeStoryboard emit] in E.
  rewrite Hb in E.
  pose proof (isAuthorizationError_occurs (errorText e)) as Hauth.
  destruct (isAuthorizationError (errorText e)); cbn in E; inversion E; subst; cbn;
    do 5 (split; [reflexivity || lia|]); (split; intros H).
  - split; reflexivity.
  - exfalso. apply H, Hauth. reflexivity.
  - apply Hauth in H. discriminate.
  - split; reflexivity.
Qed.

Lemma handleGenerate_refused_analysis_witness :
  backendForbidden (ncalls initialWorld) (analysisRequest "" "A fox sits down.")
  = inl (newError "got status: 403 Forbidden. PERMISSION_DENIED")
  /\ let out := handleGenerateForeground backendForbidden parsePlan "" 3
                                         "A fox sits down." Size1K initialWorld in
     fst out = Ok None
     /\ hasApiKey (snd out) = false
     /\ error (snd out) = Some "Permission denied. Please select a valid API Key.".
Proof.
  split; [reflexivity|].
  destruct (handleGenerate_refused_analysis
              backendForbidden parsePlan "" 3 "A fox sits down." Size1K initialWorld
              (newError "got status: 403 Forbidden. PERMISSION_DENIED") eq_refl)
    as (Hres & _ & _ & _ & _ & Hauth & _).
  split; [exact Hres|].
  apply Hauth. exists "403"%string. split; [left; reflexivity|].
  exists "got status: "%string, " Forbidden. PERMISSION_DENIED"%string. reflexivity.
Defined.

(* ------------------------------------------------------------------ *)
(** ** The direction notices of the scene list *)

Lemma mapFrom_length (A B : Type) (f : nat -> A -> B) l :
  forall index, List.length (Indicator.mapFrom f index l) = List.length l.
Proof.
  induction l as [|x l IH]; intros index; cbn [Indicator.mapFrom List.length];
    [reflexivity|]. rewrite IH. reflexivity.
Qed.

Lemma mapFrom_nth (A B : Type) (f : nat -> A -> B) l :
  forall index k,
    nth_error (Indicator.mapFrom f index l) k
    = option_map (f (index + k)%nat) (nth_error l k).
Proof.
  induction l as [|x l IH]; intros index k; cbn [Indicator.mapFrom].
  - destruct k; reflexivity.
  - destruct k as [|k]; cbn [nth_error option_map].
    + rewrite Nat.add_0_r. reflexivity.
    + rewrite IH. replace (S index + k)%nat with (index + S k)%nat by lia. reflexivity.
Qed.

Lemma mapFrom_Forall (A B : Type) (f : nat -> A -> B) (P : B -> Prop) l :
  (forall index x, In x l -> P (f index x)) ->
  forall index, Forall P (Indicator.mapFrom f index l).
Proof.
  induction l as [|x l IH]; intros H index; cbn [Indicator.mapFrom]; constructor.
  - apply H. left. reflexivity.
  - apply IH. intros i y Hy. apply H. right. exact Hy.
Qed.

(** X23. In the scene list of the page the first card never shows the
    direction notice, and every later card shows it exactly when its
    character direction differs from that of the card before it; a
    storyboard with one direction throughout shows none.  The two switch
    statements of the indicator know the same directions: the icon is the
    bullet exactly when the colour is the grey one. *)
Theorem flowNotices_compare_neighbours (scenes : list Scene) :
  List.length (Indicator.flowNotices scenes) = List.length scenes
  /\ (forall first rest, scenes = first :: rest ->
                         hd_error (Indicator.flowNotices scenes) = Some false)
  /\ (forall k previous current,
         nth_error scenes k = Some previous ->
         nth_error scenes (S k) = Some current ->
         nth_error (Indicator.flowNotices scenes) (S k)
         = Some (negb (characterDirection previous =? characterDirection current)%string))
  /\ ((forall s s', In s scenes -> In s' scenes ->
                    characterDirection s = characterDirection s') ->
      Forall (fun notice => notice = false) (Indicator.flowNotices scenes))
  /\ (forall direction,
         Indicator.getDirectionIcon direction = "•"%string
         <-> Indicator.getDirectionColor direction = "text-gray-600 bg-gray-50"%string).
Proof.
  unfold Indicator.flowNotices.
  split; [apply mapFrom_length|].
  split; [intros first rest ->; reflexivity|].
  split.
  { intros k previous current Hp Hc.
    rewrite mapFrom_nth, Hc. cbn [option_map Nat.add].
    unfold Indicator.previousSceneOf, Indicator.hasDirectionChange.
    destruct (Nat.ltb_spec 0 (S k)) as [_|Hlt]; [|lia].
    replace (S k - 1)%nat with k by lia. rewrite Hp. reflexivity. }
  split.
  { intros Hsame. apply mapFrom_Forall. intros index x Hx.
    unfold Indicator.hasDirectionChange, Indicator.previousSceneOf.
    destruct (0 <? index)%nat; [|reflexivity].
    destruct (nth_error scenes (index - 1)) as [p|] eqn:E; [|reflexivity].
    apply nth_error_In in E. rewrite (Hsame p x E Hx), String.eqb_refl. reflexivity. }
  intros [d|]; [|split; reflexivity].
  unfold Indicator.getDirectionIcon, Indicator.getDirectionColor.
  destruct (d =? "left")%string; [split; discriminate|].
  destruct (d =? "right")%string; [split; discriminate|].
  destruct (d =? "forward")%string; [split; discriminate|].
  destruct (d =? "back")%string; [split; discriminate|].
  split; reflexivity.
Qed.

Lemma flowNotices_compare_neighbours_witness :
  nth_error (Indicator.flowNotices
               [sampleScene 1;
                spreadScene (sampleScene 2) (patchGenerating true)]) 1
  = Some false.
Proof.
  exact (proj1 (proj2 (proj2 (flowNotices_compare_neighbours
                                [sampleScene 1;
                                 spreadScene (sampleScene 2) (patchGenerating true)])))
               0%nat _ _ eq_refl eq_refl).
Defined.

(* ------------------------------------------------------------------ *)
(** ** The steps of a motion prompt *)

Lemma splitSentences_free s :
  Forall (fun piece => Motion.freeOf Motion.isTerminator piece = true)
         (Motion.splitSentences s).
Proof.
  induction s as [|c r IH]; cbn [Motion.splitSentences].
  - repeat constructor.
  - destruct (Motion.isTerminator c) eqn:T.
    + destruct (Motion.startsWithTerminator r); [exact IH|].
      constructor; [reflexivity|exact IH].
    + destruct (Motion.splitSentences r) as [|h t].
      * repeat constructor. cbn [Motion.freeOf]. rewrite T. reflexivity.
      * inversion IH as [|? ? Hh Ht]; subst.
        constructor; [|exact Ht]. cbn [Motion.freeOf]. rewrite T, Hh. reflexivity.
Qed.

Lemma freeOf_trimStart p s :
  Motion.freeOf p s = true -> Motion.freeOf p (trimStart s) = true.
Proof.
  induction s as [|c r IH]; cbn [trimStart]; [auto|].
  destruct (isSpace c); [|auto].
  cbn [Motion.freeOf]. intros H. apply andb_true_iff in H. apply IH, H.
Qed.

Lemma freeOf_reverseOnto p s : forall acc,
  Motion.freeOf p (reverseOnto s acc) = Motion.freeOf p s && Motion.freeOf p acc.
Proof.
  induction s as [|c r IH]; intros acc; cbn [reverseOnto Motion.freeOf]; [reflexivity|].
  rewrite IH. cbn [Motion.freeOf].
  destruct (p c), (Motion.freeOf p r), (Motion.freeOf p acc); reflexivity.
Qed.

Lemma freeOf_trim p s : Motion.freeOf p s = true -> Motion.freeOf p (trim s) = true.
Proof.
  intros H. unfold trim.
  rewrite freeOf_reverseOnto, andb_true_r.
  apply freeOf_trimStart. rewrite freeOf_reverseOnto, andb_true_r.
  apply freeOf_trimStart. exact H.
Qed.

Lemma spanDigits_spec s : forall digits rest,
  Motion.spanDigits s = (digits, rest) ->
  s = (digits ++ rest)%string /\ Motion.allOf Motion.isDigit digits = true.
Proof.
  induction s as [|c r IH]; intros digits rest; cbn [Motion.spanDigits].
  - intros H. injection H as <- <-. split; reflexivity.
  - destruct (Motion.isDigit c) eqn:D.
    + destruct (Motion.spanDigits r) as [d1 r1].
      intros H. injection H as <- <-.
      destruct (IH d1 r1 eq_refl) as (-> & Hd).
      split; [reflexivity|]. cbn [Motion.allOf]. rewrite D, Hd. reflexivity.
    + intros H. injection H as <- <-. split; reflexivity.
Qed.

Lemma freeOf_app_r p a b :
  Motion.freeOf p (a ++ b)%string = true -> Motion.freeOf p b = true.
Proof.
  induction a as [|c a IH]; cbn [append Motion.freeOf]; [auto|].
  intros H. apply andb_true_iff in H. apply IH, H.
Qed.

(** In a text without a point the group of the timing expression is a
    whole number. *)
Lemma matchTimingHere_whole s group :
  Motion.freeOf Motion.isTerminator s = true ->
  Motion.matchTimingHere s = Some group ->
  group <> EmptyString /\ Motion.allOf Motion.isDigit group = true.
Proof.
  intros Hfree H. unfold Motion.matchTimingHere in H.
  destruct s as [|c r]; [discriminate|].
  destruct (c =? "(")%char; [|discriminate].
  cbn [Motion.freeOf] in Hfree. apply andb_true_iff in Hfree. destruct Hfree as (_ & Hfree).
  destruct (Motion.spanDigits r) as [whole r1] eqn:S.
  destruct (spanDigits_spec r whole r1 S) as (-> & Hdigits).
  apply freeOf_app_r in Hfree.
  destruct (whole =? "")%string eqn:W; [discriminate|].
  apply String.eqb_neq in W.
  destruct (match r1 with
            | String d r1' =>
                if (d =? ".")%char
                then let (fraction, r2) := Motion.spanDigits r1' in
                     ((whole ++ "." ++ fraction)%string, r2)
                else (whole, r1)
            | EmptyString => (whole, r1)
            end) as [g r2] eqn:P.
  assert (Hw : g = whole).
  { destruct r1 as [|d r1']; [congruence|].
    cbn [Motion.freeOf] in Hfree. apply andb_true_iff in Hfree. destruct Hfree as (Hd & _).
    unfold Motion.isTerminator in Hd. apply negb_true_iff in Hd.
    apply orb_false_iff in Hd. destruct Hd as (Hd & _).
    apply orb_false_iff in Hd. destruct Hd as (Hd & _).
    rewrite Hd in P. congruence. }
  assert (Hg : g = group).
  { destruct (Motion.matchWord "second" (trimStart r2)) as [r3|]; [|discriminate].
    repeat match type of H with
           | context [match ?x with _ => _ end] => destruct x; try discriminate
           end.
    all: congruence. }
  subst. auto.
Qed.

Lemma extractTiming_whole s : forall t,
  Motion.freeOf Motion.isTerminator s = true ->
  Motion.extractTiming s = Some t -> Motion.wholeSeconds t.
Proof.
  induction s as [|c r IH]; intros t Hfree H; [discriminate|].
  cbn [Motion.extractTiming] in H.
  destruct (Motion.matchTimingHere (String c r)) as [group|] eqn:M.
  - injection H as <-.
    destruct (matchTimingHere_whole _ _ Hfree M) as (Hne & Hd).
    exists group. auto.
  - apply IH; [|exact H].
    cbn [Motion.freeOf] in Hfree. apply andb_true_iff in Hfree. apply Hfree.
Qed.

Lemma mapFrom_map (A B C : Type) (f : nat -> A -> B) (g : B -> C) l :
  forall index,
    map g (Indicator.mapFrom f index l) = Indicator.mapFrom (fun i x => g (f i x)) index l.
Proof.
  induction l as [|x l IH]; intros index; cbn [Indicator.mapFrom map]; [reflexivity|].
  rewrite IH. reflexivity.
Qed.

Lemma mapFrom_index (A : Type) (l : list A) :
  forall index, Indicator.mapFrom (fun i _ => i) index l = seq index (List.length l).
Proof.
  induction l as [|x l IH]; intros index; cbn [Indicator.mapFrom seq List.length];
    [reflexivity|]. rewrite IH. reflexivity.
Qed.

(** X24. The steps [parseMotionSteps] shows are numbered 0, 1, 2, ... in
    order; no description is empty and none contains a point, an
    exclamation mark or a question mark.  Because the prompt is cut at every
    point before the timing is looked for, a timing is always a whole number
    of seconds: the part of the timing expression that reads a decimal
    fraction never applies. *)
Theorem parseMotionSteps_shape (prompt : string) :
  let steps := Motion.parseMotionSteps prompt in
  map Motion.stepId steps = seq 0 (List.length steps)
  /\ (List.length steps <= List.length (Motion.splitSentences prompt))%nat
  /\ Forall (fun step =>
               Motion.description step <> EmptyString
               /\ Motion.freeOf Motion.isTerminator (Motion.description step) = true
               /\ forall t, Motion.timing step = Some t -> Motion.wholeSeconds t)
            steps.
Proof.
  intros steps. subst steps. unfold Motion.parseMotionSteps.
  set (sentences := filter _ _).
  split; [|split].
  - rewrite mapFrom_map. cbn [Motion.stepId].
    rewrite mapFrom_index, mapFrom_length. reflexivity.
  - rewrite mapFrom_length. apply filter_length_le.
  - apply mapFrom_Forall. intros index sentence Hin.
    apply filter_In in Hin. destruct Hin as (Hin & Hkeep).
    pose proof (proj1 (Forall_forall _ _) (splitSentences_free prompt) sentence Hin) as Hfree.
    cbn [Motion.description Motion.timing].
    split; [|split].
    + apply negb_true_iff in Hkeep. apply String.eqb_neq in Hkeep. exact Hkeep.
    + apply freeOf_trim. exact Hfree.
    + intros t. apply extractTiming_whole. exact Hfree.
Qed.

(** A timing with a decimal fraction is cut in two and lost. *)
Example parseMotionSteps_decimal_timing :
  Motion.parseMotionSteps "Walks in (2 seconds). Sits (0.5 seconds)."
  = [ {| Motion.stepId := 0; Motion.description := "Walks in (2 seconds)";
         Motion.timing := Some "2s"%string |};
      {| Motion.stepId := 1; Motion.description := "Sits (0"; Motion.timing := None |};
      {| Motion.stepId := 2; Motion.description := "5 seconds)"; Motion.timing := None |} ].
Proof. reflexivity. Qed.

(* ------------------------------------------------------------------ *)
(** ** The repair pass on its own *)







(* ------------------------------------------------------------------ *)
(** ** The character image on its way back to the backend *)

Lemma split_free s :
  Motion.freeOf isComma s = true -> split ","%char s = [s].
Proof.
  induction s as [|c r IH]; cbn [split Motion.freeOf]; [reflexivity|].
  intros H. apply andb_true_iff in H. destruct H as (Hc & Hr).
  unfold isComma in Hc. apply negb_true_iff in Hc. rewrite Hc, (IH Hr). reflexivity.
Qed.

Lemma split_at_comma a b :
  Motion.freeOf isComma a = true ->
  split ","%char (a ++ String ","%char b) = a :: split ","%char b.
Proof.
  induction a as [|c r IH]; cbn [append split Motion.freeOf].
  - intros _. reflexivity.
  - intros H. apply andb_true_iff in H. destruct H as (Hc & Hr).
    unfold isComma in Hc. apply negb_true_iff in Hc. rewrite Hc, (IH Hr). reflexivity.
Qed.

Lemma freeOf_app p a b :
  Motion.freeOf p (a ++ b)%string = Motion.freeOf p a && Motion.freeOf p b.
Proof.
  induction a as [|c a IH]; cbn [append Motion.freeOf]; [reflexivity|].
  rewrite IH. destruct (p c); reflexivity.
Qed.

Lemma append_assoc_string (a b c : string) : ((a ++ b) ++ c = a ++ b ++ c)%string.
Proof. induction a as [|x a IH]; cbn [append]; [reflexivity|]. rewrite IH. reflexivity. Qed.

Lemma base64Payload_dataUrl mime payload :
  Motion.freeOf isComma mime = true ->
  Motion.freeOf isComma payload = true ->
  base64Payload ("data:" ++ mime ++ ";base64," ++ payload)%string = Some payload.
Proof.
  intros Hm Hp. unfold base64Payload.
  replace ("data:" ++ mime ++ ";base64," ++ payload)%string
    with (("data:" ++ mime ++ ";base64") ++ String ","%char payload)%string.
  - rewrite split_at_comma, (split_free payload Hp); [reflexivity|].
    rewrite !freeOf_app, Hm. reflexivity.
  - rewrite !append_assoc_string. reflexivity.
Qed.

(** X26. An image the backend sent comes back to it unchanged: when its
    MIME type and its data hold no comma, the address the image clients
    build from it is split by the next scene request and by the reference
    sheet request into exactly the data the backend sent.  Both requests
    label it image/png whatever MIME type the backend gave. *)
Theorem character_image_round_trip
        (part : Part) (d : InlineData) (description ctx viewDescription : string)
        (size : ImageSize) :
  inlineData part = Some d ->
  data d <> EmptyString ->
  Motion.freeOf isComma (mimeType d) = true ->
  Motion.freeOf isComma (data d) = true ->
  exists url,
    inlineUrl part = Some url
    /\ base64Payload url = Some (data d)
    /\ (exists prompt,
           contents (sceneImageRequest description ctx size (Some url))
           = [TextPart prompt; InlineDataPart "image/png" (Some (data d))])
    /\ In (InlineDataPart "image/png" (Some (data d)))
          (contents (referenceViewRequest description url viewDescription)).
Proof.
  intros Hd Hne Hm Hp.
  assert (Hurl : inlineUrl part
                 = Some ("data:" ++ mimeType d ++ ";base64," ++ data d)%string).
  { unfold inlineUrl. rewrite Hd.
    destruct (data d =? "")%string eqn:E; [|reflexivity].
    apply String.eqb_eq in E. contradiction. }
  exists ("data:" ++ mimeType d ++ ";base64," ++ data d)%string.
  pose proof (base64Payload_dataUrl (mimeType d) (data d) Hm Hp) as Hpay.
  split; [exact Hurl|]. split; [exact Hpay|]. split.
  - unfold sceneImageRequest. cbn [contents].
    assert (Ht : truthy (Some ("data:" ++ mimeType d ++ ";base64," ++ data d)%string) = true)
      by reflexivity.
    rewrite Ht, Hpay. eexists. reflexivity.
  - unfold referenceViewRequest. cbn [contents]. rewrite Hpay. cbn. auto.
Qed.

Lemma character_image_round_trip_witness :
  exists url,
    inlineUrl {| inlineData := Some {| mimeType := "image/jpeg"; data := "AAAA" |} |}
    = Some url
    /\ base64Payload url = Some "AAAA"%string.
Proof.
  destruct (character_image_round_trip
              {| inlineData := Some {| mimeType := "image/jpeg"; data := "AAAA" |} |}
              {| mimeType := "image/jpeg"; data := "AAAA" |} "" "" "" Size1K
              eq_refl ltac:(discriminate) eq_refl eq_refl)
    as (url & Hurl & Hpay & _).
  exists url. split; [exact Hurl|exact Hpay].
Defined.

Lemma assignView_last_candidate_witness :
  ViewFront <> ViewSide
  /\ getView ViewSide
             (assignView ViewFront (candidatesOrEmpty imageResponse)
                         {| front := ""; side := "kept"; back := "" |})
     = "kept"%string.
Proof.
  assert (H : ViewFront <> ViewSide) by discriminate.
  split; [exact H|].
  exact (proj1 (proj2 (assignView_last_candidate
                         ViewFront (candidatesOrEmpty imageResponse)
                         {| front := ""; side := "kept"; back := "" |}))
               ViewSide H).
Defined.

Lemma updateSceneInState_idempotent_and_commutes_witness :
  1 <> 2
  /\ storyboard (patched 1 (patchGenerating true)
                         (patched 2 patchImageAFailed (startWorld samplePlan)))
     = storyboard (patched 2 patchImageAFailed
                           (patched 1 (patchGenerating true) (startWorld samplePlan))).
Proof.
  assert (H : 1 <> 2) by discriminate.
  split; [exact H|].
  exact (proj2 (updateSceneInState_idempotent_and_commutes (startWorld samplePlan))
               1 2 (patchGenerating true) patchImageAFailed H).
Defined.
